(** * AMALI credit engine: simulation, transaction creation, payments

    Shallow embedding of the server-side credit logic
    (services/CreditService, controllers/TransactionController,
    controllers/PaymentController, and the handlers of
    controllers/ProductController and controllers/CustomerController
    that restock a product and register a customer) together with the
    properties of the credit transaction engine.

    - [Dec]       decimal.js arithmetic as configured by
                  [Decimal.set({ precision: 20, rounding: ROUND_HALF_UP })]
    - [JsDate]    the local-time [Date] setters used for the schedule
    - [Store]     the persisted rows (Prisma models) as finite maps
    - [Text]      template literals, [includes], decimal.js printing
    - [Credit]    CreditService.calculateSimulation / createTransaction
    - [Payment]   PaymentController.payInstallment
    - [Http]      the request handlers of TransactionController
    - [Exact]     the engine's formulas over the rationals
    - [Ledger], [Reply], [Sample]
                  vocabulary of the statements and sample data
    - [Inventory] ProductController.restockProduct
    - [Contracts] PaymentController.getActiveContracts
    - [Listing]   TransactionController.getSchemes
    - [Crm]       CustomerController.create
    - [Calendar], [Lifecycle], [Forms], [Requests]
                  vocabulary for due months, runs of payments and of
                  requests

    The properties follow: decimal arithmetic, the simulation formulas
    and the rounding gap, the installment schedule and stock, the
    payment state machine, due dates and the request handlers; then due
    dates for every start date, the minimum down payment, the way from
    sale to settlement, freshness of ids, stock under sales and
    restocks, the list of active contracts, the answers of the handlers,
    customer registration, the amounts a contract stores and the schemes
    on offer.

    Not embedded: getProducts, getDetail and createProduct (columns and
    JSON attributes the rows here do not carry),
    CustomerController.search (the case-insensitive match is the
    database's) and the React client (floating-point display code). *)

From Stdlib Require Import ZArith QArith Qround Qpower Qabs Qfield Lqa.
From Stdlib Require Import List String Ascii Bool Lia.
From Stdlib Require Import DecimalString.
From stdpp Require Import base numbers option list gmap sorting.

Local Open Scope Z_scope.

(* ===================================================================== *)
(** ** decimal.js values and operations *)
(* ===================================================================== *)

Module Dec.

(** A finite decimal [coef * 10 ^ dexp].  decimal.js compares by value,
    so several pairs stand for the same number. *)
Record Decimal : Type := mkDec { coef : Z; dexp : Z }.

(** [Decimal.set({ precision: 20, ... })] *)
Definition precision : Z := 20.

Inductive Rounding : Type := ROUND_HALF_UP | ROUND_CEIL.

(** Number of decimal digits of a non-negative integer ([0] for [0]). *)
Fixpoint ndigits_aux (fuel : nat) (n : Z) : Z :=
  match fuel with
  | O => 0
  | S f => if n <=? 0 then 0 else 1 + ndigits_aux f (n / 10)
  end.

Definition ndigits (n : Z) : Z :=
  ndigits_aux (S (Z.to_nat (Z.log2 (Z.abs n)))) (Z.abs n).

(** Integer [c / 10^k] rounded to an integer in the given mode.
    ROUND_HALF_UP: to nearest, ties away from zero.
    ROUND_CEIL: towards +Infinity. *)
Definition round_div (mode : Rounding) (c k : Z) : Z :=
  match mode with
  | ROUND_HALF_UP => Z.sgn c * ((2 * Z.abs c + 10 ^ k) / (2 * 10 ^ k))
  | ROUND_CEIL => - ((- c) / 10 ^ k)
  end.

(** Drop the last [k] digits of the coefficient. *)
Definition drop_digits (mode : Rounding) (k : Z) (d : Decimal) : Decimal :=
  if k <=? 0 then d
  else mkDec (round_div mode (coef d) k) (dexp d + k).

(** Rounding of an exact result to [precision] significant digits in the
    configured mode (decimal.js [finalise]). *)
Definition round_sd (d : Decimal) : Decimal :=
  drop_digits ROUND_HALF_UP (ndigits (coef d) - precision) d.

(** [x.toDecimalPlaces(dp, mode)] *)
Definition toDecimalPlaces (dp : Z) (mode : Rounding) (d : Decimal) : Decimal :=
  drop_digits mode (- dexp d - dp) d.

Definition of_Z (n : Z) : Decimal := mkDec n 0.

(** Coefficients of two decimals at their common (smaller) exponent. *)
Definition align (a b : Decimal) : Z * Z * Z :=
  let e := Z.min (dexp a) (dexp b) in
  (coef a * 10 ^ (dexp a - e), coef b * 10 ^ (dexp b - e), e).

Definition plus (a b : Decimal) : Decimal :=
  let '(x, y, e) := align a b in round_sd (mkDec (x + y) e).

Definition minus (a b : Decimal) : Decimal :=
  let '(x, y, e) := align a b in round_sd (mkDec (x - y) e).

Definition mul (a b : Decimal) : Decimal :=
  round_sd (mkDec (coef a * coef b) (dexp a + dexp b)).

(** [a.div(b)]: the quotient correctly rounded to [precision] digits.
    The integer quotient is taken with [precision + ndigits b] extra
    digits, which leaves at least one digit to drop, so rounding the
    truncated quotient half-up equals rounding the exact one
    (lemma [div_nearest] below).
    For [b = 0] decimal.js returns [Infinity] or [NaN], which this type
    does not have; callers guard a divisor that can be zero. *)
Definition div (a b : Decimal) : Decimal :=
  let s := precision + ndigits (coef b) in
  let q := (Z.abs (coef a) * 10 ^ s) / Z.abs (coef b) in
  round_sd (mkDec (Z.sgn (coef a) * Z.sgn (coef b) * q)
                  (dexp a - dexp b - s)).

Definition lt (a b : Decimal) : bool :=
  let '(x, y, _) := align a b in x <? y.

Definition eq (a b : Decimal) : bool :=
  let '(x, y, _) := align a b in x =? y.

Definition lte (a b : Decimal) : bool := negb (lt b a).
Definition gte (a b : Decimal) : bool := negb (lt a b).

Definition isZero (a : Decimal) : bool := coef a =? 0.

(** The integer a decimal denotes, when it denotes one. *)
Definition to_Z (a : Decimal) : option Z :=
  if 0 <=? dexp a then Some (coef a * 10 ^ dexp a)
  else if coef a mod 10 ^ (- dexp a) =? 0 then Some (coef a / 10 ^ (- dexp a))
  else None.

(** The rational number a decimal denotes. *)
Definition value (a : Decimal) : Q :=
  (inject_Z (coef a) * Qpower (inject_Z 10) (dexp a))%Q.

End Dec.

(* ===================================================================== *)
(** ** JavaScript [Date] in local time *)
(* ===================================================================== *)

Module JsDate.

(** Broken-down local time; [month] is 0-based as in [getMonth()].
    Daylight-saving shifts of the host time zone are not modelled. *)
Record Date : Type := mkDate {
  year : Z; month : Z; day : Z;
  hours : Z; minutes : Z; seconds : Z; millis : Z
}.

Definition is_leap (y : Z) : bool :=
  (y mod 4 =? 0) && (negb (y mod 100 =? 0) || (y mod 400 =? 0)).

Definition days_in_month (y m : Z) : Z :=
  if m =? 1 then (if is_leap y then 29 else 28)
  else if (m =? 3) || (m =? 5) || (m =? 8) || (m =? 10) then 30
  else 31.

Definition next_month (y m : Z) : Z * Z :=
  if m =? 11 then (y + 1, 0) else (y, m + 1).

Definition prev_month (y m : Z) : Z * Z :=
  if m =? 0 then (y - 1, 11) else (y, m - 1).

(** ECMAScript MakeDay: a day number outside the month carries into the
    following months (or borrows from the preceding ones). *)
Fixpoint carry_day (fuel : nat) (y m d : Z) : Z * Z * Z :=
  match fuel with
  | O => (y, m, d)
  | S f =>
      if d <? 1 then
        let '(y', m') := prev_month y m in
        carry_day f y' m' (d + days_in_month y' m')
      else if days_in_month y m <? d then
        let '(y', m') := next_month y m in
        carry_day f y' m' (d - days_in_month y m)
      else (y, m, d)
  end.

Definition make_day (y m d : Z) : Z * Z * Z :=
  carry_day (S (Z.to_nat (Z.abs d / 28))) (y + m / 12) (m mod 12) d.

Definition with_day (t : Date) (ymd : Z * Z * Z) : Date :=
  let '(y, m, d) := ymd in
  mkDate y m d (hours t) (minutes t) (seconds t) (millis t).

Definition getMonth (t : Date) : Z := month t.

(** [t.setMonth(m)]: the day of month is kept and may overflow. *)
Definition setMonth (m : Z) (t : Date) : Date :=
  with_day t (make_day (year t) m (day t)).

(** [t.setDate(d)] *)
Definition setDate (d : Z) (t : Date) : Date :=
  with_day t (make_day (year t) (month t) d).

(** [t.setHours(h, mi, s, ms)] for arguments within their ranges: the
    local time asked for.  On a day on which the host's time zone skips
    that local time (a daylight-saving gap at midnight), the host lands
    behind the gap, on the same day; that shift of the time of day is
    not modelled. *)
Definition setHours (h mi s ms : Z) (t : Date) : Date :=
  mkDate (year t) (month t) (day t) h mi s ms.

End JsDate.

(* ===================================================================== *)
(** ** Persisted rows *)
(* ===================================================================== *)

Module Store.

Import Dec.

Inductive TransactionStatus : Type :=
  PENDING | ACTIVE | TX_PAID | VOID | BAD_DEBT.

Inductive InstallmentStatus : Type :=
  UNPAID | PARTIAL | PAID | LATE.

Definition InstallmentStatus_eqb (a b : InstallmentStatus) : bool :=
  match a, b with
  | UNPAID, UNPAID | PARTIAL, PARTIAL | PAID, PAID | LATE, LATE => true
  | _, _ => false
  end.

Record LoanScheme : Type := mkLoanScheme {
  scheme_id : Z;
  scheme_name : string;
  interest_rate : Decimal;
  min_dp_percent : Decimal;
  tenor_options : list Z;
  penalty_fee_daily : Decimal;
  scheme_is_active : bool
}.

Record Product : Type := mkProduct {
  product_id : Z;
  sku : string;
  product_name : string;
  stock_qty : Z;
  product_is_active : bool
}.

Record Customer : Type := mkCustomer {
  customer_id : Z;
  nik : string;
  customer_name : string;
  phone : string
}.

Record Transaction : Type := mkTransaction {
  transaction_id : Z;
  tx_customerId : Z;
  tx_productId : Z;
  tx_customer_name : string;
  tx_customer_phone : string;
  tx_customer_ktp : string;
  total_price : Decimal;
  dp_amount : Decimal;
  scheme_snapshot : LoanScheme;
  tx_status : TransactionStatus
}.

Record CreditContract : Type := mkCreditContract {
  contract_id : Z;
  contract_transaction_id : Z;
  principal_amount : Decimal;
  total_interest : Decimal;
  monthly_installment : Decimal;
  start_date : JsDate.Date;
  due_date_day : Z;
  tenor_months : Z
}.

Record Installment : Type := mkInstallment {
  installment_id : Z;
  inst_contract_id : Z;
  installment_nth : Z;
  due_date : JsDate.Date;
  amount_due : Decimal;
  amount_paid : Decimal;
  penalty_paid : Decimal;
  penalty_accrued : Decimal;
  status : InstallmentStatus;
  paid_at : option JsDate.Date
}.

(** The tables, keyed by primary key, and the id sequences of the tables
    the engine inserts into.  The Prisma schema is not among the sources;
    ids are taken from a per-table sequence as an autoincrement column
    does. *)
Record Db : Type := mkDb {
  schemes : gmap Z LoanScheme;
  products : gmap Z Product;
  customers : gmap Z Customer;
  transactions : gmap Z Transaction;
  contracts : gmap Z CreditContract;
  installments : gmap Z Installment;
  next_transaction_id : Z;
  next_contract_id : Z;
  next_installment_id : Z
}.

Definition set_status_tx (s : TransactionStatus) (t : Transaction) : Transaction :=
  mkTransaction (transaction_id t) (tx_customerId t) (tx_productId t)
    (tx_customer_name t) (tx_customer_phone t) (tx_customer_ktp t)
    (total_price t) (dp_amount t) (scheme_snapshot t) s.

Definition decrement_stock (n : Z) (p : Product) : Product :=
  mkProduct (product_id p) (sku p) (product_name p) (stock_qty p - n)
    (product_is_active p).

Definition with_products (db : Db) (ps : gmap Z Product) : Db :=
  mkDb (schemes db) ps (customers db) (transactions db) (contracts db)
    (installments db) (next_transaction_id db) (next_contract_id db)
    (next_installment_id db).

Definition with_transactions (db : Db) (ts : gmap Z Transaction) (next : Z) : Db :=
  mkDb (schemes db) (products db) (customers db) ts (contracts db)
    (installments db) next (next_contract_id db) (next_installment_id db).

Definition with_contracts (db : Db) (cs : gmap Z CreditContract) (next : Z) : Db :=
  mkDb (schemes db) (products db) (customers db) (transactions db) cs
    (installments db) (next_transaction_id db) next (next_installment_id db).

Definition with_installments (db : Db) (rows : gmap Z Installment) (next : Z) : Db :=
  mkDb (schemes db) (products db) (customers db) (transactions db)
    (contracts db) rows (next_transaction_id db) (next_contract_id db) next.

(** [contract.installments] of an [include]: the rows of one contract. *)
Definition installments_of (db : Db) (cid : Z) : list Installment :=
  filter (fun i => inst_contract_id i = cid) (map snd (map_to_list (installments db))).

End Store.

(* ===================================================================== *)
(** ** Strings: template literals, [includes], decimal.js printing *)
(* ===================================================================== *)

Module Text.

Import Dec.
Local Open Scope string_scope.
Local Open Scope Z_scope.

Definition dquote : string := String "034"%char EmptyString.

(** [`${n}`] for an integer [n]. *)
Definition string_of_Z (n : Z) : string :=
  DecimalString.NilZero.string_of_int (Z.to_int n).

(** [hay.includes(needle)] *)
Fixpoint includes (needle hay : string) : bool :=
  String.prefix needle hay ||
  match hay with
  | EmptyString => false
  | String _ rest => includes needle rest
  end.

(** [xs.join(sep)] *)
Definition join (sep : string) (xs : list string) : string :=
  String.concat sep xs.

Fixpoint zeros (k : nat) : string :=
  match k with
  | O => EmptyString
  | S k' => String "0"%char (zeros k')
  end.

Definition zerosZ (k : Z) : string := zeros (Z.to_nat k).

Definition lengthZ (s : string) : Z := Z.of_nat (String.length s).

(** Significant digits without trailing zeros, and their exponent. *)
Fixpoint strip_zeros (fuel : nat) (c e : Z) : Z * Z :=
  match fuel with
  | O => (c, e)
  | S f =>
      if c =? 0 then (0, 0)
      else if c mod 10 =? 0 then strip_zeros f (c / 10) (e + 1)
      else (c, e)
  end.

(** [x.toFixed(dp)]: fixed-point notation with exactly [dp] decimals,
    rounded in the configured mode; the sign is that of [x]. *)
Definition toFixed (dp : Z) (x : Decimal) : string :=
  let y := toDecimalPlaces dp ROUND_HALF_UP x in
  let n := Z.abs (coef y) * 10 ^ (dexp y + dp) in
  let ip := string_of_Z (n / 10 ^ dp) in
  let fp := string_of_Z (n mod 10 ^ dp) in
  let body :=
    if 0 <? dp then ip ++ "." ++ zerosZ (dp - lengthZ fp) ++ fp else ip in
  if coef x <? 0 then "-" ++ body else body.

(** [x.toString()] (also [`${x}`]): exponential notation when the
    exponent of the leading digit is [<= -7] or [>= 21]. *)
Definition toString (x : Decimal) : string :=
  let '(c, e) := strip_zeros (Z.to_nat (ndigits (coef x))) (Z.abs (coef x)) (dexp x) in
  let ds := string_of_Z c in
  let len := lengthZ ds in
  let ex := len - 1 + e in
  let body :=
    if c =? 0 then "0"
    else if (ex <=? -7) || (21 <=? ex) then
      (if 1 <? len
       then substring 0 1 ds ++ "." ++ substring 1 (String.length ds - 1) ds
       else ds)
      ++ (if ex <? 0 then "e" else "e+") ++ string_of_Z ex
    else if ex <? 0 then "0." ++ zerosZ (- ex - 1) ++ ds
    else if len <=? ex then ds ++ zerosZ (ex + 1 - len)
    else if ex + 1 <? len then
      substring 0 (Z.to_nat (ex + 1)) ds ++ "." ++
      substring (Z.to_nat (ex + 1)) (String.length ds - Z.to_nat (ex + 1)) ds
    else ds in
  if coef x <? 0 then "-" ++ body else body.

End Text.

(* ===================================================================== *)
(** ** CreditService *)
(* ===================================================================== *)

Module Credit.

Import Dec Store Text.
Local Open Scope string_scope.
Local Open Scope Z_scope.

Record SimulationInput : Type := mkSimulationInput {
  price : Decimal;
  dp : Decimal;
  schemeId : Z;
  tenorMonths : Z
}.

Record Display : Type := mkDisplay {
  d_price : string;
  d_dp : string;
  d_principal : string;
  d_interestRate : string;
  d_interestAmount : string;
  d_totalLoan : string;
  d_monthlyInstallment : string;
  d_tenorMonths : Z
}.

Record Raw : Type := mkRaw {
  r_price : Decimal;
  r_dp : Decimal;
  principal : Decimal;
  interestRate : Decimal;
  interestAmount : Decimal;
  totalLoan : Decimal;
  monthlyInstallment : Decimal;
  r_tenorMonths : Z
}.

Record SimulationResult : Type := mkSimulationResult {
  display : Display;
  raw : Raw;
  scheme : LoanScheme
}.

Record CreateTransactionInput : Type := mkCreateTransactionInput {
  productId : Z;
  customerId : Z;
  c_price : Decimal;
  c_dp : Decimal;
  c_schemeId : Z;
  c_tenorMonths : Z;
  dueDateDay : Z
}.

(** A thrown [Error] carries its message. *)
Definition Result (A : Type) : Type := string + A.

Definition throw {A : Type} (msg : string) : Result A := inl msg.

Definition bind {A B : Type} (r : Result A) (k : A -> Result B) : Result B :=
  match r with
  | inl e => inl e
  | inr a => k a
  end.

Notation "x <- r ;; k" := (bind r (fun x => k))
  (at level 100, r at next level, right associativity).
Notation "'check' c 'else_throw' msg ;; k" :=
  (if c then k else throw msg)
  (at level 100, c at next level, msg at next level, right associativity).

Definition msg_scheme_not_found (id : Z) : string :=
  "Loan scheme with ID " ++ string_of_Z id ++ " not found".

Definition msg_scheme_inactive (s : LoanScheme) : string :=
  "Loan scheme " ++ dquote ++ scheme_name s ++ dquote ++ " is not active".

Definition msg_tenor (tenor : Z) (allowed : list Z) : string :=
  "Tenor " ++ string_of_Z tenor ++ " bulan tidak tersedia. Pilihan: " ++
  join ", " (map string_of_Z allowed) ++ " bulan".

Definition msg_min_dp (minDpPercent minDpAmount dpDecimal : Decimal) : string :=
  "DP minimal " ++ toString minDpPercent ++ "% dari harga (Rp " ++
  toFixed 0 minDpAmount ++ "). " ++
  "DP yang dimasukkan: Rp " ++ toFixed 0 dpDecimal.

(** [totalLoan.div(0)] is [Infinity] or [NaN] in decimal.js, values
    [Decimal] here does not have and a decimal column cannot hold, so a
    createTransaction that got this far could not store its contract.
    The model ends the computation with this message instead.  Only a
    scheme that offers a tenor of 0 months reaches it: the simulate
    handler turns a zero tenor away before calling the service. *)
Definition msg_non_finite : string := "Infinity".

Definition includesZ (xs : list Z) (x : Z) : bool :=
  existsb (Z.eqb x) xs.

(** A. calculateSimulation *)
Definition calculateSimulation (db : Db) (input : SimulationInput)
  : Result SimulationResult :=
  let price := price input in
  let dp := dp input in
  let schemeId := schemeId input in
  let tenorMonths := tenorMonths input in
  (* 1. fetch the loan scheme *)
  match schemes db !! schemeId with
  | None => throw (msg_scheme_not_found schemeId)
  | Some scheme =>
    check scheme_is_active scheme else_throw msg_scheme_inactive scheme ;;
    (* 2. tenor is allowed *)
    let allowedTenors := tenor_options scheme in
    check includesZ allowedTenors tenorMonths
      else_throw msg_tenor tenorMonths allowedTenors ;;
    (* 3. minimum DP percentage *)
    let priceDecimal := price in
    let dpDecimal := dp in
    let minDpPercent := min_dp_percent scheme in
    let minDpAmount := div (mul priceDecimal minDpPercent) (of_Z 100) in
    check negb (lt dpDecimal minDpAmount)
      else_throw msg_min_dp minDpPercent minDpAmount dpDecimal ;;
    (* 4. financial values *)
    let principal := minus priceDecimal dpDecimal in
    let interestRate := interest_rate scheme in
    let interestAmount :=
      mul (div (mul principal interestRate) (of_Z 100)) (of_Z tenorMonths) in
    let totalLoan := plus principal interestAmount in
    check negb (isZero (of_Z tenorMonths)) else_throw msg_non_finite ;;
    let monthlyInstallment :=
      toDecimalPlaces 0 ROUND_CEIL (div totalLoan (of_Z tenorMonths)) in
    (* 5. structured result *)
    inr (mkSimulationResult
           (mkDisplay (toFixed 2 priceDecimal) (toFixed 2 dpDecimal)
              (toFixed 2 principal) (toFixed 2 interestRate)
              (toFixed 2 interestAmount) (toFixed 2 totalLoan)
              (toFixed 2 monthlyInstallment) tenorMonths)
           (mkRaw priceDecimal dpDecimal principal interestRate
              interestAmount totalLoan monthlyInstallment tenorMonths)
           scheme)
  end.

(** The helper repeats [calculateSimulation] on the transaction client,
    which reads the same rows. *)
Definition calculateSimulationWithTx (tx : Db) (input : SimulationInput)
  : Result SimulationResult :=
  calculateSimulation tx input.

Record ProductSummary : Type := mkProductSummary {
  ps_id : Z;
  ps_name : string;
  ps_sku : string;
  remainingStock : Z
}.

Record Created : Type := mkCreated {
  cr_transaction : Transaction;
  cr_contract : CreditContract;
  cr_installments : list Installment;
  cr_product : ProductSummary;
  cr_simulation : Display
}.

(** The amount a [toFixed(4)] string stores in a decimal column. *)
Definition stored4 (x : Decimal) : Decimal :=
  toDecimalPlaces 4 ROUND_HALF_UP x.

(** Due date of installment [i], computed from the clock reading
    [startDate]. *)
Definition due_date_of (startDate : JsDate.Date) (dueDateDay i : Z) : JsDate.Date :=
  let dueDate := startDate in
  let dueDate := JsDate.setMonth (JsDate.getMonth dueDate + i) dueDate in
  let dueDate := JsDate.setDate dueDateDay dueDate in
  JsDate.setHours 0 0 0 0 dueDate.

(** [tx.installment.create] of one loop iteration. *)
Definition create_installment (cid : Z) (startDate : JsDate.Date)
    (dueDateDay : Z) (amount : Decimal)
    (acc : Db * list Installment) (i : Z) : Db * list Installment :=
  let '(tx, created) := acc in
  let row := mkInstallment (next_installment_id tx) cid i
               (due_date_of startDate dueDateDay i)
               (stored4 amount) (of_Z 0) (of_Z 0) (of_Z 0) UNPAID None in
  (with_installments tx (<[installment_id row := row]> (installments tx))
     (next_installment_id tx + 1),
   (created ++ [row])%list).

(** B. createTransaction.  [now] and [now'] are the two readings of the
    clock ([start_date] of the contract, [startDate] of the schedule).
    The unit of work either returns the new store or throws, in which
    case the caller's store is what remains. *)
Definition createTransaction (now now' : JsDate.Date) (db : Db)
    (input : CreateTransactionInput) : Result (Db * Created) :=
  let productId := productId input in
  let customerId := customerId input in
  let price := c_price input in
  let dp := c_dp input in
  let schemeId := c_schemeId input in
  let tenorMonths := c_tenorMonths input in
  let dueDateDay := dueDateDay input in
  check negb ((dueDateDay <? 1) || (28 <? dueDateDay))
    else_throw "Tanggal jatuh tempo harus antara 1-28" ;;
  (* Step 1: product stock and customer *)
  match products db !! productId with
  | None => throw ("Produk dengan ID " ++ string_of_Z productId ++ " tidak ditemukan")
  | Some product =>
    check product_is_active product
      else_throw "Produk " ++ dquote ++ product_name product ++ dquote ++ " tidak aktif" ;;
    check negb (stock_qty product <=? 0)
      else_throw "Stok produk " ++ dquote ++ product_name product ++ dquote ++ " habis" ;;
    match customers db !! customerId with
    | None => throw ("Customer dengan ID " ++ string_of_Z customerId ++ " tidak ditemukan")
    | Some customer =>
      (* Step 2: server-side recalculation *)
      simulation <- calculateSimulationWithTx db
                      (mkSimulationInput price dp schemeId tenorMonths) ;;
      (* Step 3: Transaction row with scheme_snapshot *)
      let transaction :=
        mkTransaction (next_transaction_id db) (customer_id customer)
          (product_id product) (customer_name customer) (phone customer)
          (nik customer) price dp (scheme simulation) ACTIVE in
      let tx := with_transactions db
                  (<[transaction_id transaction := transaction]> (transactions db))
                  (next_transaction_id db + 1) in
      (* Step 4: CreditContract row *)
      let contract :=
        mkCreditContract (next_contract_id tx) (transaction_id transaction)
          (stored4 (principal (raw simulation)))
          (stored4 (interestAmount (raw simulation)))
          (stored4 (monthlyInstallment (raw simulation)))
          now dueDateDay tenorMonths in
      let tx := with_contracts tx
                  (<[contract_id contract := contract]> (contracts tx))
                  (next_contract_id tx + 1) in
      (* Step 5: N installment rows *)
      let '(tx, installments) :=
        fold_left
          (create_installment (contract_id contract) now' dueDateDay
             (monthlyInstallment (raw simulation)))
          (seqZ 1 tenorMonths) (tx, []) in
      (* Step 6: decrement product stock *)
      let tx := with_products tx (alter (decrement_stock 1) productId (products tx)) in
      inr (tx,
           mkCreated transaction contract installments
             (mkProductSummary (product_id product) (product_name product)
                (sku product) (stock_qty product - 1))
             (display simulation))
    end
  end.

End Credit.

(* ===================================================================== *)
(** ** PaymentController *)
(* ===================================================================== *)

Module Payment.

Import Dec Store Text Credit.
Local Open Scope string_scope.
Local Open Scope Z_scope.

Record Response : Type := mkResponse {
  status : Z;
  success : bool;
  message : string
}.

Definition mark_paid (now : JsDate.Date) (due : Decimal) (i : Installment)
  : Installment :=
  mkInstallment (installment_id i) (inst_contract_id i) (installment_nth i)
    (due_date i) (amount_due i) due (penalty_paid i) (penalty_accrued i)
    PAID (Some now).

(** The callback run inside [prisma.$transaction]. *)
Definition pay_unit_of_work (now : JsDate.Date) (db : Db) (installmentId : Z)
  : Result Db :=
  match installments db !! installmentId with
  | None => throw "Installment not found"
  | Some installment =>
    check negb (InstallmentStatus_eqb (Store.status installment) PAID)
      else_throw "Installment is already paid" ;;
    (* the [include]d contract, its installments and its transaction,
       as loaded before the update *)
    let siblings := installments_of db (inst_contract_id installment) in
    let tx := with_installments db
                (alter (mark_paid now (amount_due installment)) installmentId
                   (installments db))
                (next_installment_id db) in
    match contracts db !! inst_contract_id installment with
    | None => throw "Cannot read properties of null (reading 'installments')"
    | Some contract =>
      let allPaid :=
        forallb (fun inst =>
                   if installment_id inst =? installmentId then true
                   else InstallmentStatus_eqb (Store.status inst) PAID)
                siblings in
      if allPaid then
        match transactions tx !! contract_transaction_id contract with
        | None => throw "Record to update not found."
        | Some _ =>
          inr (with_transactions tx
                 (alter (set_status_tx TX_PAID) (contract_transaction_id contract)
                    (transactions tx))
                 (next_transaction_id tx))
        end
      else inr tx
    end
  end.

(** POST /api/installments/:id/pay; [id] is the outcome of [parseInt]
    ([None] for [NaN]). *)
Definition payInstallment (now : JsDate.Date) (db : Db) (id : option Z)
  : Db * Response :=
  match id with
  | None => (db, mkResponse 400 false "Invalid installment ID")
  | Some installmentId =>
    match pay_unit_of_work now db installmentId with
    | inr db' => (db', mkResponse 200 true "Payment received successfully")
    | inl msg => (db, mkResponse 400 false msg)
    end
  end.

End Payment.

(* ===================================================================== *)
(** ** TransactionController *)
(* ===================================================================== *)

Module Http.

Import Dec Store Text Credit.
Local Open Scope string_scope.
Local Open Scope Z_scope.

(** Values of [req.body] fields.  Numbers parsed from JSON are finite. *)
Inductive JsValue : Type :=
| JUndefined
| JNull
| JBool (b : bool)
| JNum (d : Decimal)
| JStr (s : string)
| JObject.

(** [!v] *)
Definition falsy (v : JsValue) : bool :=
  match v with
  | JUndefined | JNull => true
  | JBool b => negb b
  | JNum d => isZero d
  | JStr s => match s with EmptyString => true | _ => false end
  | JObject => false
  end.

(** [typeof v === 'number'] *)
Definition is_number (v : JsValue) : bool :=
  match v with JNum _ => true | _ => false end.

Definition missing (v : JsValue) : bool :=
  match v with JUndefined | JNull => true | _ => false end.

Definition num (v : JsValue) : Decimal :=
  match v with JNum d => d | _ => of_Z 0 end.

Record Response (A : Type) : Type := mkResponse {
  status : Z;
  success : bool;
  error : option string;
  data : option A
}.
Arguments mkResponse {A} _ _ _ _.
Arguments status {A} _.
Arguments success {A} _.
Arguments error {A} _.
Arguments data {A} _.

Definition fail {A : Type} (code : Z) (msg : string) : Response A :=
  mkResponse code false (Some msg) None.

Record SimulateBody : Type := mkSimulateBody {
  b_price : JsValue;
  b_dp : JsValue;
  b_schemeId : JsValue;
  b_tenorMonths : JsValue
}.

Record SchemeSummary : Type := mkSchemeSummary {
  ss_id : Z;
  ss_name : string;
  ss_interestRate : string;
  ss_tenorOptions : list Z
}.

Record SimulateData : Type := mkSimulateData {
  sd_simulation : Display;
  sd_scheme : SchemeSummary
}.

(** POST /api/transactions/simulate.  Ids and tenors are integers in the
    store; a request whose [schemeId] or [tenorMonths] is a number with a
    fractional part is outside the model ([None]). *)
Definition simulate (db : Db) (body : SimulateBody)
  : option (Response SimulateData) :=
  let price := b_price body in
  let dp := b_dp body in
  let schemeId := b_schemeId body in
  let tenorMonths := b_tenorMonths body in
  (* basic validation *)
  if falsy price || falsy dp || falsy schemeId || falsy tenorMonths then
    Some (fail 400 "Missing required fields: price, dp, schemeId, tenorMonths")
  (* numeric types *)
  else if negb (is_number price) || negb (is_number dp) ||
          negb (is_number schemeId) || negb (is_number tenorMonths) then
    Some (fail 400 "All fields must be numbers")
  (* positive values *)
  else if lte (num price) (of_Z 0) || lt (num dp) (of_Z 0) ||
          lte (num schemeId) (of_Z 0) || lte (num tenorMonths) (of_Z 0) then
    Some (fail 400 "Price and tenor must be positive. DP cannot be negative.")
  (* DP does not exceed price *)
  else if gte (num dp) (num price) then
    Some (fail 400 "DP tidak boleh melebihi atau sama dengan harga")
  else
    match to_Z (num schemeId), to_Z (num tenorMonths) with
    | Some sid, Some tenor =>
      match calculateSimulation db (mkSimulationInput (num price) (num dp) sid tenor) with
      | inr result =>
        Some (mkResponse 200 true None
                (Some (mkSimulateData (display result)
                         (mkSchemeSummary (scheme_id (scheme result))
                            (scheme_name (scheme result))
                            (toString (interest_rate (scheme result)))
                            (tenor_options (scheme result))))))
      | inl message => Some (fail 400 message)
      end
    | _, _ => None
    end.

Record CreateBody : Type := mkCreateBody {
  cb_productId : JsValue;
  cb_customerId : JsValue;
  cb_price : JsValue;
  cb_dp : JsValue;
  cb_schemeId : JsValue;
  cb_tenorMonths : JsValue;
  cb_dueDateDay : JsValue
}.

Definition fields (body : CreateBody) : list (string * JsValue) :=
  [ ("productId", cb_productId body);
    ("customerId", cb_customerId body);
    ("price", cb_price body);
    ("dp", cb_dp body);
    ("schemeId", cb_schemeId body);
    ("tenorMonths", cb_tenorMonths body);
    ("dueDateDay", cb_dueDateDay body) ].

Record CreateData : Type := mkCreateData {
  cd_transactionId : Z;
  cd_contractId : Z;
  cd_customer_name : string;
  cd_customer_phone : string;
  cd_product : ProductSummary;
  cd_financials : Display;
  cd_installmentCount : Z;
  cd_firstDueDate : option JsDate.Date;
  cd_lastDueDate : option JsDate.Date
}.

(** The status chosen in the [catch] block of [create]. *)
Definition error_status (message : string) : Z :=
  if includes "tidak ditemukan" message || includes "not found" message then 404
  else if includes "habis" message || includes "tidak aktif" message then 409
  else 400.

(** POST /api/transactions.  As in [simulate], integer-valued fields
    carrying a fractional number are outside the model ([None]). *)
Definition create (now now' : JsDate.Date) (db : Db) (body : CreateBody)
  : option (Db * Response CreateData) :=
  let missingFields := filter (fun f => missing (snd f) = true) (fields body) in
  if negb (length missingFields =? 0)%nat then
    Some (db, fail 400 ("Missing required fields: " ++ join ", " (map fst missingFields)))
  else
    match find (fun f => negb (is_number (snd f))) (fields body) with
    | Some (key, _) => Some (db, fail 400 ("Field " ++ key ++ " harus berupa angka"))
    | None =>
      let price := num (cb_price body) in
      let dp := num (cb_dp body) in
      if lte price (of_Z 0) then Some (db, fail 400 "Harga harus lebih dari 0")
      else if lt dp (of_Z 0) then Some (db, fail 400 "DP tidak boleh negatif")
      else if gte dp price then
        Some (db, fail 400 "DP tidak boleh melebihi atau sama dengan harga")
      else
        match to_Z (num (cb_productId body)), to_Z (num (cb_customerId body)),
              to_Z (num (cb_schemeId body)), to_Z (num (cb_tenorMonths body)),
              to_Z (num (cb_dueDateDay body)) with
        | Some pid, Some cid, Some sid, Some tenor, Some day =>
          match createTransaction now now' db
                  (mkCreateTransactionInput pid cid price dp sid tenor day) with
          | inr (db', result) =>
            let rows := cr_installments result in
            Some (db',
                  mkResponse 201 true None
                    (Some (mkCreateData
                             (transaction_id (cr_transaction result))
                             (contract_id (cr_contract result))
                             (tx_customer_name (cr_transaction result))
                             (tx_customer_phone (cr_transaction result))
                             (cr_product result)
                             (cr_simulation result)
                             (Z.of_nat (length rows))
                             (option_map due_date (head rows))
                             (option_map due_date (last rows)))))
          | inl message => Some (db, fail (error_status message) message)
          end
        | _, _, _, _, _ => None
        end
    end.

End Http.

(* ===================================================================== *)
(** ** The engine's formulas in exact arithmetic *)
(* ===================================================================== *)

Module Exact.

Import Dec.

(** [q] can be written with at most [n] significant digits. *)
Definition fits (n : Z) (q : Q) : Prop :=
  exists c e : Z, Z.abs c < 10 ^ n /\ (q == value (mkDec c e))%Q.

(** [q] is a non-negative amount below [10^19] with at most 19
    significant digits. *)
Definition amount19 (q : Q) : Prop :=
  exists A d : Z, 0 <= A < 10 ^ 19 /\ 0 <= d /\
                  (q == inject_Z A / inject_Z (10 ^ d))%Q.

Definition principal (price dp : Decimal) : Q :=
  (value price - value dp)%Q.

Definition interestAmount (price dp rate : Decimal) (tenorMonths : Z) : Q :=
  (principal price dp * (value rate / inject_Z 100) * inject_Z tenorMonths)%Q.

Definition totalLoan (price dp rate : Decimal) (tenorMonths : Z) : Q :=
  (principal price dp + interestAmount price dp rate tenorMonths)%Q.

Definition monthlyInstallment (price dp rate : Decimal) (tenorMonths : Z) : Z :=
  Qceiling (totalLoan price dp rate tenorMonths / inject_Z tenorMonths).

(** No intermediate result of the computation needs more digits than
    the configured precision keeps. *)
Definition within_precision (price dp rate : Decimal) (tenorMonths : Z) : Prop :=
  fits precision (principal price dp) /\
  fits precision (principal price dp * value rate) /\
  fits precision (interestAmount price dp rate tenorMonths) /\
  amount19 (totalLoan price dp rate tenorMonths).

(** The due date in the words of the schedule rule: the start date moved
    [i] calendar months ahead, on day [dueDateDay], at midnight. *)
Definition due_date (start : JsDate.Date) (dueDateDay i : Z) : JsDate.Date :=
  let m := JsDate.month start + i in
  JsDate.mkDate (JsDate.year start + m / 12) (m mod 12) dueDateDay 0 0 0 0.

End Exact.

(* ===================================================================== *)
(** ** Vocabulary for the store *)
(* ===================================================================== *)

Module Ledger.

Import Dec Store Credit.

(** Rows are stored under their own primary key. *)
Definition keyed_by_id (db : Db) : bool :=
  forallb (fun kr => installment_id (snd kr) =? fst kr)
          (map_to_list (installments db)).

(** Every installment of contract [cid] in [db] is PAID. *)
Definition contract_settled (db : Db) (cid : Z) : bool :=
  forallb (fun i => InstallmentStatus_eqb (Store.status i) PAID)
          (installments_of db cid).

(** The rows the schedule loop inserts for the months [l], the first one
    under id [next]. *)
Fixpoint rows_from (cid : Z) (start : JsDate.Date) (day : Z) (amount : Decimal)
    (next : Z) (l : list Z) : list Installment :=
  match l with
  | [] => []
  | i :: l' =>
      mkInstallment next cid i (due_date_of start day i) (stored4 amount)
        (of_Z 0) (of_Z 0) (of_Z 0) UNPAID None
      :: rows_from cid start day amount (next + 1) l'
  end.

Definition insert_rows (rows : list Installment) (m : gmap Z Installment)
  : gmap Z Installment :=
  fold_left (fun m r => <[installment_id r := r]> m) rows m.

(** One request: the two clock readings and the input. *)
Definition Call : Type := JsDate.Date * JsDate.Date * CreateTransactionInput.

(** The store after a request: the unit of work commits or rolls back. *)
Definition run_create (db : Db) (c : Call) : Db :=
  let '(now, now', input) := c in
  match createTransaction now now' db input with
  | inr (db', _) => db'
  | inl _ => db
  end.

Definition run_all (db : Db) (calls : list Call) : Db :=
  fold_left run_create calls db.

(** Number of requests of [calls], run in order from [db], that succeed
    on product [pid]. *)
Fixpoint successes_on (pid : Z) (db : Db) (calls : list Call) : Z :=
  match calls with
  | [] => 0
  | c :: rest =>
      let '(now, now', input) := c in
      match createTransaction now now' db input with
      | inr (db', _) =>
          (if productId input =? pid then 1 else 0) + successes_on pid db' rest
      | inl _ => successes_on pid db rest
      end
  end.

End Ledger.

(* ===================================================================== *)
(** ** Reading responses *)
(* ===================================================================== *)

Module Reply.

Import Store Http.

Definition status_of {A : Type} (r : option (Db * Response A)) : option Z :=
  option_map (fun x => status (snd x)) r.

Definition error_of {A : Type} (r : option (Db * Response A)) : option string :=
  match r with
  | Some (_, resp) => error resp
  | None => None
  end.

End Reply.

(* ===================================================================== *)
(** ** Sample data *)
(* ===================================================================== *)

Module Sample.

Import Dec Store Credit.
Local Open Scope string_scope.
Local Open Scope Z_scope.

(** 2 % per month flat, 10 % minimum down payment. *)
Definition reguler : LoanScheme :=
  mkLoanScheme 1 "Reguler" (mkDec 2 0) (mkDec 10 0) [3; 6; 9; 12] (mkDec 5 (-1)) true.

(** 2.5 % per month flat, no minimum down payment. *)
Definition ringan : LoanScheme :=
  mkLoanScheme 2 "Ringan" (mkDec 25 (-1)) (mkDec 0 0) [3; 6] (mkDec 5 (-1)) true.

(** A scheme that has been switched off. *)
Definition lama : LoanScheme :=
  mkLoanScheme 3 "Lama" (mkDec 2 0) (mkDec 0 0) [3; 6] (mkDec 5 (-1)) false.

Definition kulkas : Product := mkProduct 7 "EL-001" "Kulkas" 2 true.
Definition sofa : Product := mkProduct 8 "FU-001" "Sofa" 0 true.
Definition lemari : Product := mkProduct 9 "FU-002" "Lemari" 4 false.

Definition budi : Customer := mkCustomer 5 "3171000000000001" "Budi" "081234567890".

Definition db : Db :=
  mkDb (<[1 := reguler]> (<[2 := ringan]> (<[3 := lama]> ∅)))
       (<[7 := kulkas]> (<[8 := sofa]> (<[9 := lemari]> ∅)))
       (<[5 := budi]> ∅)
       ∅ ∅ ∅ 1 1 1.

(** 31 January 2025, 10:30 local time. *)
Definition jan31 : JsDate.Date := JsDate.mkDate 2025 0 31 10 30 0 0.

(** 15 January 2025, 10:30 local time. *)
Definition jan15 : JsDate.Date := JsDate.mkDate 2025 0 15 10 30 0 0.

(** A sale of the refrigerator on scheme 1 over 3 months, due on the 5th. *)
Definition sale : CreateTransactionInput :=
  mkCreateTransactionInput 7 5 (of_Z 4500000) (of_Z 500000) 1 3 5.

(** The store after that sale on 15 January: one transaction, one
    contract, installments 1, 2 and 3. *)
Definition db_sold : Db := Ledger.run_create db (jan15, jan15, sale).

(** The store after that sale once installments 1 and 2 have been paid,
    on 31 January. *)
Definition db_two_paid : Db :=
  fst (Payment.payInstallment jan31
         (fst (Payment.payInstallment jan31 db_sold (Some 1))) (Some 2)).

Definition num (n : Z) : Http.JsValue := Http.JNum (of_Z n).

(** The same sale as a request body, on the switched-off scheme 3. *)
Definition body_inactive_scheme : Http.CreateBody :=
  Http.mkCreateBody (num 7) (num 5) (num 4500000) (num 500000) (num 3) (num 3) (num 5).

(** ... on the inactive product 9. *)
Definition body_inactive_product : Http.CreateBody :=
  Http.mkCreateBody (num 9) (num 5) (num 4500000) (num 500000) (num 1) (num 3) (num 5).

(** ... on the sold-out product 8. *)
Definition body_out_of_stock : Http.CreateBody :=
  Http.mkCreateBody (num 8) (num 5) (num 4500000) (num 500000) (num 1) (num 3) (num 5).

(** ... on a scheme id that does not exist. *)
Definition body_unknown_scheme : Http.CreateBody :=
  Http.mkCreateBody (num 7) (num 5) (num 4500000) (num 500000) (num 4) (num 3) (num 5).

(** ... with a tenor the scheme does not offer. *)
Definition body_bad_tenor : Http.CreateBody :=
  Http.mkCreateBody (num 7) (num 5) (num 4500000) (num 500000) (num 1) (num 7) (num 5).

(** A sale without down payment on scheme 2, which asks for none. *)
Definition body_zero_dp : Http.CreateBody :=
  Http.mkCreateBody (num 7) (num 5) (num 1000000) (num 0) (num 2) (num 3) (num 5).

(** The matching simulation request. *)
Definition simulate_zero_dp : Http.SimulateBody :=
  Http.mkSimulateBody (num 1000000) (num 0) (num 2) (num 3).

End Sample.

(* ===================================================================== *)
(** ** ProductController: restocking *)
(* ===================================================================== *)

Module Inventory.

Import Dec Store Text Credit Http.
Local Open Scope string_scope.
Local Open Scope Z_scope.

Definition increment_stock (n : Z) (p : Product) : Product :=
  mkProduct (product_id p) (sku p) (product_name p) (stock_qty p + n)
    (product_is_active p).

(** Errors raised by Prisma inside [restockProduct] reach the client
    with status 400 and the library's message, whose text the handler
    does not fix. *)
Definition msg_not_an_integer : string :=
  "Invalid value provided. Expected Int, provided Float.".
Definition msg_update_not_found : string := "Record to update not found.".

(** PATCH /api/products/:id/stock.  [id] is the outcome of [parseInt]
    ([None] for [NaN]), [quantity_to_add] the field of the request body.
    [stock_qty] is an integer column: a positive number with a
    fractional part passes the handler's test and is refused by the
    update.  The bounds of the column are not modelled. *)
Definition restockProduct (db : Db) (id : option Z) (quantity_to_add : JsValue)
  : Db * Response Product :=
  match id with
  | None => (db, fail 400 "Invalid product ID")
  | Some productId =>
    if negb (is_number quantity_to_add) || lte (num quantity_to_add) (of_Z 0) then
      (db, fail 400 "Quantity must be a positive number")
    else
      match to_Z (num quantity_to_add) with
      | None => (db, fail 400 msg_not_an_integer)
      | Some n =>
        match products db !! productId with
        | None => (db, fail 400 msg_update_not_found)
        | Some product =>
          (with_products db (alter (increment_stock n) productId (products db)),
           mkResponse 200 true None (Some (increment_stock n product)))
        end
      end
  end.

End Inventory.

(* ===================================================================== *)
(** ** PaymentController: the active contracts *)
(* ===================================================================== *)

Module Contracts.

Import Dec Store.
Local Open Scope Z_scope.

Definition TransactionStatus_eqb (a b : TransactionStatus) : bool :=
  match a, b with
  | PENDING, PENDING | ACTIVE, ACTIVE | TX_PAID, TX_PAID
  | VOID, VOID | BAD_DEBT, BAD_DEBT => true
  | _, _ => false
  end.

(** A number that orders broken-down dates with fields in their ranges
    as the instants they denote. *)
Definition time_key (t : JsDate.Date) : Z :=
  ((((((JsDate.year t * 12 + JsDate.month t) * 31 + (JsDate.day t - 1)) * 24
      + JsDate.hours t) * 60 + JsDate.minutes t) * 60 + JsDate.seconds t) * 1000
   + JsDate.millis t).

(** A contract with its [include]s. *)
Record ActiveContract : Type := mkActiveContract {
  ac_contract : CreditContract;
  ac_transaction : Transaction;
  ac_product : option Product;
  ac_installments : list Installment
}.

(** [orderBy: { installment_nth: 'asc' }] *)
Definition by_nth (a b : Installment) : Prop :=
  installment_nth a <= installment_nth b.

(** [orderBy: { start_date: 'desc' }] *)
Definition by_start_desc (a b : ActiveContract) : Prop :=
  time_key (start_date (ac_contract b)) <= time_key (start_date (ac_contract a)).

#[export] Instance by_nth_dec : RelDecision by_nth.
Proof. intros a b. unfold by_nth. apply Z_le_dec. Defined.

#[export] Instance by_start_desc_dec : RelDecision by_start_desc.
Proof. intros a b. unfold by_start_desc. apply Z_le_dec. Defined.

(** One contract row under the [where] and [include] of the query:
    kept when its transaction is ACTIVE. *)
Definition included (db : Db) (c : CreditContract) : option ActiveContract :=
  match transactions db !! contract_transaction_id c with
  | Some t =>
      if TransactionStatus_eqb (tx_status t) ACTIVE
      then Some (mkActiveContract c t (products db !! tx_productId t)
                   (merge_sort by_nth (installments_of db (contract_id c))))
      else None
  | None => None
  end.

(** GET /api/contracts/active: the [data] of the 200 response.  Rows
    with equal [start_date] come in an order the query leaves open. *)
Definition getActiveContracts (db : Db) : list ActiveContract :=
  merge_sort by_start_desc
    (omap (included db) (map snd (map_to_list (contracts db)))).

End Contracts.

(* ===================================================================== *)
(** ** TransactionController: the schemes on offer *)
(* ===================================================================== *)

Module Listing.

Import Dec Store.

(** [orderBy: { name: 'asc' }] under the order [name_le] in which the
    database compares names (its collation). *)
Definition by_name (name_le : string -> string -> bool) (a b : LoanScheme) : Prop :=
  name_le (scheme_name a) (scheme_name b) = true.

#[export] Instance by_name_dec name_le : RelDecision (by_name name_le).
Proof. intros a b. unfold by_name. apply bool_eq_dec. Defined.

(** GET /api/schemes: the [data] of the 200 response. *)
Definition getSchemes (name_le : string -> string -> bool) (db : Db)
  : list LoanScheme :=
  merge_sort (by_name name_le)
    (filter (fun s => scheme_is_active s = true)
       (map snd (map_to_list (schemes db)))).

End Listing.

(* ===================================================================== *)
(** ** CustomerController: registering a customer *)
(* ===================================================================== *)

Module Crm.

Import Http.
Local Open Scope string_scope.
Local Open Scope Z_scope.

(** A row of the customers table with all its columns (the credit
    engine reads [id], [nik], [name] and [phone] of it). *)
Record CustomerRow : Type := mkCustomerRow {
  cust_id : Z;
  cust_nik : string;
  cust_name : string;
  cust_phone : string;
  cust_address : string;
  cust_created_at : JsDate.Date
}.

Record Table : Type := mkTable {
  rows : gmap Z CustomerRow;
  next_customer_id : Z
}.

(** [req.body], a JSON object, at the keys the schema reads. *)
Record CustomerBody : Type := mkCustomerBody {
  body_nik : JsValue;
  body_name : JsValue;
  body_phone : JsValue;
  body_address : JsValue
}.

(** Entries of [ZodError.issues].  Where the schema gives no message the
    issue carries zod's own, which is left out here. *)
Inductive IssueCode : Type := invalid_type | too_small | too_big.

Record Issue : Type := mkIssue {
  code : IssueCode;
  path : string;
  issue_message : option string
}.

(** [.min(n, msg)] and [.max(n, msg)] of a string schema.  [length]
    counts the characters of the model's strings as JavaScript counts
    UTF-16 code units; the two agree on text without characters beyond
    code 255. *)
Definition min_length (n : nat) (msg : string) (path s : string) : list Issue :=
  if (String.length s <? n)%nat then [mkIssue too_small path (Some msg)] else [].

Definition max_length (n : nat) (msg : string) (path s : string) : list Issue :=
  if (n <? String.length s)%nat then [mkIssue too_big path (Some msg)] else [].

(** [z.string()] with its checks, at key [path]: every check is run. *)
Definition z_string (path : string) (checks : list (string -> string -> list Issue))
    (v : JsValue) : list Issue + string :=
  match v with
  | JStr s =>
      match concat (map (fun check => check path s) checks) with
      | [] => inr s
      | issues => inl issues
      end
  | _ => inl [mkIssue invalid_type path None]
  end.

Definition issues_of {A : Type} (r : list Issue + A) : list Issue :=
  match r with inl issues => issues | inr _ => [] end.

Record Validated : Type := mkValidated {
  v_nik : string;
  v_name : string;
  v_phone : string;
  v_address : string
}.

(** [customerSchema.parse(body)]: the validated data, or the issues of
    all keys in the order of the schema. *)
Definition customerSchema (body : CustomerBody) : list Issue + Validated :=
  let nik := z_string "nik" [min_length 16 "NIK harus 16 digit";
                             max_length 16 "NIK harus 16 digit"] (body_nik body) in
  let name := z_string "name" [min_length 2 "Nama minimal 2 karakter"]
                (body_name body) in
  let phone := z_string "phone" [min_length 10 "Telepon minimal 10 digit"]
                 (body_phone body) in
  let address := z_string "address" [min_length 5 "Alamat minimal 5 karakter"]
                   (body_address body) in
  match nik, name, phone, address with
  | inr a, inr b, inr c, inr d => inr (mkValidated a b c d)
  | _, _, _, _ =>
      inl (issues_of nik ++ issues_of name ++ issues_of phone ++ issues_of address)%list
  end.

(** [prisma.customer.findUnique({ where: { column: value } })] *)
Definition findUnique (column : CustomerRow -> string) (value : string)
    (t : Table) : option CustomerRow :=
  find (fun r => String.eqb (column r) value) (map snd (map_to_list (rows t))).

Inductive ErrorBody : Type :=
| Message (text : string)
| Issues (issues : list Issue).

Record Response : Type := mkResponse {
  status : Z;
  success : bool;
  error : option ErrorBody;
  data : option CustomerRow
}.

(** The calls the handler makes on the Prisma client, in order. *)
Inductive Call : Type := FindByNik | FindByPhone | Insert.

(** A call on the client can be rejected for reasons outside the handler
    (the connection is lost, the database refuses the statement).
    [faults c] is the message of the error that call [c] is rejected
    with during a request, [None] when the call goes through. *)
Definition Faults : Type := Call -> option string.

Definition no_fault : Faults := fun _ => None.

(** The [catch] block on an error that is not a [ZodError]. *)
Definition internal_error (t : Table) (message : string) : Table * Response :=
  (t, mkResponse 500 false (Some (Message message)) None).

(** POST /api/customers; [now] is the clock reading the insert stores in
    [created_at], [faults] the calls that are rejected during the
    request. *)
Definition create (now : JsDate.Date) (faults : Faults) (t : Table)
    (body : CustomerBody) : Table * Response :=
  match customerSchema body with
  | inl issues => (t, mkResponse 400 false (Some (Issues issues)) None)
  | inr validatedData =>
    match faults FindByNik with
    | Some message => internal_error t message
    | None =>
      match findUnique cust_nik (v_nik validatedData) t with
      | Some _ =>
          (t, mkResponse 409 false (Some (Message "NIK sudah terdaftar")) None)
      | None =>
        match faults FindByPhone with
        | Some message => internal_error t message
        | None =>
          match findUnique cust_phone (v_phone validatedData) t with
          | Some _ =>
              (t, mkResponse 409 false
                    (Some (Message "Nomor telepon sudah terdaftar")) None)
          | None =>
            match faults Insert with
            | Some message => internal_error t message
            | None =>
                let customer :=
                  mkCustomerRow (next_customer_id t) (v_nik validatedData)
                    (v_name validatedData) (v_phone validatedData)
                    (v_address validatedData) now in
                (mkTable (<[cust_id customer := customer]> (rows t))
                   (next_customer_id t + 1),
                 mkResponse 201 true None (Some customer))
            end
          end
        end
      end
    end
  end.

(** Rows sit under their ids, below the id sequence, and no two rows
    share a NIK or a phone number. *)
Definition consistent (t : Table) : Prop :=
  (forall k r, rows t !! k = Some r -> cust_id r = k /\ k < next_customer_id t) /\
  (forall k1 k2 r1 r2, rows t !! k1 = Some r1 -> rows t !! k2 = Some r2 ->
                       cust_nik r1 = cust_nik r2 -> k1 = k2) /\
  (forall k1 k2 r1 r2, rows t !! k1 = Some r1 -> rows t !! k2 = Some r2 ->
                       cust_phone r1 = cust_phone r2 -> k1 = k2).

(** The same as a test on the rows of a given table. *)
Definition consistentb (t : Table) : bool :=
  let stored := map_to_list (rows t) in
  forallb (fun kr => (cust_id (snd kr) =? fst kr) && (fst kr <? next_customer_id t))
          stored &&
  forallb (fun a =>
             forallb (fun b =>
                        implb (String.eqb (cust_nik (snd a)) (cust_nik (snd b)) ||
                               String.eqb (cust_phone (snd a)) (cust_phone (snd b)))
                              (fst a =? fst b))
                     stored)
          stored.

(** The body passes the schema. *)
Definition valid (body : CustomerBody) : Prop :=
  exists nik name phone address,
    body = mkCustomerBody (JStr nik) (JStr name) (JStr phone) (JStr address) /\
    String.length nik = 16%nat /\ (2 <= String.length name)%nat /\
    (10 <= String.length phone)%nat /\ (5 <= String.length address)%nat.

End Crm.

(* ===================================================================== *)
(** ** Vocabulary: calendar months, payment runs, counters *)
(* ===================================================================== *)

Module Calendar.

Import JsDate.

(** Months since year 0. *)
Definition month_index (t : Date) : Z := 12 * year t + month t.

(** [1] when day [d] does not exist [i] months after month [m] of year
    [y], else [0]. *)
Definition overflow (y m d i : Z) : Z :=
  if days_in_month (y + (m + i) / 12) ((m + i) mod 12) <? d then 1 else 0.

End Calendar.

Module Lifecycle.

Import Dec Store Credit Payment.

(** The row a payment at [now] turns [r] into. *)
Definition paid_now (now : JsDate.Date) (r : Installment) : Installment :=
  mark_paid now (amount_due r) r.

(** The store after one payment request. *)
Definition pay (now : JsDate.Date) (db : Db) (id : Z) : Db :=
  fst (payInstallment now db (Some id)).

(** The store after the payment requests [requests], in order.  A
    request is the reading of the clock it makes and the id of the
    installment it pays. *)
Definition pay_all (db : Db) (requests : list (JsDate.Date * Z)) : Db :=
  fold_left (fun db request => pay (fst request) db (snd request)) requests db.

(** The installments the requests pay. *)
Definition paid_ids (requests : list (JsDate.Date * Z)) : list Z :=
  map snd requests.

(** Ids are handed out above every stored row, and every installment
    belongs to a contract created before. *)
Definition counters_fresh (db : Db) : Prop :=
  (forall k, next_transaction_id db <= k -> transactions db !! k = None) /\
  (forall k, next_contract_id db <= k -> contracts db !! k = None) /\
  (forall k, next_installment_id db <= k -> installments db !! k = None) /\
  (forall k r, installments db !! k = Some r ->
               inst_contract_id r < next_contract_id db).

(** Rows sit under their own ids and the id sequences are fresh. *)
Definition well_formed (db : Db) : Prop :=
  Ledger.keyed_by_id db = true /\ counters_fresh db.

End Lifecycle.

Module Schedules.

Import Dec Store Credit Lifecycle.
Local Open Scope Z_scope.

(** Every tenor a scheme offers is a positive number of months. *)
Definition positive_tenors (db : Db) : bool :=
  forallb (fun ks => forallb (Z.ltb 0) (tenor_options (snd ks)))
          (map_to_list (schemes db)).

(** The installments of contract [c] are numbered 1 to [tenor_months c],
    each number once, and each asks for the contract's monthly
    installment. *)
Definition complete_schedule (db : Db) (c : CreditContract) : Prop :=
  0 < tenor_months c /\
  (forall k r, installments db !! k = Some r ->
               inst_contract_id r = contract_id c ->
               1 <= installment_nth r <= tenor_months c /\
               amount_due r = monthly_installment c) /\
  (forall n, 1 <= n <= tenor_months c ->
             exists k r, installments db !! k = Some r /\
                         inst_contract_id r = contract_id c /\
                         installment_nth r = n) /\
  (forall k1 k2 r1 r2,
     installments db !! k1 = Some r1 -> installments db !! k2 = Some r2 ->
     inst_contract_id r1 = contract_id c -> inst_contract_id r2 = contract_id c ->
     installment_nth r1 = installment_nth r2 -> k1 = k2).

(** The transaction of contract [c] is ACTIVE while an installment of
    [c] is not PAID, and PAID once all of them are. *)
Definition status_follows_payments (db : Db) (c : CreditContract) : Prop :=
  exists t,
    transactions db !! contract_transaction_id c = Some t /\
    (tx_status t = ACTIVE /\
     (exists k r, installments db !! k = Some r /\
                  inst_contract_id r = contract_id c /\ Store.status r <> PAID)
     \/
     tx_status t = TX_PAID /\
     (forall k r, installments db !! k = Some r ->
                  inst_contract_id r = contract_id c -> Store.status r = PAID)).

(** A ledger as sales and payments leave it: well formed, with schemes
    of positive tenors, every contract under its id with a transaction
    of its own, a complete schedule and a status that follows the
    payments. *)
Definition ledger_sound (db : Db) : Prop :=
  well_formed db /\
  positive_tenors db = true /\
  (forall k c, contracts db !! k = Some c ->
     contract_id c = k /\
     contract_transaction_id c < next_transaction_id db /\
     complete_schedule db c /\
     status_follows_payments db c) /\
  (forall k1 k2 c1 c2,
     contracts db !! k1 = Some c1 -> contracts db !! k2 = Some c2 ->
     contract_transaction_id c1 = contract_transaction_id c2 -> k1 = k2).

End Schedules.

Module Forms.

Import Dec Store Credit Http.

(** The request body that carries the input of a sale. *)
Definition create_body (input : CreateTransactionInput) : CreateBody :=
  mkCreateBody (JNum (of_Z (productId input))) (JNum (of_Z (customerId input)))
    (JNum (c_price input)) (JNum (c_dp input))
    (JNum (of_Z (c_schemeId input))) (JNum (of_Z (c_tenorMonths input)))
    (JNum (of_Z (dueDateDay input))).

(** The handler's own checks on the amounts: price > 0, dp >= 0,
    dp < price. *)
Definition amounts_ok (input : CreateTransactionInput) : bool :=
  negb (lte (c_price input) (of_Z 0)) && negb (lt (c_dp input) (of_Z 0)) &&
  negb (gte (c_dp input) (c_price input)).

End Forms.

Module Requests.

Import Dec Store Credit Payment Http Inventory.

(** The requests that write to the store. *)
Inductive Request : Type :=
| Sale (now now' : JsDate.Date) (input : CreateTransactionInput)
| Pay (now : JsDate.Date) (id : option Z)
| Restock (id : option Z) (quantity_to_add : JsValue).

(** The store after a request. *)
Definition run (db : Db) (r : Request) : Db :=
  match r with
  | Sale now now' input =>
      match createTransaction now now' db input with
      | inr (db', _) => db'
      | inl _ => db
      end
  | Pay now id => fst (payInstallment now db id)
  | Restock id q => fst (restockProduct db id q)
  end.

Definition run_requests (db : Db) (rs : list Request) : Db :=
  fold_left run rs db.




End Requests.

(* ===================================================================== *)
(** * Properties *)
(* ===================================================================== *)

(** ** Library models on known values *)

Section Checks.
Import Dec Text JsDate.
Local Open Scope string_scope.
Local Open Scope Z_scope.

Example div_one_third :
  div (of_Z 1) (of_Z 3) = mkDec 33333333333333333333 (-20).
Proof. vm_compute. reflexivity. Qed.

Example div_two_thirds_rounds_up :
  div (of_Z 2) (of_Z 3) = mkDec 66666666666666666667 (-20).
Proof. vm_compute. reflexivity. Qed.

Example div_exact_quotient : eq (div (of_Z 10) (of_Z 4)) (mkDec 25 (-1)) = true.
Proof. vm_compute. reflexivity. Qed.

Example div_negative : eq (div (of_Z (-1)) (of_Z 8)) (mkDec (-125) (-3)) = true.
Proof. vm_compute. reflexivity. Qed.

Example minus_rounds_21_digits :
  eq (minus (mkDec 1 21) (of_Z 1)) (mkDec 1 21) = true.
Proof. vm_compute. reflexivity. Qed.

Example ceil_of_fraction :
  toDecimalPlaces 0 ROUND_CEIL (mkDec 7466666667 (-4)) = mkDec 746667 0.
Proof. vm_compute. reflexivity. Qed.

Example ceil_of_negative :
  toDecimalPlaces 0 ROUND_CEIL (mkDec (-15) (-1)) = mkDec (-1) 0.
Proof. vm_compute. reflexivity. Qed.

Example half_up_away_from_zero :
  toDecimalPlaces 2 ROUND_HALF_UP (mkDec 24975 (-3)) = mkDec 2498 (-2) /\
  toDecimalPlaces 2 ROUND_HALF_UP (mkDec (-24975) (-3)) = mkDec (-2498) (-2).
Proof. vm_compute. split; reflexivity. Qed.

Example toFixed_samples :
  toFixed 2 (of_Z 4500000) = "4500000.00" /\
  toFixed 2 (mkDec 24975 (-3)) = "24.98" /\
  toFixed 4 (of_Z 746667) = "746667.0000" /\
  toFixed 0 (mkDec 4333 (-1)) = "433" /\
  toFixed 0 (mkDec (-4) (-1)) = "-0".
Proof. vm_compute. repeat split. Qed.

Example toString_samples :
  toString (mkDec 25 (-1)) = "2.5" /\
  toString (mkDec 1000 (-2)) = "10" /\
  toString (mkDec 5 (-3)) = "0.005" /\
  toString (mkDec 1 21) = "1e+21" /\
  toString (mkDec 15 (-8)) = "1.5e-7" /\
  toString (mkDec (-12345) (-1)) = "-1234.5".
Proof. vm_compute. repeat split. Qed.

Example includes_samples :
  includes "not found" "Loan scheme with ID 4 not found" = true /\
  includes "tidak aktif" "Loan scheme is not active" = false /\
  includes "" "" = true /\
  includes "ab" "a" = false.
Proof. vm_compute. repeat split. Qed.

(** 31 January moved to February lands in March; day 0 is the last day
    of the previous month. *)
Example setMonth_overflow :
  setMonth 1 (mkDate 2024 0 31 1 2 3 4) = mkDate 2024 2 2 1 2 3 4 /\
  setMonth 13 (mkDate 2025 0 31 1 2 3 4) = mkDate 2026 2 3 1 2 3 4 /\
  setMonth (-1) (mkDate 2025 0 31 1 2 3 4) = mkDate 2024 11 31 1 2 3 4 /\
  setDate 0 (mkDate 2024 2 15 0 0 0 0) = mkDate 2024 1 29 0 0 0 0.
Proof. vm_compute. repeat split. Qed.

End Checks.

Section DecimalFacts.

Import Dec Exact.

Lemma pow10_pos k : 0 <= k -> 0 < 10 ^ k.
Proof. intros. apply Z.pow_pos_nonneg; lia. Qed.

Lemma pow10_add a b : 0 <= a -> 0 <= b -> 10 ^ (a + b) = 10 ^ a * 10 ^ b.
Proof. intros. apply Z.pow_add_r; assumption. Qed.

Lemma pow10_succ k : 0 <= k -> 10 ^ (k + 1) = 10 * 10 ^ k.
Proof. intros. rewrite pow10_add by lia. change (10 ^ 1) with 10. lia. Qed.

Lemma pow10_lt_inv a b : 0 <= a -> 0 <= b -> 10 ^ a < 10 ^ b -> a < b.
Proof. intros Ha Hb H. apply (Z.pow_lt_mono_r_iff 10); lia. Qed.

Lemma pow10_le a b : 0 <= a <= b -> 10 ^ a <= 10 ^ b.
Proof. intros. apply Z.pow_le_mono_r; lia. Qed.

Lemma ndigits_aux_0 fuel : ndigits_aux fuel 0 = 0.
Proof. destruct fuel; reflexivity. Qed.

Lemma ndigits_aux_spec fuel : forall n,
  0 < n < 2 ^ Z.of_nat fuel ->
  1 <= ndigits_aux fuel n /\
  10 ^ (ndigits_aux fuel n - 1) <= n < 10 ^ ndigits_aux fuel n.
Proof.
  induction fuel as [|f IH]; intros n Hn.
  - simpl in Hn. lia.
  - cbn [ndigits_aux]. destruct (Z.leb_spec n 0) as [|_]; [lia|].
    destruct (Z.lt_ge_cases n 10) as [Hs|Hl].
    + rewrite Z.div_small by lia. rewrite ndigits_aux_0.
      change (10 ^ (1 + 0 - 1)) with 1. change (10 ^ (1 + 0)) with 10. lia.
    + assert (Hq : 0 < n / 10 < 2 ^ Z.of_nat f).
      { split.
        - apply Z.div_str_pos. lia.
        - rewrite Nat2Z.inj_succ, Z.pow_succ_r in Hn by lia.
          apply Z.div_lt_upper_bound; lia. }
      destruct (IH _ Hq) as [H1 [H2 H3]].
      set (d := ndigits_aux f (n / 10)) in *.
      replace (1 + d - 1) with ((d - 1) + 1) by lia.
      replace (1 + d) with (d + 1) by lia.
      rewrite !pow10_succ by lia.
      pose proof (Z.div_mod n 10 ltac:(lia)).
      pose proof (Z.mod_pos_bound n 10 ltac:(lia)). lia.
Qed.

Lemma ndigits_0 : ndigits 0 = 0.
Proof. reflexivity. Qed.

Lemma ndigits_abs n : ndigits (Z.abs n) = ndigits n.
Proof. unfold ndigits. rewrite Z.abs_idemp. reflexivity. Qed.

Lemma ndigits_spec n :
  n <> 0 ->
  1 <= ndigits n /\ 10 ^ (ndigits n - 1) <= Z.abs n < 10 ^ ndigits n.
Proof.
  intros Hn. unfold ndigits. apply ndigits_aux_spec.
  split; [lia|].
  rewrite Nat2Z.inj_succ, Z2Nat.id by apply Z.log2_nonneg.
  apply Z.log2_spec. lia.
Qed.

Lemma ndigits_nonneg n : 0 <= ndigits n.
Proof.
  destruct (Z.eq_dec n 0) as [->|Hn]; [rewrite ndigits_0; lia|].
  pose proof (ndigits_spec n Hn). lia.
Qed.

(** A number below [10^k] has at most [k] digits. *)
Lemma ndigits_le n k : 0 <= k -> Z.abs n < 10 ^ k -> ndigits n <= k.
Proof.
  intros Hk Hn. destruct (Z.eq_dec n 0) as [->|Hz]; [rewrite ndigits_0; lia|].
  destruct (ndigits_spec n Hz) as [H1 [H2 _]].
  assert (10 ^ (ndigits n - 1) < 10 ^ k) by lia.
  apply pow10_lt_inv in H; lia.
Qed.

(** Half-up rounding of an exact multiple of [10^k]. *)
Lemma round_half_up_multiple m k :
  0 < k -> round_div ROUND_HALF_UP (m * 10 ^ k) k = m.
Proof.
  intros Hk. unfold round_div.
  pose proof (pow10_pos k ltac:(lia)) as Hp.
  rewrite Z.abs_mul, (Z.abs_eq (10 ^ k)) by lia.
  replace (2 * (Z.abs m * 10 ^ k) + 10 ^ k)
    with (10 ^ k + Z.abs m * (2 * 10 ^ k)) by lia.
  rewrite Z.div_add by lia.
  rewrite Z.div_small by lia.
  rewrite Z.sgn_mul, (Z.sgn_pos (10 ^ k)) by lia.
  rewrite Z.mul_1_r. destruct m; simpl; lia.
Qed.


(** *** Values *)

Lemma ten_neq_0 : ~ (inject_Z 10 == 0)%Q.
Proof. discriminate. Qed.

Lemma value_mkDec c e : value (mkDec c e) = (inject_Z c * inject_Z 10 ^ e)%Q.
Proof. reflexivity. Qed.

Lemma value_shift c e k :
  0 <= k -> (value (mkDec (c * 10 ^ k) (e - k)) == value (mkDec c e))%Q.
Proof.
  intros Hk. rewrite !value_mkDec, inject_Z_mult, Zpower_Qpower by exact Hk.
  rewrite <- Qmult_assoc, <- Qpower_plus by exact ten_neq_0.
  replace (k + (e - k)) with e by lia. reflexivity.
Qed.

Lemma value_same_exp c c' e :
  (value (mkDec c e) == value (mkDec c' e))%Q <-> c = c'.
Proof.
  rewrite !value_mkDec. rewrite Qmult_inj_r.
  - apply inject_Z_injective.
  - apply Qpower_not_0. exact ten_neq_0.
Qed.

Lemma value_plus_same c c' e :
  (value (mkDec (c + c') e) == value (mkDec c e) + value (mkDec c' e))%Q.
Proof. rewrite !value_mkDec, inject_Z_plus. ring. Qed.

Lemma value_minus_same c c' e :
  (value (mkDec (c - c') e) == value (mkDec c e) - value (mkDec c' e))%Q.
Proof.
  rewrite !value_mkDec. unfold Z.sub. rewrite inject_Z_plus, inject_Z_opp. ring.
Qed.

Lemma value_mul_exact c c' e e' :
  (value (mkDec (c * c') (e + e')) == value (mkDec c e) * value (mkDec c' e'))%Q.
Proof.
  rewrite !value_mkDec, inject_Z_mult, Qpower_plus by exact ten_neq_0. ring.
Qed.

Lemma value_of_Z n : (value (of_Z n) == inject_Z n)%Q.
Proof. unfold of_Z. rewrite value_mkDec. simpl. ring. Qed.

Lemma value_eta d : value d = value (mkDec (coef d) (dexp d)).
Proof. destruct d; reflexivity. Qed.

(** Equal values have equal coefficients at the common exponent. *)
Lemma value_eq_aligned c e c' e' :
  (value (mkDec c e) == value (mkDec c' e'))%Q ->
  c * 10 ^ (e - Z.min e e') = c' * 10 ^ (e' - Z.min e e').
Proof.
  intros H. set (m := Z.min e e').
  apply (value_same_exp _ _ m).
  rewrite <- (value_shift c e (e - m)) in H by lia.
  rewrite <- (value_shift c' e' (e' - m)) in H by lia.
  replace (e - (e - m)) with m in H by lia.
  replace (e' - (e' - m)) with m in H by lia. exact H.
Qed.

Lemma value_align a b x y e :
  align a b = (x, y, e) ->
  (value a == value (mkDec x e))%Q /\ (value b == value (mkDec y e))%Q.
Proof.
  unfold align. intros H. inversion H; subst; clear H.
  set (m := Z.min (dexp a) (dexp b)). split.
  - rewrite (value_eta a). symmetry.
    rewrite <- (value_shift (coef a) (dexp a) (dexp a - m)) by lia.
    replace (dexp a - (dexp a - m)) with m by lia. reflexivity.
  - rewrite (value_eta b). symmetry.
    rewrite <- (value_shift (coef b) (dexp b) (dexp b - m)) by lia.
    replace (dexp b - (dexp b - m)) with m by lia. reflexivity.
Qed.


(** Rounding to [precision] digits keeps a value that fits. *)
Lemma round_sd_exact d :
  fits precision (value d) -> (value (round_sd d) == value d)%Q.
Proof.
  intros (c0 & e0 & Hc0 & Hv). destruct d as [c e].
  unfold round_sd, drop_digits. cbn [coef dexp].
  destruct (Z.leb_spec (ndigits c - precision) 0) as [|Hk]; [reflexivity|].
  set (k := ndigits c - precision) in *.
  assert (Hc : c <> 0).
  { intros ->. unfold k, precision in Hk. rewrite ndigits_0 in Hk. lia. }
  destruct (ndigits_spec c Hc) as [_ [Hlo _]].
  apply value_eq_aligned in Hv.
  unfold precision in *.
  assert (Hdiv : exists m, c = m * 10 ^ k).
  { destruct (Z.le_ge_cases e e0) as [Hle|Hge].
    - rewrite Z.min_l in Hv by lia. rewrite Z.sub_diag, Z.mul_1_r in Hv.
      assert (Hj : k <= e0 - e).
      { destruct (Z.lt_ge_cases (e0 - e) k) as [Hlt|]; [|lia]. exfalso.
        assert (10 ^ (e0 - e) <= 10 ^ (k - 1)) by (apply pow10_le; lia).
        assert (Z.abs c < 10 ^ 20 * 10 ^ (k - 1)).
        { rewrite Hv, Z.abs_mul, (Z.abs_eq (10 ^ (e0 - e)))
            by (apply Z.lt_le_incl, pow10_pos; lia).
          pose proof (pow10_pos (e0 - e) ltac:(lia)).
          pose proof (pow10_pos (k - 1) ltac:(lia)). nia. }
        rewrite <- pow10_add in H0 by lia.
        replace (20 + (k - 1)) with (ndigits c - 1) in H0 by lia. lia. }
      exists (c0 * 10 ^ (e0 - e - k)).
      rewrite <- Z.mul_assoc, <- pow10_add by lia.
      replace (e0 - e - k + k) with (e0 - e) by lia. exact Hv.
    - exfalso. rewrite Z.min_r in Hv by lia.
      rewrite Z.sub_diag, Z.mul_1_r in Hv.
      pose proof (pow10_pos (e - e0) ltac:(lia)).
      assert (Z.abs c <= Z.abs c0).
      { rewrite <- Hv, Z.abs_mul, (Z.abs_eq (10 ^ (e - e0))) by lia. nia. }
      assert (10 ^ 20 <= 10 ^ (ndigits c - 1)) by (apply pow10_le; lia).
      lia. }
  clearbody k. destruct Hdiv as [m ->].
  rewrite round_half_up_multiple by lia.
  rewrite <- (value_shift m (e + k) k) by lia.
  replace (e + k - k) with e by lia. reflexivity.
Qed.

End DecimalFacts.

Section DivCeil.
Import Dec.

(** Ceiling of a quotient of integers. *)
Lemma ceil_div_spec a b N :
  0 < b -> (- ((- a) / b) = N <-> (N - 1) * b < a <= N * b).
Proof.
  intros Hb.
  pose proof (Z.div_mod (- a) b ltac:(lia)).
  pose proof (Z.mod_pos_bound (- a) b Hb).
  split; intros HN; nia.
Qed.

(** Rounding [q0 = floor (A * Pg / T)] half-up at [Pk] lands strictly
    between the scaled neighbours of [ceil (A / T)]. *)
Lemma half_up_between q0 T A N c1 Pk Pj Pg :
  0 < T -> 10 <= Pk -> 0 < Pj -> Pg = Pj * Pk -> T < Pj ->
  q0 * T <= A * Pg < (q0 + 1) * T ->
  (N - 1) * T < A <= N * T ->
  2 * Pk * c1 <= 2 * q0 + Pk < 2 * Pk * c1 + 2 * Pk ->
  (N - 1) * Pj < c1 <= N * Pj.
Proof.
  intros HT HPk HPj HPg HTj [Hf1 Hf2] [HN1 HN2] [Hc1 Hc2]. split.
  - destruct (Z.lt_ge_cases ((N - 1) * Pj) c1) as [|Hc]; [assumption|exfalso].
    assert (E1 : Pk * c1 <= Pk * ((N - 1) * Pj))
      by (apply Z.mul_le_mono_nonneg_l; lia).
    assert (H2 : 2 * q0 < 2 * ((N - 1) * Pg) + Pk) by (subst Pg; lia).
    assert (H3 : 2 * q0 * T < (2 * ((N - 1) * Pg) + Pk) * T)
      by (apply Z.mul_lt_mono_pos_r; lia).
    assert (H4 : (N - 1) * T * Pg <= (A - 1) * Pg).
    { apply Z.mul_le_mono_nonneg_r; [subst Pg|]; nia. }
    assert (H5 : 2 * Pg < 2 * T + Pk * T) by lia.
    assert (H6 : T * (Pk + 2) <= (Pj - 1) * (Pk + 2))
      by (apply Z.mul_le_mono_nonneg_r; lia).
    assert (H7 : 10 * Pj <= Pk * Pj) by (apply Z.mul_le_mono_nonneg_r; lia).
    subst Pg. lia.
  - destruct (Z.le_gt_cases c1 (N * Pj)) as [|Hc]; [assumption|exfalso].
    assert (E1 : Pk * (N * Pj + 1) <= Pk * c1)
      by (apply Z.mul_le_mono_nonneg_l; lia).
    assert (H2 : N * Pg < q0) by (subst Pg; lia).
    assert (H3 : N * Pg * T < q0 * T) by (apply Z.mul_lt_mono_pos_r; lia).
    assert (H4 : A * Pg <= N * T * Pg).
    { apply Z.mul_le_mono_nonneg_r; [subst Pg|]; nia. }
    lia.
Qed.

(** The quotient [n / t] carries [g] decimals of [A / T]; rounding it
    half-up to 20 digits and then up to an integer gives the ceiling of
    [A / T] as long as [A] has at most 19 digits. *)
Lemma ceil_after_round_core n t A T g :
  0 < t -> 0 < T -> 0 < A < 10 ^ 19 -> 0 <= g ->
  n * T = A * 10 ^ g * t ->
  10 ^ 20 <= n / t ->
  let q0 := n / t in
  let k := ndigits q0 - 20 in
  let c1 := (2 * q0 + 10 ^ k) / (2 * 10 ^ k) in
  let j := g - k in
  0 < k /\ 0 < j /\ - ((- c1) / 10 ^ j) = - ((- A) / T).
Proof.
  intros Ht HT HA Hg Hrel Hbig q0 k c1 j.
  assert (Hq0 : q0 <> 0) by (unfold q0; lia).
  destruct (ndigits_spec q0 Hq0) as [_ [Hlo Hhi]].
  rewrite Z.abs_eq in Hlo, Hhi by (unfold q0; lia).
  assert (Hk : 0 < k).
  { unfold k. assert (10 ^ 20 < 10 ^ ndigits q0) by (unfold q0 in *; lia).
    apply pow10_lt_inv in H; try lia. apply ndigits_nonneg. }
  (* q0 is the floor of A * 10^g / T *)
  pose proof (Z.div_mod n t ltac:(lia)) as Hdm.
  pose proof (Z.mod_pos_bound n t Ht) as Hmb.
  fold q0 in Hdm.
  pose proof (pow10_pos g Hg) as Hpg.
  assert (Hfl : q0 * T <= A * 10 ^ g < (q0 + 1) * T).
  { clear - Hdm Hmb Hrel Ht HT. split.
    - apply (Z.mul_le_mono_pos_r _ _ t Ht).
      replace (q0 * T * t) with (t * q0 * T) by ring. rewrite <- Hrel.
      apply Z.mul_le_mono_nonneg_r; lia.
    - apply (Z.mul_lt_mono_pos_r t _ _ Ht). rewrite <- Hrel.
      replace ((q0 + 1) * T * t) with ((t * q0 + t) * T) by ring.
      apply Z.mul_lt_mono_pos_r; lia. }
  pose proof (pow10_pos k ltac:(lia)) as Hpk.
  (* the number of dropped digits is below g *)
  assert (Hlo' : 10 ^ 19 * 10 ^ k <= q0).
  { rewrite <- pow10_add by lia.
    replace (19 + k) with (ndigits q0 - 1) by (unfold k; lia). exact Hlo. }
  assert (HTk : T * 10 ^ k < 10 ^ g).
  { clear - Hlo' Hfl HA HT Hpk Hpg.
    assert (10 ^ 19 * 10 ^ k * T <= q0 * T)
      by (apply Z.mul_le_mono_nonneg_r; lia).
    assert (A * 10 ^ g < 10 ^ 19 * 10 ^ g)
      by (apply Z.mul_lt_mono_pos_r; lia).
    assert (10 ^ 19 * (T * 10 ^ k) < 10 ^ 19 * 10 ^ g) by lia.
    apply Z.mul_lt_mono_pos_l in H1; lia. }
  assert (Hj : 0 < j).
  { unfold j. assert (10 ^ k < 10 ^ g).
    { clear - HTk HT Hpk.
      assert (1 * 10 ^ k <= T * 10 ^ k) by (apply Z.mul_le_mono_nonneg_r; lia).
      lia. }
    apply pow10_lt_inv in H; lia. }
  pose proof (pow10_pos j ltac:(lia)) as Hpj.
  assert (Hgj : 10 ^ g = 10 ^ j * 10 ^ k).
  { rewrite <- pow10_add by lia. f_equal. unfold j. lia. }
  assert (HTj : T < 10 ^ j).
  { rewrite Hgj in HTk. apply Z.mul_lt_mono_pos_r in HTk; lia. }
  assert (Hk10 : 10 <= 10 ^ k).
  { change 10 with (10 ^ 1) at 1. apply pow10_le. lia. }
  split; [exact Hk|]. split; [exact Hj|].
  (* c1 is q0 / 10^k rounded half-up *)
  pose proof (Z.div_mod (2 * q0 + 10 ^ k) (2 * 10 ^ k) ltac:(lia)) as Hc1.
  pose proof (Z.mod_pos_bound (2 * q0 + 10 ^ k) (2 * 10 ^ k) ltac:(lia)) as Hc1b.
  fold c1 in Hc1.
  set (N := - ((- A) / T)).
  assert (HN : (N - 1) * T < A <= N * T) by (apply ceil_div_spec; [lia|reflexivity]).
  apply ceil_div_spec; [lia|].
  apply (half_up_between q0 T A N c1 (10 ^ k) (10 ^ j) (10 ^ g)); try assumption.
  lia.
Qed.

End DivCeil.

Section ExactOps.
Import Dec Exact.

Lemma fits_comp n q q' : (q == q')%Q -> fits n q -> fits n q'.
Proof.
  intros E (c & e & Hc & Hv). exists c, e. split; [exact Hc|].
  rewrite <- E. exact Hv.
Qed.

Lemma minus_exact a b :
  fits precision (value a - value b) ->
  (value (minus a b) == value a - value b)%Q.
Proof.
  intros H. unfold minus. destruct (align a b) as [[x y] e] eqn:E.
  destruct (value_align a b x y e E) as [Ha Hb].
  assert (Hx : (value (mkDec (x - y) e) == value a - value b)%Q).
  { rewrite value_minus_same, Ha, Hb. reflexivity. }
  rewrite round_sd_exact; [exact Hx|].
  apply (fits_comp _ (value a - value b)); [symmetry; exact Hx|exact H].
Qed.

Lemma plus_exact a b :
  fits precision (value a + value b) ->
  (value (plus a b) == value a + value b)%Q.
Proof.
  intros H. unfold plus. destruct (align a b) as [[x y] e] eqn:E.
  destruct (value_align a b x y e E) as [Ha Hb].
  assert (Hx : (value (mkDec (x + y) e) == value a + value b)%Q).
  { rewrite value_plus_same, Ha, Hb. reflexivity. }
  rewrite round_sd_exact; [exact Hx|].
  apply (fits_comp _ (value a + value b)); [symmetry; exact Hx|exact H].
Qed.

Lemma mul_exact a b :
  fits precision (value a * value b) ->
  (value (mul a b) == value a * value b)%Q.
Proof.
  intros H. unfold mul.
  assert (Hx : (value (mkDec (coef a * coef b) (dexp a + dexp b))
                == value a * value b)%Q).
  { rewrite value_mul_exact, <- !value_eta. reflexivity. }
  rewrite round_sd_exact; [exact Hx|].
  apply (fits_comp _ (value a * value b)); [symmetry; exact Hx|exact H].
Qed.

Lemma value_div_100 c e :
  (value (mkDec c (e - 2)) == value (mkDec c e) / inject_Z 100)%Q.
Proof.
  rewrite !value_mkDec. unfold Z.sub.
  rewrite Qpower_plus by exact ten_neq_0.
  change (inject_Z 10 ^ (- (2)))%Q with (/ inject_Z 100)%Q.
  unfold Qdiv. ring.
Qed.

Lemma fits_div_100 n q : fits n q -> fits n (q / inject_Z 100).
Proof.
  intros (c & e & Hc & Hv). exists c, (e - 2). split; [exact Hc|].
  rewrite value_div_100, Hv. reflexivity.
Qed.

(** Division by the literal 100 only moves the decimal point. *)
Lemma div_100_exact a :
  fits precision (value a) ->
  (value (div a (of_Z 100)) == value a / inject_Z 100)%Q.
Proof.
  intros H. unfold div. cbn [of_Z coef dexp].
  change (ndigits 100) with 3. change (Z.abs 100) with 100.
  change (Z.sgn 100) with 1. unfold precision. change (20 + 3) with 23.
  assert (Hq : Z.abs (coef a) * 10 ^ 23 / 100 = Z.abs (coef a) * 10 ^ 21).
  { change (10 ^ 23) with (10 ^ 21 * 100). rewrite Z.mul_assoc.
    apply Z.div_mul. lia. }
  rewrite Hq.
  replace (Z.sgn (coef a) * 1 * (Z.abs (coef a) * 10 ^ 21))
    with (coef a * 10 ^ 21) by (destruct (coef a); simpl; lia).
  assert (Hx : (value (mkDec (coef a * 10 ^ 21) (dexp a - 0 - 23))
                == value a / inject_Z 100)%Q).
  { replace (dexp a - 0 - 23) with (dexp a - 2 - 21) by lia.
    rewrite value_shift by lia. rewrite value_div_100, <- value_eta. reflexivity. }
  rewrite round_sd_exact; [exact Hx|].
  apply (fits_comp _ (value a / inject_Z 100)); [symmetry; exact Hx|].
  apply fits_div_100. exact H.
Qed.

End ExactOps.

Section CeilDiv.
Import Dec Exact.

Lemma value_neg_exp A d :
  0 <= d -> (value (mkDec A (- d)) == inject_Z A / inject_Z (10 ^ d))%Q.
Proof.
  intros Hd. rewrite value_mkDec, Qpower_opp, Zpower_Qpower by exact Hd.
  reflexivity.
Qed.

Lemma Qceiling_quotient A T :
  0 < T -> Qceiling (inject_Z A / inject_Z T) = - ((- A) / T).
Proof.
  intros HT. destruct T as [|p|p]; try lia.
  rewrite <- (Qceiling_comp _ _ (Qmake_Qdiv A p)).
  unfold Qceiling, Qfloor. simpl. reflexivity.
Qed.

(** [a.div(t).toDecimalPlaces(0, ROUND_CEIL)] is the ceiling of the exact
    quotient when [a] is a non-negative amount below [10^19] with at
    most 19 significant digits. *)
Lemma div_ceil_exact a t A d :
  0 < t -> 0 <= A < 10 ^ 19 -> 0 <= d ->
  (value a == inject_Z A / inject_Z (10 ^ d))%Q ->
  (value (toDecimalPlaces 0 ROUND_CEIL (div a (of_Z t)))
   == inject_Z (Qceiling (value a / inject_Z t)))%Q.
Proof.
  intros Ht HA Hd Hv.
  pose proof (pow10_pos d Hd) as Hpd.
  assert (Hceil : Qceiling (value a / inject_Z t) = - ((- A) / (10 ^ d * t))).
  { rewrite <- Qceiling_quotient by lia. apply Qceiling_comp.
    rewrite Hv, inject_Z_mult. field. split; intros E.
    - apply (inject_Z_injective t 0) in E. lia.
    - apply (inject_Z_injective (10 ^ d) 0) in E. lia. }
  rewrite <- value_neg_exp in Hv by exact Hd.
  rewrite (value_eta a) in Hv. apply value_eq_aligned in Hv.
  set (m := Z.min (dexp a) (- d)) in *.
  pose proof (pow10_pos (dexp a - m) ltac:(lia)) as Hp1.
  pose proof (pow10_pos (- d - m) ltac:(lia)) as Hp2.
  destruct (Z.eq_dec A 0) as [HA0|HA0].
  - (* zero amount *)
    subst A. assert (Hc : coef a = 0) by nia.
    rewrite Hceil, Z.div_0_l by lia.
    assert (Hz : coef (toDecimalPlaces 0 ROUND_CEIL (div a (of_Z t))) = 0).
    { unfold div. cbn [of_Z coef dexp]. rewrite Hc.
      change (Z.abs 0) with 0. change (Z.sgn 0) with 0.
      rewrite !Z.mul_0_l.
      unfold round_sd, drop_digits at 1. cbn [coef dexp]. rewrite ndigits_0.
      change (0 - precision <=? 0) with true. cbv iota.
      unfold toDecimalPlaces, drop_digits. cbn [coef dexp].
      match goal with
      | |- context [if ?c <=? 0 then _ else _] =>
          destruct (Z.leb_spec c 0) as [|Hpos]; [reflexivity|]
      end.
      cbn [coef round_div]. change (- 0) with 0.
      rewrite Z.div_0_l; [reflexivity|]. apply Z.pow_nonzero; lia. }
    rewrite (value_eta (toDecimalPlaces _ _ _)), Hz, value_mkDec.
    change (inject_Z (- 0)) with (inject_Z 0). ring.
  - (* positive amount *)
    assert (HApos : 0 < A) by lia.
    assert (Hca : 0 < coef a) by nia.
    unfold div. cbn [of_Z coef dexp].
    rewrite (Z.abs_eq (coef a)), (Z.abs_eq t), (Z.sgn_pos (coef a)), (Z.sgn_pos t) by lia.
    rewrite Z.mul_1_l, Z.sub_0_r.
    unfold precision. set (s := 20 + ndigits t).
    assert (Hnt : 1 <= ndigits t /\ t < 10 ^ ndigits t).
    { destruct (ndigits_spec t ltac:(lia)) as [H1 [_ H2]].
      rewrite Z.abs_eq in H2 by lia. split; assumption. }
    assert (Hs : 21 <= s) by (unfold s; lia).
    pose proof (pow10_pos s ltac:(lia)) as Hps.
    assert (Hbig : 10 ^ 20 <= coef a * 10 ^ s / t).
    { apply Z.div_le_lower_bound; [lia|].
      assert (E : 10 ^ s = 10 ^ 20 * 10 ^ ndigits t).
      { unfold s. apply pow10_add; lia. }
      rewrite E.
      assert (t * 10 ^ 20 <= 1 * (10 ^ 20 * 10 ^ ndigits t)) by lia.
      assert (1 * (10 ^ 20 * 10 ^ ndigits t) <= coef a * (10 ^ 20 * 10 ^ ndigits t))
        by (apply Z.mul_le_mono_nonneg_r; lia).
      lia. }
    (* the scale of the integer quotient *)
    set (g := s - dexp a).
    assert (Hg : 0 <= g /\ coef a * 10 ^ s * 10 ^ d = A * 10 ^ g).
    { unfold g. destruct (Z.le_ge_cases (dexp a) (- d)) as [Hle|Hge].
      - unfold m in *. rewrite Z.min_l in * by lia.
        rewrite Z.sub_diag, Z.mul_1_r in Hv. split; [lia|].
        rewrite Hv, <- !Z.mul_assoc, <- !pow10_add by lia.
        f_equal. f_equal. lia.
      - unfold m in *. rewrite Z.min_r in * by lia.
        rewrite Z.sub_diag, Z.mul_1_r in Hv.
        assert (Hlt : dexp a + d < 19).
        { destruct (Z.lt_ge_cases (dexp a + d) 19) as [|Hbad]; [assumption|exfalso].
          assert (10 ^ 19 <= 10 ^ (dexp a - - d)) by (apply pow10_le; lia).
          assert (1 * 10 ^ (dexp a - - d) <= coef a * 10 ^ (dexp a - - d))
            by (apply Z.mul_le_mono_nonneg_r; lia).
          lia. }
        split; [lia|].
        rewrite <- Hv, <- !Z.mul_assoc, <- !pow10_add by lia.
        f_equal. f_equal. lia. }
    destruct Hg as [Hg Hrel].
    assert (Hrel' : coef a * 10 ^ s * (10 ^ d * t) = A * 10 ^ g * t).
    { rewrite <- Hrel. ring. }
    destruct (ceil_after_round_core (coef a * 10 ^ s) t A (10 ^ d * t) g
                Ht ltac:(lia) ltac:(lia) Hg Hrel' Hbig) as (Hk & Hj & Hfin).
    cbv zeta in Hk, Hj, Hfin.
    set (q0 := coef a * 10 ^ s / t) in *.
    unfold round_sd, drop_digits at 1. cbn [coef dexp]. unfold precision.
    destruct (Z.leb_spec (ndigits q0 - 20) 0) as [|_]; [lia|].
    unfold toDecimalPlaces, drop_digits. cbn [coef dexp].
    replace (- (dexp a - s + (ndigits q0 - 20)) - 0)
      with (g - (ndigits q0 - 20)) by (unfold g; lia).
    destruct (Z.leb_spec (g - (ndigits q0 - 20)) 0) as [|_]; [lia|].
    unfold round_div.
    rewrite (Z.abs_eq q0), (Z.sgn_pos q0), Z.mul_1_l by (unfold q0 in *; lia).
    rewrite Hfin, Hceil.
    replace (dexp a - s + (ndigits q0 - 20) + (g - (ndigits q0 - 20))) with 0
      by (unfold g; lia).
    rewrite value_mkDec. simpl. ring.
Qed.

End CeilDiv.

Section DivNearest.
Import Dec Exact.

(** The coefficient [div] keeps is the integer nearest to the exact
    quotient at the kept scale. *)
Lemma div_coef_nearest n b k :
  0 < b -> 1 <= k -> 0 <= n ->
  let c1 := (2 * (n / b) + 10 ^ k) / (2 * 10 ^ k) in
  2 * 10 ^ k * c1 * b <= 2 * n + 10 ^ k * b /\
  2 * n <= 2 * 10 ^ k * c1 * b + 10 ^ k * b.
Proof.
  intros Hb Hk Hn c1.
  pose proof (pow10_pos (k - 1) ltac:(lia)) as Hh.
  assert (E : 10 ^ k = 10 * 10 ^ (k - 1)).
  { rewrite <- pow10_succ by lia. f_equal. lia. }
  set (h := 10 ^ (k - 1)) in *.
  pose proof (Z.div_mod n b ltac:(lia)) as Hq.
  pose proof (Z.mod_pos_bound n b Hb) as Hqb.
  set (q0 := n / b) in *.
  pose proof (Z.div_mod (2 * q0 + 10 ^ k) (2 * 10 ^ k) ltac:(lia)) as Hc.
  pose proof (Z.mod_pos_bound (2 * q0 + 10 ^ k) (2 * 10 ^ k) ltac:(lia)) as Hcb.
  fold c1 in Hc. rewrite E in *.
  assert (H1 : 20 * (h * c1) <= 2 * q0 + 10 * h) by lia.
  assert (H2 : q0 + 5 * h + 1 <= 10 * (h * c1) + 10 * h) by lia.
  split.
  - assert ((20 * (h * c1)) * b <= (2 * q0 + 10 * h) * b)
      by (apply Z.mul_le_mono_nonneg_r; lia).
    lia.
  - assert ((q0 + 5 * h + 1) * b <= (10 * (h * c1) + 10 * h) * b)
      by (apply Z.mul_le_mono_nonneg_r; lia).
    lia.
Qed.

(** [div] is correctly rounded: for positive operands the result has 20
    significant digits and lies within half a unit in the last place of
    the exact quotient. *)
Lemma div_nearest a b :
  0 < coef a -> 0 < coef b ->
  10 ^ 19 <= coef (div a b) <= 10 ^ 20 /\
  (Qabs (value (div a b) - value a / value b)
   <= (1 # 2) * inject_Z 10 ^ dexp (div a b))%Q.
Proof.
  intros Ha Hb. unfold div.
  rewrite (Z.abs_eq (coef a)), (Z.abs_eq (coef b)), (Z.sgn_pos (coef a)),
    (Z.sgn_pos (coef b)) by lia.
  rewrite Z.mul_1_l. unfold precision.
  set (s := 20 + ndigits (coef b)).
  destruct (ndigits_spec (coef b) ltac:(lia)) as [Hnb [_ Hbhi]].
  rewrite Z.abs_eq in Hbhi by lia.
  assert (Hs : 21 <= s) by (unfold s; lia).
  pose proof (pow10_pos s ltac:(lia)) as Hps.
  set (n := coef a * 10 ^ s).
  assert (Hn : 0 <= n) by (unfold n; lia).
  assert (Hbig : 10 ^ 20 <= n / coef b).
  { apply Z.div_le_lower_bound; [lia|].
    assert (E : 10 ^ s = 10 ^ 20 * 10 ^ ndigits (coef b))
      by (unfold s; apply pow10_add; lia).
    unfold n. rewrite E.
    assert (1 * (10 ^ 20 * 10 ^ ndigits (coef b))
            <= coef a * (10 ^ 20 * 10 ^ ndigits (coef b)))
      by (apply Z.mul_le_mono_nonneg_r; lia).
    lia. }
  set (q0 := n / coef b) in *.
  destruct (ndigits_spec q0 ltac:(lia)) as [_ [Hlo Hhi]].
  rewrite Z.abs_eq in Hlo, Hhi by lia.
  set (k := ndigits q0 - 20).
  assert (Hk : 1 <= k).
  { unfold k. assert (10 ^ 20 < 10 ^ ndigits q0) by lia.
    apply pow10_lt_inv in H; try lia. apply ndigits_nonneg. }
  pose proof (pow10_pos k ltac:(lia)) as Hpk.
  unfold round_sd, drop_digits. cbn [coef dexp]. unfold precision. fold k.
  destruct (Z.leb_spec k 0) as [|_]; [lia|]. cbn [coef dexp].
  unfold round_div. rewrite (Z.abs_eq q0), (Z.sgn_pos q0), Z.mul_1_l by lia.
  set (c1 := (2 * q0 + 10 ^ k) / (2 * 10 ^ k)).
  destruct (div_coef_nearest n (coef b) k Hb Hk Hn) as [N1 N2].
  fold q0 c1 in N1, N2.
  assert (Hlo' : 10 ^ 19 * 10 ^ k <= q0).
  { rewrite <- pow10_add by lia.
    replace (19 + k) with (ndigits q0 - 1) by (unfold k; lia). exact Hlo. }
  assert (Hhi' : q0 < 10 ^ 20 * 10 ^ k).
  { rewrite <- pow10_add by lia.
    replace (20 + k) with (ndigits q0) by (unfold k; lia). exact Hhi. }
  split.
  - unfold c1. split.
    + apply Z.div_le_lower_bound; lia.
    + apply Z.lt_succ_r. apply Z.div_lt_upper_bound; lia.
  - (* distance to the exact quotient *)
    set (U := (inject_Z 10 ^ (dexp a - dexp b - s + k))%Q).
    assert (HU : (0 < U)%Q) by (apply Qpower_0_lt; reflexivity).
    set (K := inject_Z (10 ^ k)). set (B := inject_Z (coef b)).
    set (N := inject_Z n). set (C := inject_Z c1).
    assert (HK : (0 < K)%Q)
      by (change (inject_Z 0 < inject_Z (10 ^ k))%Q; rewrite <- Zlt_Qlt; lia).
    assert (HB : (0 < B)%Q)
      by (change (inject_Z 0 < inject_Z (coef b))%Q; rewrite <- Zlt_Qlt; lia).
    assert (EX : (value a / value b == N * U / (K * B))%Q).
    { rewrite (value_eta a), (value_eta b), !value_mkDec.
      unfold N, n, U, K, B. rewrite inject_Z_mult, !Zpower_Qpower by lia.
      replace (dexp a - dexp b - s + k) with (dexp a + - dexp b + - s + k) by lia.
      rewrite !Qpower_plus, !Qpower_opp by exact ten_neq_0.
      pose proof (Qpower_not_0 (inject_Z 10) (dexp a) ten_neq_0).
      pose proof (Qpower_not_0 (inject_Z 10) (dexp b) ten_neq_0).
      pose proof (Qpower_not_0 (inject_Z 10) s ten_neq_0).
      pose proof (Qpower_not_0 (inject_Z 10) k ten_neq_0).
      field. repeat split; try assumption.
      intros E. apply (inject_Z_injective (coef b) 0) in E. lia. }
    assert (ER : (value (mkDec c1 (dexp a - dexp b - s + k)) == C * U)%Q)
      by reflexivity.
    rewrite ER, EX.
    assert (ED : (C * U - N * U / (K * B)
                  == (2 * K * C * B - 2 * N) * (U / (2 * K * B)))%Q).
    { field. split; lra. }
    rewrite ED.
    assert (HKB : (0 < K * B)%Q) by (apply Qmult_lt_0_compat; assumption).
    assert (HW : (0 <= U / (2 * K * B))%Q).
    { apply Qle_shift_div_l; lra. }
    assert (EH : ((1 # 2) * U == (K * B) * (U / (2 * K * B)))%Q).
    { field. split; lra. }
    rewrite EH.
    assert (EZ : (2 * K * C * B - 2 * N
                  == inject_Z (2 * 10 ^ k * c1 * coef b - 2 * n))%Q).
    { unfold Z.sub. rewrite inject_Z_plus, inject_Z_opp, !inject_Z_mult.
      fold K C B N. change (inject_Z 2) with 2%Q. ring. }
    assert (EKB : (K * B == inject_Z (10 ^ k * coef b))%Q).
    { rewrite inject_Z_mult. reflexivity. }
    assert (Q1 : (2 * K * C * B - 2 * N <= K * B)%Q).
    { rewrite EZ, EKB, <- Zle_Qle. lia. }
    assert (Q2 : (- (K * B) <= 2 * K * C * B - 2 * N)%Q).
    { rewrite EZ, EKB, <- inject_Z_opp, <- Zle_Qle. lia. }
    apply Qabs_Qle_condition. split.
    + assert (EN : (- (K * B * (U / (2 * K * B)))
                    == (- (K * B)) * (U / (2 * K * B)))%Q) by ring.
      rewrite EN. apply Qmult_le_compat_r; assumption.
    + apply Qmult_le_compat_r; assumption.
Qed.

End DivNearest.

Section SimulationFacts.
Import Dec Store Text Credit.

(** What a successful run of [calculateSimulation] went through. *)
Lemma calculateSimulation_inr db input r :
  calculateSimulation db input = inr r ->
  exists s,
    schemes db !! schemeId input = Some s /\
    scheme_is_active s = true /\
    includesZ (tenor_options s) (tenorMonths input) = true /\
    lt (dp input) (div (mul (price input) (min_dp_percent s)) (of_Z 100)) = false /\
    tenorMonths input <> 0 /\
    scheme r = s /\
    raw r =
      let principal := minus (price input) (dp input) in
      let interestAmount :=
        mul (div (mul principal (interest_rate s)) (of_Z 100))
            (of_Z (tenorMonths input)) in
      let totalLoan := plus principal interestAmount in
      mkRaw (price input) (dp input) principal (interest_rate s)
        interestAmount totalLoan
        (toDecimalPlaces 0 ROUND_CEIL (div totalLoan (of_Z (tenorMonths input))))
        (tenorMonths input).
Proof.
  unfold calculateSimulation. intros H.
  destruct (schemes db !! schemeId input) as [s|]; [|discriminate].
  exists s. split; [reflexivity|].
  destruct (scheme_is_active s); [|discriminate]. split; [reflexivity|].
  destruct (includesZ _ _); [|discriminate]. split; [reflexivity|].
  destruct (lt _ _); [discriminate|]. split; [reflexivity|]. simpl in H.
  unfold isZero in H. cbn [of_Z coef] in H.
  destruct (Z.eqb_spec (tenorMonths input) 0); [discriminate|]. simpl in H.
  split; [assumption|]. inversion H; subst r; clear H. split; reflexivity.
Qed.

Lemma amount19_fits q : Exact.amount19 q -> Exact.fits precision q.
Proof.
  intros (A & d & HA & Hd & Hq). exists A, (- d). split.
  - unfold precision. rewrite Z.abs_eq by lia.
    assert (10 ^ 19 < 10 ^ 20) by reflexivity. lia.
  - rewrite Hq. symmetry. apply value_neg_exp. exact Hd.
Qed.

(** Within the precision, the amounts the engine returns are those of
    the exact formulas. *)
Lemma simulation_exact db input r :
  calculateSimulation db input = inr r ->
  0 < tenorMonths input ->
  Exact.within_precision (price input) (dp input) (interest_rate (scheme r))
    (tenorMonths input) ->
  (value (principal (raw r)) == Exact.principal (price input) (dp input))%Q /\
  (value (interestAmount (raw r))
   == Exact.interestAmount (price input) (dp input) (interest_rate (scheme r))
        (tenorMonths input))%Q /\
  (value (totalLoan (raw r))
   == Exact.totalLoan (price input) (dp input) (interest_rate (scheme r))
        (tenorMonths input))%Q /\
  (value (monthlyInstallment (raw r))
   == inject_Z (Exact.monthlyInstallment (price input) (dp input)
                  (interest_rate (scheme r)) (tenorMonths input)))%Q.
Proof.
  intros Hrun Ht Hw.
  destruct (calculateSimulation_inr db input r Hrun)
    as (s & _ & _ & _ & _ & _ & Hs & Hraw).
  rewrite Hs in *. rewrite Hraw. cbv zeta. cbn [principal interestAmount totalLoan monthlyInstallment].
  destruct Hw as (HP & HPr & HI & HL).
  unfold Exact.monthlyInstallment, Exact.totalLoan, Exact.interestAmount,
    Exact.principal in *.
  set (p := price input) in *. set (d := dp input) in *.
  set (t := tenorMonths input) in *. set (rate := interest_rate s) in *.
  assert (E1 : (value (minus p d) == value p - value d)%Q)
    by (apply minus_exact; exact HP).
  assert (E2 : (value (mul (minus p d) rate) == (value p - value d) * value rate)%Q).
  { rewrite mul_exact; [rewrite E1; reflexivity|].
    apply (fits_comp _ ((value p - value d) * value rate)); [|exact HPr].
    rewrite E1. reflexivity. }
  assert (E3 : (value (div (mul (minus p d) rate) (of_Z 100))
                == (value p - value d) * value rate / inject_Z 100)%Q).
  { rewrite div_100_exact; [rewrite E2; reflexivity|].
    apply (fits_comp _ ((value p - value d) * value rate)); [|exact HPr].
    symmetry. exact E2. }
  assert (E4 : (value (mul (div (mul (minus p d) rate) (of_Z 100)) (of_Z t))
                == (value p - value d) * (value rate / inject_Z 100) * inject_Z t)%Q).
  { assert (E : ((value p - value d) * (value rate / inject_Z 100) * inject_Z t
                 == value (div (mul (minus p d) rate) (of_Z 100)) * value (of_Z t))%Q)
      by (rewrite E3, value_of_Z; field; discriminate).
    rewrite mul_exact; [symmetry; exact E|].
    apply (fits_comp _ _ _ E). exact HI. }
  assert (E5 : (value (plus (minus p d)
                         (mul (div (mul (minus p d) rate) (of_Z 100)) (of_Z t)))
                == value p - value d
                   + (value p - value d) * (value rate / inject_Z 100) * inject_Z t)%Q).
  { rewrite plus_exact; [rewrite E1, E4; reflexivity|].
    apply (fits_comp _ (value p - value d
                        + (value p - value d) * (value rate / inject_Z 100)
                          * inject_Z t)); [|apply amount19_fits; exact HL].
    rewrite E1, E4. reflexivity. }
  split; [exact E1|]. split; [exact E4|]. split; [exact E5|].
  destruct HL as (A & dd & HA & Hdd & HLq).
  rewrite (div_ceil_exact _ t A dd Ht HA Hdd).
  - rewrite (Qceiling_comp _ _ (Qdiv_comp _ _ E5 _ _ (Qeq_refl (inject_Z t)))).
    reflexivity.
  - rewrite E5. exact HLq.
Qed.

End SimulationFacts.

Section SimulationClaims.
Import Dec Store Text Credit.

(** C1, within the precision.  For every input that passes validation
    with a positive tenor, as long as no intermediate result needs more
    than the 20 significant digits decimal.js is configured to keep (and
    the total loan is an amount below 10^19 with at most 19 digits), the
    engine returns principal = price - dp, interestAmount = principal *
    (interest_rate / 100) * tenorMonths, totalLoan = principal +
    interestAmount and monthlyInstallment = ceiling (totalLoan /
    tenorMonths). *)
Theorem calculateSimulation_formulas db input r :
  calculateSimulation db input = inr r ->
  0 < tenorMonths input ->
  Exact.within_precision (price input) (dp input) (interest_rate (scheme r))
    (tenorMonths input) ->
  let rate := interest_rate (scheme r) in
  let P := value (principal (raw r)) in
  let I := value (interestAmount (raw r)) in
  let L := value (totalLoan (raw r)) in
  let M := value (monthlyInstallment (raw r)) in
  (P == value (price input) - value (dp input))%Q /\
  (I == P * (value rate / inject_Z 100) * inject_Z (tenorMonths input))%Q /\
  (L == P + I)%Q /\
  (M == inject_Z (Qceiling (L / inject_Z (tenorMonths input))))%Q.
Proof.
  intros Hrun Ht Hw.
  destruct (simulation_exact db input r Hrun Ht Hw) as (EP & EI & EL & EM).
  unfold Exact.monthlyInstallment, Exact.totalLoan, Exact.interestAmount,
    Exact.principal in *.
  cbv zeta. split; [exact EP|]. split; [rewrite EI, EP; reflexivity|].
  split; [rewrite EL, EI, EP; reflexivity|].
  rewrite EM. apply inject_Z_injective. apply Qceiling_comp.
  rewrite EL. reflexivity.
Qed.

(** Whole-currency prices and down payments below 10^12, a rate of at
    most two decimals below 100 % and a tenor of at most 120 months stay
    within the precision. *)
Lemma within_precision_whole_amounts price dp rate t P D R :
  (value price == inject_Z P)%Q -> (value dp == inject_Z D)%Q ->
  (value rate == inject_Z R / inject_Z 100)%Q ->
  0 <= D <= P -> P < 10 ^ 12 -> 0 <= R < 10 ^ 4 -> 0 < t <= 120 ->
  Exact.within_precision price dp rate t.
Proof.
  intros EP0 ED0 ER HD HP HR Ht.
  assert (EP : (Exact.principal price dp == inject_Z (P - D))%Q).
  { unfold Exact.principal. rewrite EP0, ED0. unfold Z.sub.
    rewrite inject_Z_plus, inject_Z_opp. reflexivity. }
  assert (B1 : 0 <= P - D < 10 ^ 12) by lia.
  assert (B2 : 0 <= (P - D) * R < 10 ^ 16).
  { change (10 ^ 16) with (10 ^ 12 * 10 ^ 4). split; [apply Z.mul_nonneg_nonneg; lia|].
    apply Z.mul_lt_mono_nonneg; lia. }
  assert (B3 : 0 <= (P - D) * R * t < 10 ^ 19).
  { split; [apply Z.mul_nonneg_nonneg; lia|].
    assert ((P - D) * R * t <= 10 ^ 16 * 120)
      by (apply Z.mul_le_mono_nonneg; lia).
    assert (10 ^ 16 * 120 < 10 ^ 19) by reflexivity. lia. }
  assert (B4 : 0 <= (P - D) * 10 ^ 4 + (P - D) * R * t < 10 ^ 19).
  { assert ((P - D) * 10 ^ 4 <= 10 ^ 12 * 10 ^ 4)
      by (apply Z.mul_le_mono_nonneg_r; lia).
    assert ((P - D) * R * t <= 10 ^ 16 * 120)
      by (apply Z.mul_le_mono_nonneg; lia).
    assert (10 ^ 12 * 10 ^ 4 + 10 ^ 16 * 120 < 10 ^ 19) by reflexivity.
    assert (0 <= (P - D) * 10 ^ 4) by (apply Z.mul_nonneg_nonneg; lia).
    lia. }
  assert (H1920 : 10 ^ 19 < 10 ^ 20) by reflexivity.
  assert (H1220 : 10 ^ 12 < 10 ^ 20) by reflexivity.
  assert (H1620 : 10 ^ 16 < 10 ^ 20) by reflexivity.
  unfold Exact.within_precision, Exact.totalLoan, Exact.interestAmount.
  split; [|split; [|split]].
  - exists (P - D), 0. unfold precision. split; [rewrite Z.abs_eq; lia|].
    rewrite EP. symmetry. apply value_of_Z.
  - exists ((P - D) * R), (-2). unfold precision. split; [rewrite Z.abs_eq; lia|].
    rewrite EP, ER, value_mkDec, inject_Z_mult.
    change (inject_Z 10 ^ (-2))%Q with (/ inject_Z 100)%Q. field.
  - exists ((P - D) * R * t), (-4). unfold precision.
    split; [rewrite Z.abs_eq; lia|].
    rewrite EP, ER, value_mkDec, !inject_Z_mult.
    change (inject_Z 10 ^ (-4))%Q with (/ inject_Z 10000)%Q.
    change (inject_Z 100) with 100%Q. change (inject_Z 10000) with 10000%Q.
    field.
  - exists ((P - D) * 10 ^ 4 + (P - D) * R * t), 4.
    split; [exact B4|]. split; [lia|].
    rewrite EP, ER, inject_Z_plus, !inject_Z_mult.
    change (inject_Z (10 ^ 4)) with 10000%Q. change (inject_Z 100) with 100%Q.
    field.
Qed.

Lemma sample_within_precision :
  Exact.within_precision (of_Z 4500000) (of_Z 500000) (mkDec 2 0) 6.
Proof.
  apply (within_precision_whole_amounts _ _ _ _ 4500000 500000 200);
    try (vm_compute; reflexivity); lia.
Defined.

Lemma calculateSimulation_formulas_witness :
  exists r,
    calculateSimulation Sample.db
      (mkSimulationInput (of_Z 4500000) (of_Z 500000) 1 6) = inr r /\
    (value (principal (raw r)) == inject_Z 4000000)%Q /\
    (value (interestAmount (raw r)) == inject_Z 480000)%Q /\
    (value (totalLoan (raw r)) == inject_Z 4480000)%Q /\
    (value (monthlyInstallment (raw r)) == inject_Z 746667)%Q.
Proof.
  eexists. split; [vm_compute; reflexivity|].
  match goal with
  | |- context [principal (raw ?r)] =>
      assert (E : calculateSimulation Sample.db
                    (mkSimulationInput (of_Z 4500000) (of_Z 500000) 1 6) = inr r)
        by (vm_compute; reflexivity)
  end.
  destruct (calculateSimulation_formulas Sample.db
              (mkSimulationInput (of_Z 4500000) (of_Z 500000) 1 6) _
              E eq_refl sample_within_precision) as (HP & HI & HL & HM).
  split; [rewrite HP; vm_compute; reflexivity|].
  split; [rewrite HI, HP; vm_compute; reflexivity|].
  split; [rewrite HL, HI, HP; vm_compute; reflexivity|].
  rewrite HM. vm_compute. reflexivity.
Defined.

(** Beyond the precision the formulas stop being exact: for a price of
    1e21 and a down payment of 1 the 21-digit difference is rounded to
    20 digits, and the principal returned is 1e21 again. *)
Lemma calculateSimulation_formulas_counterexample :
  exists r,
    calculateSimulation Sample.db
      (mkSimulationInput (mkDec 1 21) (of_Z 1) 2 3) = inr r /\
    ~ (value (principal (raw r)) == value (mkDec 1 21) - value (of_Z 1))%Q.
Proof.
  eexists. split; [vm_compute; reflexivity|].
  vm_compute. discriminate.
Qed.

(** The installments cover the loan: the ceiling is at least the exact
    quotient and less than one unit above it. *)
Lemma ceiling_gap (L : Q) (t : Z) :
  0 < t ->
  let M := inject_Z (Qceiling (L / inject_Z t)) in
  (L <= M * inject_Z t)%Q /\ (M * inject_Z t - L < inject_Z t)%Q.
Proof.
  intros Ht M.
  assert (HT : (0 < inject_Z t)%Q)
    by (change (inject_Z 0 < inject_Z t)%Q; rewrite <- Zlt_Qlt; exact Ht).
  pose proof (Qle_ceiling (L / inject_Z t)) as H1.
  pose proof (Qceiling_lt (L / inject_Z t)) as H2.
  fold M in H1. unfold Z.sub in H2. rewrite inject_Z_plus in H2. fold M in H2.
  change (inject_Z (- (1))) with (- (1))%Q in H2.
  assert (E : (L == L / inject_Z t * inject_Z t)%Q) by (field; lra).
  split.
  - rewrite E at 1. apply Qmult_le_compat_r; lra.
  - assert ((M + - (1)) * inject_Z t < L / inject_Z t * inject_Z t)%Q
      by (apply Qmult_lt_compat_r; lra).
    rewrite <- E in H. lra.
Qed.

(** C3, with the bound for fractional totals.  Within the precision,
    monthlyInstallment * tenorMonths is at least totalLoan, equal to it
    exactly when tenorMonths divides totalLoan evenly, and exceeds it by
    less than tenorMonths currency units; when totalLoan is a whole
    number the excess is at most tenorMonths - 1. *)
Theorem installment_rounding_gap db input r :
  calculateSimulation db input = inr r ->
  0 < tenorMonths input ->
  Exact.within_precision (price input) (dp input) (interest_rate (scheme r))
    (tenorMonths input) ->
  let L := value (totalLoan (raw r)) in
  let M := value (monthlyInstallment (raw r)) in
  let t := inject_Z (tenorMonths input) in
  (L <= M * t)%Q /\
  (M * t - L < t)%Q /\
  ((M * t == L)%Q <-> exists z : Z, (L == inject_Z z * t)%Q) /\
  ((exists z : Z, (L == inject_Z z)%Q) -> (M * t - L <= t - 1)%Q).
Proof.
  intros Hrun Ht Hw L M t.
  destruct (simulation_exact db input r Hrun Ht Hw) as (_ & _ & EL & EM).
  assert (HM : (M == inject_Z (Qceiling (L / t)))%Q).
  { unfold M. rewrite EM. apply inject_Z_injective. apply Qceiling_comp.
    unfold L, t, Exact.monthlyInstallment. rewrite EL. reflexivity. }
  assert (HT : (0 < t)%Q)
    by (change (inject_Z 0 < inject_Z (tenorMonths input))%Q;
        rewrite <- Zlt_Qlt; exact Ht).
  destruct (ceiling_gap L (tenorMonths input) Ht) as [G1 G2].
  fold t in G1, G2. rewrite <- HM in G1, G2.
  split; [exact G1|]. split; [exact G2|]. split.
  - split.
    + intros E. exists (Qceiling (L / t)). rewrite <- HM. symmetry. exact E.
    + intros [z Hz]. rewrite HM.
      assert (Hq : (L / t == inject_Z z)%Q) by (rewrite Hz; field; lra).
      rewrite (Qceiling_comp _ _ Hq), Qceiling_Z. symmetry. exact Hz.
  - intros [z Hz]. set (c := Qceiling (L / t)) in *.
    set (n := tenorMonths input) in *.
    assert (Hlt : (inject_Z (c * n - z) < inject_Z n)%Q).
    { unfold Z.sub. rewrite inject_Z_plus, inject_Z_mult, inject_Z_opp.
      fold t. rewrite <- HM, <- Hz. exact G2. }
    rewrite <- Zlt_Qlt in Hlt.
    assert (Hle : c * n - z <= n - 1) by lia.
    rewrite Zle_Qle in Hle.
    unfold Z.sub in Hle.
    rewrite !inject_Z_plus, inject_Z_mult, inject_Z_opp in Hle.
    fold t in Hle. rewrite <- HM, <- Hz in Hle. exact Hle.
Qed.

Lemma installment_rounding_gap_witness :
  exists r,
    calculateSimulation Sample.db
      (mkSimulationInput (of_Z 4500000) (of_Z 500000) 1 6) = inr r /\
    (value (totalLoan (raw r)) <= value (monthlyInstallment (raw r)) * inject_Z 6)%Q /\
    (value (monthlyInstallment (raw r)) * inject_Z 6 - value (totalLoan (raw r))
     <= inject_Z 6 - 1)%Q.
Proof.
  eexists. split; [vm_compute; reflexivity|].
  match goal with
  | |- context [totalLoan (raw ?r)] =>
      assert (E : calculateSimulation Sample.db
                    (mkSimulationInput (of_Z 4500000) (of_Z 500000) 1 6) = inr r)
        by (vm_compute; reflexivity)
  end.
  destruct (installment_rounding_gap Sample.db
              (mkSimulationInput (of_Z 4500000) (of_Z 500000) 1 6) _
              E eq_refl sample_within_precision) as (H1 & _ & _ & H4).
  split; [exact H1|]. apply H4. exists 4480000. vm_compute. reflexivity.
Defined.

(** The bound tenorMonths - 1 fails when the total loan has a fractional
    part: 333 at 2.5 % for 3 months gives a total of 357.975 and three
    installments of 120, an excess of 2.025. *)
Lemma installment_rounding_gap_counterexample :
  exists r,
    calculateSimulation Sample.db
      (mkSimulationInput (of_Z 433) (of_Z 100) 2 3) = inr r /\
    ~ (value (monthlyInstallment (raw r)) * inject_Z 3 - value (totalLoan (raw r))
       <= inject_Z 3 - 1)%Q.
Proof.
  eexists. split; [vm_compute; reflexivity|].
  vm_compute. intros H. apply H. reflexivity.
Qed.

End SimulationClaims.

Section CreateFacts.
Import Dec Store Text Credit Ledger.

Lemma fold_create_installment cid start day amount l : forall tx acc,
  fold_left (create_installment cid start day amount) l (tx, acc) =
  (with_installments tx
     (insert_rows (rows_from cid start day amount (next_installment_id tx) l)
        (installments tx))
     (next_installment_id tx + Z.of_nat (length l)),
   acc ++ rows_from cid start day amount (next_installment_id tx) l).
Proof.
  induction l as [|i l IH]; intros tx acc.
  - simpl. rewrite Z.add_0_r, app_nil_r. destruct tx; reflexivity.
  - cbn [fold_left create_installment]. rewrite IH.
    cbn [rows_from insert_rows fold_left length with_installments
         next_installment_id installments installment_id].
    rewrite <- app_assoc. f_equal.
    unfold with_installments. cbn. f_equal. lia.
Qed.

Lemma rows_from_length cid start day amount l : forall next,
  length (rows_from cid start day amount next l) = length l.
Proof. induction l; intros; simpl; [reflexivity|]. f_equal. apply IHl. Qed.

Lemma rows_from_nth cid start day amount l : forall next,
  map installment_nth (rows_from cid start day amount next l) = l.
Proof. induction l; intros; simpl; [reflexivity|]. f_equal. apply IHl. Qed.

Lemma rows_from_ids cid start day amount l : forall next,
  map installment_id (rows_from cid start day amount next l)
  = seqZ next (Z.of_nat (length l)).
Proof.
  induction l as [|i l IH]; intros next.
  - reflexivity.
  - cbn [rows_from map length]. rewrite Nat2Z.inj_succ.
    rewrite seqZ_cons by lia. cbn [installment_id]. f_equal.
    rewrite IH. f_equal; lia.
Qed.

Lemma rows_from_Forall (P : Installment -> Prop) cid start day amount l :
  (forall id i, P (mkInstallment id cid i (due_date_of start day i)
                     (stored4 amount) (of_Z 0) (of_Z 0) (of_Z 0) UNPAID None)) ->
  forall next, Forall P (rows_from cid start day amount next l).
Proof.
  intros HP. induction l; intros; simpl; constructor; auto.
Qed.

Lemma insert_rows_lookup_other rows : forall m k,
  ~ In k (map installment_id rows) ->
  insert_rows rows m !! k = m !! k.
Proof.
  induction rows as [|r rows IH]; intros m k Hk; [reflexivity|].
  cbn [insert_rows fold_left]. fold (insert_rows rows (<[installment_id r := r]> m)).
  rewrite IH by (intros H; apply Hk; right; exact H).
  apply lookup_insert_ne. intros E. apply Hk. left. exact E.
Qed.

Lemma insert_rows_lookup rows : forall m r,
  NoDup (map installment_id rows) ->
  In r rows ->
  insert_rows rows m !! installment_id r = Some r.
Proof.
  induction rows as [|r0 rows IH]; intros m r Hnd Hr; [destruct Hr|].
  cbn [insert_rows fold_left]. fold (insert_rows rows (<[installment_id r0 := r0]> m)).
  cbn [map] in Hnd. apply NoDup_cons in Hnd as [Hnot Hnd].
  destruct Hr as [->|Hr].
  - rewrite insert_rows_lookup_other.
    + apply lookup_insert_eq.
    + intros H. apply Hnot. apply list_elem_of_In. exact H.
  - apply IH; assumption.
Qed.


(** The store and the rows a successful [createTransaction] produces. *)
Lemma createTransaction_inr now now' db input db' res :
  createTransaction now now' db input = inr (db', res) ->
  exists product customer sim,
    1 <= dueDateDay input <= 28 /\
    products db !! productId input = Some product /\
    product_is_active product = true /\
    0 < stock_qty product /\
    customers db !! customerId input = Some customer /\
    calculateSimulation db
      (mkSimulationInput (c_price input) (c_dp input) (c_schemeId input)
         (c_tenorMonths input)) = inr sim /\
    let rows :=
      rows_from (next_contract_id db) now' (dueDateDay input)
        (monthlyInstallment (raw sim)) (next_installment_id db)
        (seqZ 1 (c_tenorMonths input)) in
    cr_installments res = rows /\
    cr_contract res =
      mkCreditContract (next_contract_id db) (next_transaction_id db)
        (stored4 (principal (raw sim))) (stored4 (interestAmount (raw sim)))
        (stored4 (monthlyInstallment (raw sim)))
        now (dueDateDay input) (c_tenorMonths input) /\
    cr_transaction res =
      mkTransaction (next_transaction_id db) (customer_id customer)
        (product_id product) (customer_name customer) (phone customer)
        (nik customer) (c_price input) (c_dp input) (scheme sim) ACTIVE /\
    remainingStock (cr_product res) = stock_qty product - 1 /\
    products db' = alter (decrement_stock 1) (productId input) (products db) /\
    installments db' = insert_rows rows (installments db) /\
    contracts db' = <[next_contract_id db := cr_contract res]> (contracts db) /\
    transactions db'
      = <[next_transaction_id db := cr_transaction res]> (transactions db) /\
    schemes db' = schemes db /\ customers db' = customers db.
Proof.
  unfold createTransaction, calculateSimulationWithTx. intros H.
  destruct (Z.ltb_spec (dueDateDay input) 1); [discriminate|].
  destruct (Z.ltb_spec 28 (dueDateDay input)); [discriminate|].
  cbn [orb negb] in H.
  destruct (products db !! productId input) as [product|]; [|discriminate].
  destruct (product_is_active product) eqn:Hact; [|discriminate].
  destruct (Z.leb_spec (stock_qty product) 0); [discriminate|].
  cbn [negb] in H.
  destruct (customers db !! customerId input) as [customer|]; [|discriminate].
  destruct (calculateSimulation db _) as [|sim] eqn:Hsim; [discriminate|].
  cbn [bind] in H.
  rewrite fold_create_installment in H.
  inversion H; subst db' res; clear H.
  exists product, customer, sim. cbn.
  repeat (split; [first [reflexivity | lia | assumption]|]).
  split; reflexivity.
Qed.

Lemma toDecimalPlaces_0_dexp mode x : 0 <= dexp (toDecimalPlaces 0 mode x).
Proof.
  unfold toDecimalPlaces, drop_digits.
  destruct (Z.leb_spec (- dexp x - 0) 0); cbn [dexp]; lia.
Qed.

Lemma stored4_integral x : 0 <= dexp x -> stored4 x = x.
Proof.
  intros H. unfold stored4, toDecimalPlaces, drop_digits.
  destruct (Z.leb_spec (- dexp x - 4) 0); [reflexivity|lia].
Qed.

Lemma stored4_monthlyInstallment db input sim :
  calculateSimulation db input = inr sim ->
  stored4 (monthlyInstallment (raw sim)) = monthlyInstallment (raw sim).
Proof.
  intros H. destruct (calculateSimulation_inr db input sim H)
    as (s & _ & _ & _ & _ & _ & _ & Hraw).
  rewrite Hraw. cbv zeta. cbn [monthlyInstallment].
  apply stored4_integral, toDecimalPlaces_0_dexp.
Qed.

(** C2.  A successful createTransaction with a positive tenor returns
    exactly tenorMonths installment rows, numbered 1..tenorMonths in
    order, each with amount_due equal to the simulation's monthly
    installment (which is also the contract's) and status UNPAID; they
    are stored under tenorMonths consecutive fresh ids and no other
    installment row is touched. *)
Theorem createTransaction_schedule now now' db input db' res :
  createTransaction now now' db input = inr (db', res) ->
  0 < c_tenorMonths input ->
  let rows := cr_installments res in
  let n := c_tenorMonths input in
  Z.of_nat (length rows) = n /\
  map installment_nth rows = seqZ 1 n /\
  (exists sim,
     calculateSimulation db
       (mkSimulationInput (c_price input) (c_dp input) (c_schemeId input) n)
     = inr sim /\
     monthly_installment (cr_contract res) = monthlyInstallment (raw sim) /\
     Forall (fun r => amount_due r = monthlyInstallment (raw sim)) rows) /\
  Forall (fun r => Store.status r = UNPAID /\
                   inst_contract_id r = contract_id (cr_contract res)) rows /\
  map installment_id rows = seqZ (next_installment_id db) n /\
  (forall r, In r rows -> installments db' !! installment_id r = Some r) /\
  (forall k, ~ (next_installment_id db <= k < next_installment_id db + n) ->
             installments db' !! k = installments db !! k).
Proof.
  intros Hrun Hn rows n.
  destruct (createTransaction_inr _ _ _ _ _ _ Hrun)
    as (product & customer & sim & _ & _ & _ & _ & _ & Hsim & Hrest).
  cbv zeta in Hrest.
  destruct Hrest as (Hrows & Hc & _ & _ & _ & Hinst & _).
  unfold rows. rewrite Hrows, Hc. fold n. cbn [monthly_installment contract_id].
  assert (Hlen : Z.of_nat (length (seqZ 1 n)) = n) by (rewrite length_seqZ; lia).
  pose proof (stored4_monthlyInstallment _ _ _ Hsim) as Hst.
  split; [rewrite rows_from_length; exact Hlen|].
  split; [apply rows_from_nth|].
  split.
  { exists sim. split; [exact Hsim|]. split; [exact Hst|].
    apply rows_from_Forall. intros id i. cbn [amount_due]. exact Hst. }
  split.
  { apply rows_from_Forall. intros id i. cbn. split; reflexivity. }
  assert (Hids : map installment_id
                   (rows_from (next_contract_id db) now' (dueDateDay input)
                      (monthlyInstallment (raw sim)) (next_installment_id db)
                      (seqZ 1 n))
                 = seqZ (next_installment_id db) n).
  { rewrite rows_from_ids, Hlen. reflexivity. }
  split; [exact Hids|]. split.
  - intros r Hr. rewrite Hinst. apply insert_rows_lookup; [|exact Hr].
    fold n. rewrite Hids. apply NoDup_seqZ.
  - intros k Hk. rewrite Hinst. apply insert_rows_lookup_other.
    fold n. rewrite Hids. intros Hin. apply list_elem_of_In in Hin.
    apply elem_of_seqZ in Hin. lia.
Qed.


Lemma createTransaction_schedule_witness :
  exists db' res,
    createTransaction Sample.jan15 Sample.jan15 Sample.db
      (mkCreateTransactionInput 7 5 (of_Z 4500000) (of_Z 500000) 1 6 5)
    = inr (db', res) /\
    Z.of_nat (length (cr_installments res)) = 6 /\
    map installment_nth (cr_installments res) = [1; 2; 3; 4; 5; 6] /\
    Forall (fun r => Store.status r = UNPAID /\
                     inst_contract_id r = contract_id (cr_contract res))
           (cr_installments res).
Proof.
  destruct (createTransaction Sample.jan15 Sample.jan15 Sample.db
              (mkCreateTransactionInput 7 5 (of_Z 4500000) (of_Z 500000) 1 6 5))
    as [msg|[db' res]] eqn:E; [vm_compute in E; discriminate|].
  exists db', res. split; [reflexivity|].
  destruct (createTransaction_schedule _ _ _ _ _ _ E eq_refl)
    as (H1 & H2 & _ & H4 & _).
  split; [exact H1|]. split; [exact H2|exact H4].
Defined.

(** *** Stock *)

Lemma createTransaction_stock now now' db input db' res q :
  createTransaction now now' db input = inr (db', res) ->
  products db' !! q =
    if decide (q = productId input)
    then decrement_stock 1 <$> products db !! q
    else products db !! q.
Proof.
  intros Hrun.
  destruct (createTransaction_inr _ _ _ _ _ _ Hrun)
    as (product & customer & sim & _ & _ & _ & _ & _ & _ & Hrest).
  cbv zeta in Hrest. destruct Hrest as (_ & _ & _ & _ & Hp & _).
  rewrite Hp. destruct (decide (q = productId input)) as [->|Hne].
  - apply lookup_alter_eq.
  - apply lookup_alter_ne. congruence.
Qed.

Lemma createTransaction_out_of_stock now now' db input p :
  products db !! productId input = Some p ->
  stock_qty p <= 0 ->
  exists msg, createTransaction now now' db input = inl msg.
Proof.
  intros Hp Hs. unfold createTransaction.
  destruct (negb _); [|eexists; reflexivity].
  rewrite Hp. destruct (product_is_active p); [|eexists; reflexivity].
  destruct (Z.leb_spec (stock_qty p) 0); [|lia].
  eexists; reflexivity.
Qed.

Lemma run_all_stock pid calls : forall db p,
  products db !! pid = Some p ->
  exists p',
    products (run_all db calls) !! pid = Some p' /\
    stock_qty p' = stock_qty p - successes_on pid db calls.
Proof.
  induction calls as [|[[now now'] input] calls IH]; intros db p Hp.
  - exists p. split; [exact Hp|]. simpl. lia.
  - cbn [run_all fold_left successes_on run_create].
    fold (run_all (run_create db (now, now', input)) calls).
    cbn [run_create].
    destruct (createTransaction now now' db input) as [msg|[db' res]] eqn:E.
    + apply IH. exact Hp.
    + pose proof (createTransaction_stock _ _ _ _ _ _ pid E) as Hq.
      destruct (decide (pid = productId input)) as [Heq|Hne].
      * rewrite Hp in Hq. cbn in Hq.
        destruct (IH db' _ Hq) as (p' & Hp' & Hs).
        exists p'. split; [exact Hp'|].
        destruct (Z.eqb_spec (productId input) pid); [|congruence].
        rewrite Hs. cbn [decrement_stock stock_qty]. lia.
      * rewrite Hp in Hq.
        destruct (IH db' _ Hq) as (p' & Hp' & Hs).
        exists p'. split; [exact Hp'|].
        destruct (Z.eqb_spec (productId input) pid); [congruence|].
        rewrite Hs. lia.
Qed.

(** C6.  For a product in the store: a successful createTransaction on
    it lowers its stock_qty by exactly 1; after any sequence of requests
    its stock_qty is the initial one minus the number of successful
    requests on it; and while its stock_qty is 0 every request on it
    fails, which leaves the whole store (product, transactions,
    contracts, installments) as it was. *)
Theorem stock_monotonicity db pid p :
  products db !! pid = Some p ->
  (forall now now' input db' res,
      productId input = pid ->
      createTransaction now now' db input = inr (db', res) ->
      exists p', products db' !! pid = Some p' /\
                 stock_qty p' = stock_qty p - 1) /\
  (forall calls,
      exists p', products (run_all db calls) !! pid = Some p' /\
                 stock_qty p' = stock_qty p - successes_on pid db calls) /\
  (stock_qty p = 0 ->
   forall now now' input,
      productId input = pid ->
      (exists msg, createTransaction now now' db input = inl msg) /\
      run_create db (now, now', input) = db).
Proof.
  intros Hp. split; [|split].
  - intros now now' input db' res Hpid Hrun. subst pid.
    pose proof (createTransaction_stock _ _ _ _ _ _ (productId input) Hrun) as Hq.
    rewrite decide_True in Hq by reflexivity.
    rewrite Hp in Hq. eexists. split; [exact Hq|]. cbn. lia.
  - intros calls. apply run_all_stock. exact Hp.
  - intros Hs now now' input Hpid. subst pid.
    destruct (createTransaction_out_of_stock now now' db input p Hp ltac:(lia))
      as [msg Hmsg].
    split; [exists msg; exact Hmsg|].
    unfold run_create. rewrite Hmsg. reflexivity.
Qed.

Lemma stock_monotonicity_witness :
  exists p',
    products
      (run_all Sample.db
         [(Sample.jan15, Sample.jan15,
           mkCreateTransactionInput 7 5 (of_Z 4500000) (of_Z 500000) 1 6 5);
          (Sample.jan15, Sample.jan15,
           mkCreateTransactionInput 7 5 (of_Z 4500000) (of_Z 100000) 1 6 5);
          (Sample.jan15, Sample.jan15,
           mkCreateTransactionInput 7 5 (of_Z 4500000) (of_Z 900000) 1 3 5);
          (Sample.jan15, Sample.jan15,
           mkCreateTransactionInput 7 5 (of_Z 4500000) (of_Z 900000) 1 3 5)])
      !! 7 = Some p' /\
    stock_qty p' = 2 - 2.
Proof.
  assert (Hk : products Sample.db !! 7 = Some Sample.kulkas)
    by (vm_compute; reflexivity).
  destruct (stock_monotonicity Sample.db 7 Sample.kulkas Hk) as (_ & H & _).
  destruct (H [(Sample.jan15, Sample.jan15,
                mkCreateTransactionInput 7 5 (of_Z 4500000) (of_Z 500000) 1 6 5);
               (Sample.jan15, Sample.jan15,
                mkCreateTransactionInput 7 5 (of_Z 4500000) (of_Z 100000) 1 6 5);
               (Sample.jan15, Sample.jan15,
                mkCreateTransactionInput 7 5 (of_Z 4500000) (of_Z 900000) 1 3 5);
               (Sample.jan15, Sample.jan15,
                mkCreateTransactionInput 7 5 (of_Z 4500000) (of_Z 900000) 1 3 5)])
    as (p' & Hp' & Hs).
  exists p'. split; [exact Hp'|]. rewrite Hs. vm_compute. reflexivity.
Defined.

End CreateFacts.

(** ** Payment state machine *)

Section PaymentFacts.

Import Dec Store Text Credit Payment Ledger.
Local Open Scope Z_scope.

Lemma keyed_by_id_spec db :
  keyed_by_id db = true ->
  forall k r, installments db !! k = Some r -> installment_id r = k.
Proof.
  unfold keyed_by_id. rewrite forallb_forall. intros H k r Hk.
  apply Z.eqb_eq. apply (H (k, r)). apply list_elem_of_In.
  apply elem_of_map_to_list. exact Hk.
Qed.

Lemma status_eqb_PAID s : InstallmentStatus_eqb s PAID = true <-> s = PAID.
Proof. destruct s; simpl; split; congruence. Qed.

Lemma forallb_installments_of (f : Installment -> bool) db cid :
  forallb f (installments_of db cid) = true <->
  (forall k r, installments db !! k = Some r -> inst_contract_id r = cid -> f r = true).
Proof.
  unfold installments_of. rewrite forallb_forall. split.
  - intros H k r Hk Hc. apply H. apply list_elem_of_In.
    apply list_elem_of_filter. split; [exact Hc|].
    apply list_elem_of_fmap. exists (k, r). split; [reflexivity|].
    apply elem_of_map_to_list. exact Hk.
  - intros H r Hr. apply list_elem_of_In in Hr.
    apply list_elem_of_filter in Hr as [Hc Hr].
    apply list_elem_of_fmap in Hr as [[k r'] [-> Hr]].
    apply elem_of_map_to_list in Hr. simpl in *. eapply H; eauto.
Qed.

(** Outcome of the unit of work on an installment that is not PAID. *)
Lemma pay_unit_of_work_unpaid now db id inst c :
  installments db !! id = Some inst ->
  Store.status inst <> PAID ->
  contracts db !! inst_contract_id inst = Some c ->
  pay_unit_of_work now db id =
    let tx := with_installments db
                (alter (mark_paid now (amount_due inst)) id (installments db))
                (next_installment_id db) in
    if forallb (fun i => if installment_id i =? id then true
                         else InstallmentStatus_eqb (Store.status i) PAID)
               (installments_of db (inst_contract_id inst))
    then match transactions db !! contract_transaction_id c with
         | None => inl "Record to update not found."%string
         | Some _ =>
             inr (with_transactions tx
                    (alter (set_status_tx TX_PAID) (contract_transaction_id c)
                       (transactions db))
                    (next_transaction_id db))
         end
    else inr tx.
Proof.
  intros Hi Hs Hc. unfold pay_unit_of_work. rewrite Hi.
  destruct (InstallmentStatus_eqb (Store.status inst) PAID) eqn:E.
  - apply status_eqb_PAID in E. contradiction.
  - simpl. rewrite Hc. reflexivity.
Qed.

Lemma lookup_paid now db id inst :
  installments db !! id = Some inst ->
  alter (mark_paid now (amount_due inst)) id (installments db) !! id
  = Some (mark_paid now (amount_due inst) inst).
Proof. intros H. rewrite lookup_alter_eq, H. reflexivity. Qed.

(** The in-memory check of the siblings agrees with the stored rows
    after the update. *)
Lemma allPaid_iff_settled now db id inst :
  keyed_by_id db = true ->
  installments db !! id = Some inst ->
  forallb (fun i => if installment_id i =? id then true
                    else InstallmentStatus_eqb (Store.status i) PAID)
          (installments_of db (inst_contract_id inst))
  = contract_settled
        (with_installments db
           (alter (mark_paid now (amount_due inst)) id (installments db))
           (next_installment_id db))
        (inst_contract_id inst).
Proof.
  intros Hkey Hi. pose proof (keyed_by_id_spec db Hkey) as Hk'. clear Hkey.
  rename Hk' into Hkey.
  apply eq_true_iff_eq.
  unfold contract_settled. rewrite !forallb_installments_of. simpl.
  split.
  - intros H k r Hk Hc. destruct (decide (k = id)) as [->|Hne].
    + rewrite lookup_alter_eq, Hi in Hk. simpl in Hk. inversion Hk. reflexivity.
    + rewrite lookup_alter_ne in Hk by congruence.
      specialize (H k r Hk Hc). rewrite (Hkey k r Hk) in H.
      destruct (Z.eqb_spec k id); [contradiction|].
      exact H.
  - intros H k r Hk Hc. rewrite (Hkey k r Hk).
    destruct (Z.eqb_spec k id) as [->|Hne]; [reflexivity|].
    apply (H k r); [|exact Hc].
    rewrite lookup_alter_ne by congruence. exact Hk.
Qed.

(** The in-memory check of the siblings, read on the stored rows: every
    installment of the contract other than the one being paid is PAID. *)
Lemma allPaid_iff_siblings db id cid :
  keyed_by_id db = true ->
  forallb (fun i => if installment_id i =? id then true
                    else InstallmentStatus_eqb (Store.status i) PAID)
          (installments_of db cid) = true <->
  (forall k r, installments db !! k = Some r -> inst_contract_id r = cid ->
               k <> id -> Store.status r = PAID).
Proof.
  intros Hkey. pose proof (keyed_by_id_spec db Hkey) as Hk.
  rewrite forallb_installments_of. split.
  - intros H k r Hr Hc Hne. specialize (H k r Hr Hc). rewrite (Hk k r Hr) in H.
    destruct (Z.eqb_spec k id); [contradiction|]. apply status_eqb_PAID. exact H.
  - intros H k r Hr Hc. rewrite (Hk k r Hr).
    destruct (Z.eqb_spec k id); [reflexivity|].
    apply status_eqb_PAID. apply (H k r); assumption.
Qed.

(** The same condition as a test on the rows of a given store. *)
Lemma siblings_paid_check db id cid :
  forallb (fun kr => if (inst_contract_id (snd kr) =? cid) && negb (fst kr =? id)
                     then InstallmentStatus_eqb (Store.status (snd kr)) PAID
                     else true)
          (map_to_list (installments db)) = true ->
  forall k r, installments db !! k = Some r -> inst_contract_id r = cid ->
              k <> id -> Store.status r = PAID.
Proof.
  rewrite forallb_forall. intros H k r Hr Hc Hne.
  specialize (H (k, r)). cbn [fst snd] in H.
  rewrite (proj2 (Z.eqb_eq _ _) Hc), (proj2 (Z.eqb_neq _ _) Hne) in H.
  apply status_eqb_PAID. apply H.
  apply list_elem_of_In, elem_of_map_to_list. exact Hr.
Qed.

(** C4.  A payment request that is answered 200 turns the row it pays
    PAID and leaves every other installment as it was.  When every other
    installment of the contract was PAID before the call, the same call
    sets the status of the parent transaction to PAID and changes no
    other field of it; when some other installment of the contract was
    not PAID, the transactions are left exactly as they were, so the
    parent keeps its status however many installments have been paid.
    No other transaction is touched in either case. *)
Theorem payInstallment_completion now db id db' resp inst c t :
  keyed_by_id db = true ->
  installments db !! id = Some inst ->
  contracts db !! inst_contract_id inst = Some c ->
  transactions db !! contract_transaction_id c = Some t ->
  payInstallment now db (Some id) = (db', resp) ->
  Payment.status resp = 200 ->
  (exists inst',
     installments db' !! id = Some inst' /\ Store.status inst' = PAID) /\
  (forall k, k <> id -> installments db' !! k = installments db !! k) /\
  ((forall k r, installments db !! k = Some r ->
                inst_contract_id r = inst_contract_id inst ->
                k <> id -> Store.status r = PAID) ->
   exists t',
     transactions db' !! contract_transaction_id c = Some t' /\
     tx_status t' = TX_PAID /\
     transaction_id t' = transaction_id t /\
     tx_customerId t' = tx_customerId t /\
     tx_productId t' = tx_productId t /\
     tx_customer_name t' = tx_customer_name t /\
     tx_customer_phone t' = tx_customer_phone t /\
     tx_customer_ktp t' = tx_customer_ktp t /\
     total_price t' = total_price t /\
     dp_amount t' = dp_amount t /\
     scheme_snapshot t' = scheme_snapshot t) /\
  (forall k r, installments db !! k = Some r ->
               inst_contract_id r = inst_contract_id inst ->
               k <> id -> Store.status r <> PAID ->
               transactions db' = transactions db) /\
  (forall k, k <> contract_transaction_id c ->
             transactions db' !! k = transactions db !! k).
Proof.
  intros Hkey Hi Hc Ht Hcall H200.
  unfold payInstallment in Hcall.
  destruct (pay_unit_of_work now db id) as [msg|db1] eqn:Hrun;
    inversion Hcall; subst; [cbn in H200; discriminate|].
  clear Hcall H200.
  assert (Hs : Store.status inst <> PAID).
  { intros E. unfold pay_unit_of_work in Hrun. rewrite Hi, E in Hrun.
    simpl in Hrun. discriminate. }
  rewrite (pay_unit_of_work_unpaid now db id inst c Hi Hs Hc) in Hrun.
  cbv zeta in Hrun.
  pose proof (allPaid_iff_siblings db id (inst_contract_id inst) Hkey) as Hall.
  destruct (forallb _ _).
  - rewrite Ht in Hrun. inversion Hrun; subst db'; clear Hrun.
    cbn [installments transactions with_installments with_transactions].
    split.
    { exists (mark_paid now (amount_due inst) inst).
      rewrite lookup_alter_eq, Hi. split; reflexivity. }
    split; [intros k Hk; apply lookup_alter_ne; congruence|].
    split.
    { intros _. exists (set_status_tx TX_PAID t).
      rewrite lookup_alter_eq, Ht. cbn. repeat split. }
    split.
    { intros k r Hr Hcid Hne Hunpaid. exfalso. apply Hunpaid.
      apply (proj1 Hall eq_refl k r); assumption. }
    intros k Hk. apply lookup_alter_ne. congruence.
  - inversion Hrun; subst db'; clear Hrun.
    cbn [installments transactions with_installments].
    split.
    { exists (mark_paid now (amount_due inst) inst).
      rewrite lookup_alter_eq, Hi. split; reflexivity. }
    split; [intros k Hk; apply lookup_alter_ne; congruence|].
    split.
    { intros Hsib. apply (proj2 Hall) in Hsib. discriminate. }
    split; [intros; reflexivity|intros; reflexivity].
Qed.

Lemma payInstallment_completion_witness :
  (exists r2,
     installments Sample.db_sold !! 2 = Some r2 /\ Store.status r2 = UNPAID /\
     transactions (fst (payInstallment Sample.jan31 Sample.db_sold (Some 1)))
     = transactions Sample.db_sold) /\
  (tx_status <$> transactions Sample.db_two_paid !! 1 = Some ACTIVE /\
   exists t',
     transactions (fst (payInstallment Sample.jan31 Sample.db_two_paid (Some 3))) !! 1
     = Some t' /\
     tx_status t' = TX_PAID).
Proof.
  split.
  - destruct (installments Sample.db_sold !! 1) as [r1|] eqn:E1;
      [|vm_compute in E1; discriminate].
    destruct (installments Sample.db_sold !! 2) as [r2|] eqn:E2;
      [|vm_compute in E2; discriminate].
    destruct (contracts Sample.db_sold !! inst_contract_id r1) as [c|] eqn:Ec.
    2:{ exfalso. vm_compute in E1. inversion E1; subst r1. vm_compute in Ec.
        discriminate. }
    destruct (transactions Sample.db_sold !! contract_transaction_id c) as [t|] eqn:Et.
    2:{ exfalso. vm_compute in E1. inversion E1; subst r1. vm_compute in Ec.
        inversion Ec; subst c. vm_compute in Et. discriminate. }
    assert (Hk : keyed_by_id Sample.db_sold = true) by (vm_compute; reflexivity).
    assert (H200 : Payment.status
                     (snd (payInstallment Sample.jan31 Sample.db_sold (Some 1))) = 200)
      by (vm_compute; reflexivity).
    assert (Hc2 : inst_contract_id r2 = inst_contract_id r1).
    { vm_compute in E1, E2. inversion E1; inversion E2. reflexivity. }
    assert (Hs2 : Store.status r2 = UNPAID).
    { vm_compute in E2. inversion E2. reflexivity. }
    exists r2. split; [reflexivity|]. split; [exact Hs2|].
    destruct (payInstallment_completion Sample.jan31 Sample.db_sold 1 _ _ r1 c t
                Hk E1 Ec Et (surjective_pairing _) H200)
      as (_ & _ & _ & Hkeep & _).
    apply (Hkeep 2 r2 E2 Hc2); [discriminate|].
    rewrite Hs2. discriminate.
  - split; [vm_compute; reflexivity|].
    destruct (installments Sample.db_two_paid !! 3) as [r3|] eqn:E3;
      [|vm_compute in E3; discriminate].
    destruct (contracts Sample.db_two_paid !! inst_contract_id r3) as [c|] eqn:Ec.
    2:{ exfalso. vm_compute in E3. inversion E3; subst r3. vm_compute in Ec.
        discriminate. }
    destruct (transactions Sample.db_two_paid !! contract_transaction_id c)
      as [t|] eqn:Et.
    2:{ exfalso. vm_compute in E3. inversion E3; subst r3. vm_compute in Ec.
        inversion Ec; subst c. vm_compute in Et. discriminate. }
    assert (Hk : keyed_by_id Sample.db_two_paid = true) by (vm_compute; reflexivity).
    assert (H200 : Payment.status
                     (snd (payInstallment Sample.jan31 Sample.db_two_paid (Some 3)))
                   = 200)
      by (vm_compute; reflexivity).
    assert (Hsib : forall k r, installments Sample.db_two_paid !! k = Some r ->
                     inst_contract_id r = inst_contract_id r3 ->
                     k <> 3 -> Store.status r = PAID).
    { apply siblings_paid_check. vm_compute in E3. inversion E3; subst r3.
      vm_compute. reflexivity. }
    assert (Htid : contract_transaction_id c = 1).
    { vm_compute in E3. inversion E3; subst r3. vm_compute in Ec.
      inversion Ec. reflexivity. }
    destruct (payInstallment_completion Sample.jan31 Sample.db_two_paid 3 _ _ r3 c t
                Hk E3 Ec Et (surjective_pairing _) H200)
      as (_ & _ & Hdone & _).
    destruct (Hdone Hsib) as (t' & Ht' & Hpaid & _).
    exists t'. rewrite <- Htid. split; assumption.
Defined.

(** A payment on a row that is not PAID goes through when the row's
    contract and (if needed) its transaction are present. *)
Lemma pay_unit_of_work_succeeds now db id inst c :
  installments db !! id = Some inst ->
  Store.status inst <> PAID ->
  contracts db !! inst_contract_id inst = Some c ->
  is_Some (transactions db !! contract_transaction_id c) ->
  exists db',
    pay_unit_of_work now db id = inr db' /\
    installments db' !! id = Some (mark_paid now (amount_due inst) inst) /\
    contracts db' = contracts db.
Proof.
  intros Hi Hs Hc [t Ht].
  rewrite (pay_unit_of_work_unpaid now db id inst c Hi Hs Hc). cbv zeta.
  destruct (forallb _ _).
  - rewrite Ht. eexists. split; [reflexivity|]. simpl. split; [|reflexivity].
    apply lookup_paid. exact Hi.
  - eexists. split; [reflexivity|]. simpl. split; [|reflexivity].
    apply lookup_paid. exact Hi.
Qed.

Lemma pay_unit_of_work_already_paid now db id inst :
  installments db !! id = Some inst ->
  Store.status inst = PAID ->
  pay_unit_of_work now db id = inl "Installment is already paid"%string.
Proof.
  intros Hi Hs. unfold pay_unit_of_work. rewrite Hi, Hs. reflexivity.
Qed.



(** C10.  The status test rejects PAID only.  An installment in any
    other status, PARTIAL and LATE included, is accepted and moved to
    PAID with amount_paid set to the full amount_due, whatever
    amount_paid held before; a PAID one is refused. *)
Theorem payInstallment_rejects_only_paid now db id inst c :
  installments db !! id = Some inst ->
  contracts db !! inst_contract_id inst = Some c ->
  is_Some (transactions db !! contract_transaction_id c) ->
  (Store.status inst = PAID ->
     payInstallment now db (Some id)
       = (db, Payment.mkResponse 400 false "Installment is already paid")) /\
  (Store.status inst <> PAID ->
     exists db' inst',
       payInstallment now db (Some id)
         = (db', Payment.mkResponse 200 true "Payment received successfully") /\
       installments db' !! id = Some inst' /\
       Store.status inst' = PAID /\
       amount_paid inst' = amount_due inst).
Proof.
  intros Hi Hc Ht. split.
  - intros Hs. unfold payInstallment.
    rewrite (pay_unit_of_work_already_paid now db id inst Hi Hs). reflexivity.
  - intros Hn.
    destruct (pay_unit_of_work_succeeds now db id inst c Hi Hn Hc Ht)
      as (db' & Hrun & Hrow & _).
    exists db', (mark_paid now (amount_due inst) inst).
    unfold payInstallment. rewrite Hrun. repeat split. exact Hrow.
Qed.

Lemma payInstallment_rejects_only_paid_witness :
  Store.status (mkInstallment 1 1 1 Sample.jan31 (of_Z 100) (of_Z 40)
                  (of_Z 0) (of_Z 0) PARTIAL None) = PARTIAL /\
  exists db' inst',
    payInstallment Sample.jan31
      (with_installments Sample.db_sold
         (<[1 := mkInstallment 1 1 1 Sample.jan31 (of_Z 100) (of_Z 40)
                   (of_Z 0) (of_Z 0) PARTIAL None]>
            (installments Sample.db_sold))
         (next_installment_id Sample.db_sold))
      (Some 1)
    = (db', Payment.mkResponse 200 true "Payment received successfully") /\
    installments db' !! 1 = Some inst' /\
    Store.status inst' = PAID /\
    amount_paid inst' = of_Z 100.
Proof.
  split; [reflexivity|].
  eapply (payInstallment_rejects_only_paid Sample.jan31 _ 1
            (mkInstallment 1 1 1 Sample.jan31 (of_Z 100) (of_Z 40)
               (of_Z 0) (of_Z 0) PARTIAL None)).
  - vm_compute. reflexivity.
  - vm_compute. reflexivity.
  - vm_compute. eexists. reflexivity.
  - vm_compute. discriminate.
Defined.

(** Paying the three installments of the sample sale one after the
    other: the transaction stays ACTIVE after the first two payments and
    is PAID after the third. *)
Example pay_all_three :
  let pay db id := fst (payInstallment Sample.jan31 db (Some id)) in
  let db1 := pay Sample.db_sold 1 in
  let db2 := pay db1 2 in
  let db3 := pay db2 3 in
  tx_status <$> transactions Sample.db_sold !! 1 = Some ACTIVE /\
  tx_status <$> transactions db1 !! 1 = Some ACTIVE /\
  tx_status <$> transactions db2 !! 1 = Some ACTIVE /\
  tx_status <$> transactions db3 !! 1 = Some TX_PAID.
Proof. vm_compute. repeat split. Qed.

End PaymentFacts.

(** ** The primary-key invariant is kept by both units of work *)

Section KeyInvariant.
Import Dec Store Text Credit Payment Ledger.

Lemma keyed_by_id_intro db :
  (forall k r, installments db !! k = Some r -> installment_id r = k) ->
  keyed_by_id db = true.
Proof.
  intros H. unfold keyed_by_id. apply forallb_forall. intros [k r] Hin.
  apply list_elem_of_In, elem_of_map_to_list in Hin.
  apply Z.eqb_eq. apply H. exact Hin.
Qed.

Lemma insert_rows_inv rows : forall m k r,
  insert_rows rows m !! k = Some r ->
  m !! k = Some r \/ installment_id r = k.
Proof.
  induction rows as [|r0 rows IH]; intros m k r H; [left; exact H|].
  cbn [insert_rows fold_left] in H.
  fold (insert_rows rows (<[installment_id r0 := r0]> m)) in H.
  destruct (IH _ _ _ H) as [H'|H']; [|right; exact H'].
  destruct (decide (installment_id r0 = k)) as [E|E].
  - subst k. rewrite lookup_insert_eq in H'. inversion H'; subst. right. reflexivity.
  - rewrite lookup_insert_ne in H' by exact E. left. exact H'.
Qed.

Lemma createTransaction_keyed now now' db input db' res :
  keyed_by_id db = true ->
  createTransaction now now' db input = inr (db', res) ->
  keyed_by_id db' = true.
Proof.
  intros Hk Hrun. apply keyed_by_id_intro. intros k r Hr.
  destruct (createTransaction_inr _ _ _ _ _ _ Hrun)
    as (product & customer & sim & _ & _ & _ & _ & _ & _ & Hrest).
  cbv zeta in Hrest. destruct Hrest as (_ & _ & _ & _ & _ & Hi & _).
  rewrite Hi in Hr. apply insert_rows_inv in Hr as [Hr|Hr]; [|exact Hr].
  apply (keyed_by_id_spec db Hk). exact Hr.
Qed.

Lemma pay_unit_of_work_keyed now db id db' :
  keyed_by_id db = true ->
  pay_unit_of_work now db id = inr db' ->
  keyed_by_id db' = true.
Proof.
  intros Hk Hrun. pose proof (keyed_by_id_spec db Hk) as Hkey.
  unfold pay_unit_of_work in Hrun.
  destruct (installments db !! id) as [inst|] eqn:Hi; [|discriminate].
  destruct (negb _); [|discriminate].
  destruct (contracts db !! inst_contract_id inst) as [c|]; [|discriminate].
  assert (Hrows : forall k r,
             alter (mark_paid now (amount_due inst)) id (installments db) !! k
             = Some r -> installment_id r = k).
  { intros k r Hr. destruct (decide (k = id)) as [->|Hne].
    - rewrite lookup_alter_eq, Hi in Hr. inversion Hr; subst r.
      cbn [mark_paid installment_id]. apply Hkey. exact Hi.
    - rewrite lookup_alter_ne in Hr by congruence. apply Hkey. exact Hr. }
  destruct (forallb _ _).
  - destruct (transactions _ !! _); [|discriminate].
    inversion Hrun; subst db'. apply keyed_by_id_intro. exact Hrows.
  - inversion Hrun; subst db'. apply keyed_by_id_intro. exact Hrows.
Qed.

End KeyInvariant.

(** ** Schedule dates *)

Section DueDates.
Import Dec Store Text Credit Ledger JsDate.

Lemma days_in_month_ge_28 y m : 28 <= days_in_month y m.
Proof.
  unfold days_in_month.
  destruct (m =? 1); [destruct (is_leap y); lia|].
  destruct (_ || _); lia.
Qed.

Lemma prev_month_range y m :
  0 <= m < 12 -> 0 <= snd (prev_month y m) < 12.
Proof.
  intros Hm. unfold prev_month. destruct (Z.eqb_spec m 0); cbn [snd]; lia.
Qed.

Lemma next_month_range y m :
  0 <= m < 12 -> 0 <= snd (next_month y m) < 12.
Proof.
  intros Hm. unfold next_month. destruct (Z.eqb_spec m 11); cbn [snd]; lia.
Qed.

Lemma days_in_month_le_31 y m : days_in_month y m <= 31.
Proof.
  unfold days_in_month.
  destruct (m =? 1); [destruct (is_leap y); lia|].
  destruct (_ || _); lia.
Qed.

(** The carrying loop ends on a day of the month it ends in, provided
    the fuel covers the distance in steps of 28 days. *)
Lemma carry_day_normal fuel : forall y m d,
  0 <= m < 12 ->
  (d < 1 -> (- d) / 28 + 1 <= Z.of_nat fuel) ->
  (1 <= d -> d <= days_in_month y m \/ (d - 1) / 28 <= Z.of_nat fuel) ->
  let '(y', m', d') := carry_day fuel y m d in
  0 <= m' < 12 /\ 1 <= d' <= days_in_month y' m'.
Proof.
  induction fuel as [|f IH]; intros y m d Hm Hlow Hhigh.
  - cbn [carry_day]. split; [exact Hm|].
    destruct (Z.lt_ge_cases d 1) as [Hd|Hd].
    + specialize (Hlow Hd). pose proof (Z.div_pos (- d) 28 ltac:(lia) ltac:(lia)).
      cbn in Hlow. lia.
    + destruct (Hhigh Hd) as [H|H]; [lia|].
      pose proof (days_in_month_ge_28 y m).
      assert (d - 1 < 28); [|lia].
      destruct (Z.lt_ge_cases (d - 1) 28) as [|Hge]; [assumption|exfalso].
      assert (1 <= (d - 1) / 28) by (apply Z.div_le_lower_bound; lia).
      cbn in H. lia.
  - cbn [carry_day]. rewrite Nat2Z.inj_succ in Hlow, Hhigh.
    destruct (Z.ltb_spec d 1) as [Hd|Hd].
    + (* borrow from the previous month *)
      destruct (prev_month y m) as [y' m'] eqn:Ep.
      pose proof (prev_month_range y m Hm) as Hm'. rewrite Ep in Hm'. cbn [snd] in Hm'.
      pose proof (days_in_month_ge_28 y' m') as H28.
      pose proof (days_in_month_le_31 y' m') as H31.
      specialize (Hlow Hd).
      apply IH; [exact Hm'| |].
      * intros Hneg.
        assert ((- (d + days_in_month y' m')) / 28 <= (- d - 28) / 28)
          by (apply Z.div_le_mono; lia).
        replace (- d - 28) with (- d + (-1) * 28) in H by lia.
        rewrite Z.div_add in H by lia. lia.
      * intros _. left. lia.
    + destruct (Z.ltb_spec (days_in_month y m) d) as [Hover|Hfit].
      * (* carry into the next month *)
        destruct (next_month y m) as [y' m'] eqn:En.
        pose proof (next_month_range y m Hm) as Hm'. rewrite En in Hm'. cbn [snd] in Hm'.
        pose proof (days_in_month_ge_28 y m) as H28.
        destruct (Hhigh Hd) as [H|H]; [lia|].
        apply IH; [exact Hm'| |].
        -- intros Hneg. lia.
        -- intros _. right.
           assert ((d - days_in_month y m - 1) / 28 <= (d - 1 - 28) / 28)
             by (apply Z.div_le_mono; lia).
           replace (d - 1 - 28) with (d - 1 + (-1) * 28) in H0 by lia.
           rewrite Z.div_add in H0 by lia. lia.
      * split; [exact Hm|]. lia.
Qed.

(** [make_day] always yields a calendar date. *)
Lemma make_day_valid y m d :
  let '(y', m', d') := make_day y m d in
  0 <= m' < 12 /\ 1 <= d' <= days_in_month y' m'.
Proof.
  unfold make_day. apply carry_day_normal.
  - apply Z.mod_pos_bound. lia.
  - intros Hd. rewrite Nat2Z.inj_succ, Z2Nat.id
      by (apply Z.div_pos; lia).
    rewrite Z.abs_neq by lia. lia.
  - intros Hd. right. rewrite Nat2Z.inj_succ, Z2Nat.id
      by (apply Z.div_pos; lia).
    rewrite Z.abs_eq by lia.
    assert ((d - 1) / 28 <= d / 28) by (apply Z.div_le_mono; lia). lia.
Qed.

Lemma make_day_regular y m d :
  1 <= d <= 28 -> make_day y m d = (y + m / 12, m mod 12, d).
Proof.
  intros Hd. unfold make_day. cbn [carry_day].
  destruct (Z.ltb_spec d 1); [lia|].
  pose proof (days_in_month_ge_28 (y + m / 12) (m mod 12)).
  destruct (Z.ltb_spec (days_in_month (y + m / 12) (m mod 12)) d); [lia|].
  reflexivity.
Qed.

(** When the clock reading falls on day 1..28, the loop computes the
    date of the schedule rule. *)
Lemma due_date_of_regular start day i :
  1 <= JsDate.day start <= 28 ->
  0 <= month start < 12 ->
  1 <= day <= 28 ->
  due_date_of start day i = Exact.due_date start day i.
Proof.
  intros Hs Hm Hd. unfold due_date_of, Exact.due_date, setHours, setDate,
    setMonth, getMonth, with_day.
  rewrite (make_day_regular _ _ (JsDate.day start)) by exact Hs.
  cbn [year month JsDate.day hours minutes seconds millis].
  rewrite make_day_regular by exact Hd.
  cbn [year month JsDate.day hours minutes seconds millis].
  pose proof (Z.mod_pos_bound (month start + i) 12 ltac:(lia)).
  rewrite (Z.div_small ((month start + i) mod 12) 12) by lia.
  rewrite Z.mod_mod by lia. f_equal. lia.
Qed.

(** C9 at a failing input.  A sale made on 31 January with due day 5:
    [setMonth] carries the 31st of a shorter month into the next one, so
    the three installments fall due on 5 March, 5 March and 5 May, while
    the schedule rule puts them on 5 February, 5 March and 5 April. *)
Theorem createTransaction_month_end_schedule :
  exists db' res,
    createTransaction Sample.jan31 Sample.jan31 Sample.db Sample.sale
      = inr (db', res) /\
    start_date (cr_contract res) = Sample.jan31 /\
    map due_date (cr_installments res)
      = [mkDate 2025 2 5 0 0 0 0; mkDate 2025 2 5 0 0 0 0; mkDate 2025 4 5 0 0 0 0] /\
    map (Exact.due_date Sample.jan31 5) [1; 2; 3]
      = [mkDate 2025 1 5 0 0 0 0; mkDate 2025 2 5 0 0 0 0; mkDate 2025 3 5 0 0 0 0].
Proof.
  eexists _, _. split; [vm_compute; reflexivity|].
  vm_compute. repeat split.
Qed.

End DueDates.

(** ** Request handlers *)

Section Handlers.
Import Dec Store Text Credit Ledger Http Reply.
Local Open Scope string_scope.
Local Open Scope Z_scope.

Lemma includes_app_r needle a b :
  includes needle b = true -> includes needle (a ++ b) = true.
Proof.
  intros H. induction a as [|c a IH]; [exact H|].
  change (String c a ++ b) with (String c (a ++ b)).
  cbn [includes]. rewrite IH. apply orb_true_r.
Qed.

(** Unknown product, customer or scheme: 404 for every id. *)
Lemma error_status_not_found id :
  error_status ("Produk dengan ID " ++ string_of_Z id ++ " tidak ditemukan") = 404 /\
  error_status ("Customer dengan ID " ++ string_of_Z id ++ " tidak ditemukan") = 404 /\
  error_status (msg_scheme_not_found id) = 404.
Proof.
  unfold error_status, msg_scheme_not_found. repeat split.
  - rewrite (includes_app_r "tidak ditemukan" "Produk dengan ID ")
      by (apply includes_app_r; reflexivity). reflexivity.
  - rewrite (includes_app_r "tidak ditemukan" "Customer dengan ID ")
      by (apply includes_app_r; reflexivity). reflexivity.
  - rewrite (includes_app_r "not found" "Loan scheme with ID ")
      by (apply includes_app_r; reflexivity). rewrite orb_true_r. reflexivity.
Qed.

(** Inactive or sold-out product: 409, unless the product's name happens
    to carry one of the not-found phrases. *)
Lemma error_status_product_conflict name :
  let inactive := "Produk " ++ dquote ++ name ++ dquote ++ " tidak aktif" in
  let sold_out := "Stok produk " ++ dquote ++ name ++ dquote ++ " habis" in
  error_status inactive
    = (if includes "tidak ditemukan" inactive || includes "not found" inactive
       then 404 else 409) /\
  error_status sold_out
    = (if includes "tidak ditemukan" sold_out || includes "not found" sold_out
       then 404 else 409).
Proof.
  cbv zeta. unfold error_status. split.
  - rewrite (includes_app_r "tidak aktif" "Produk ")
      by (do 3 apply includes_app_r; reflexivity).
    rewrite orb_true_r. reflexivity.
  - rewrite (includes_app_r "habis" "Stok produk ")
      by (do 3 apply includes_app_r; reflexivity).
    reflexivity.
Qed.

(** C7 at a failing input.  The catch block looks for "tidak aktif" and
    the inactive-scheme message is in English, so a request on an
    existing scheme with is_active = false is answered 400; the inactive
    product, out-of-stock and unknown-scheme requests get 409, 409 and
    404. *)
Theorem create_status_of_inactive_scheme :
  status_of (create Sample.jan15 Sample.jan15 Sample.db Sample.body_inactive_scheme)
    = Some 400 /\
  error_of (create Sample.jan15 Sample.jan15 Sample.db Sample.body_inactive_scheme)
    = Some (msg_scheme_inactive Sample.lama) /\
  status_of (create Sample.jan15 Sample.jan15 Sample.db Sample.body_inactive_product)
    = Some 409 /\
  status_of (create Sample.jan15 Sample.jan15 Sample.db Sample.body_out_of_stock)
    = Some 409 /\
  status_of (create Sample.jan15 Sample.jan15 Sample.db Sample.body_unknown_scheme)
    = Some 404 /\
  status_of (create Sample.jan15 Sample.jan15 Sample.db Sample.body_bad_tenor)
    = Some 400.
Proof. vm_compute. repeat split. Qed.

(** A zero [dp] is falsy, so [simulate] stops at its first test. *)
Lemma simulate_zero_dp_missing db body d :
  b_dp body = JNum d -> isZero d = true ->
  simulate db body
  = Some (fail 400 "Missing required fields: price, dp, schemeId, tenorMonths").
Proof.
  intros Hd Hz. unfold simulate. rewrite Hd. cbn [falsy]. rewrite Hz.
  rewrite orb_true_r. reflexivity.
Qed.

Lemma lt_zero_l d : lt (of_Z 0) d = (0 <? coef d).
Proof.
  unfold lt, align, of_Z. cbn [coef dexp]. rewrite Z.mul_0_l.
  pose proof (pow10_pos (dexp d - Z.min 0 (dexp d)) ltac:(lia)) as Hp.
  destruct (Z.ltb_spec 0 (coef d)); destruct (Z.ltb_spec 0 (coef d * 10 ^ (dexp d - Z.min 0 (dexp d))));
    try reflexivity; nia.
Qed.

Lemma lt_zero_r d : lt d (of_Z 0) = (coef d <? 0).
Proof.
  unfold lt, align, of_Z. cbn [coef dexp]. rewrite Z.mul_0_l.
  pose proof (pow10_pos (dexp d - Z.min (dexp d) 0) ltac:(lia)) as Hp.
  destruct (Z.ltb_spec (coef d) 0); destruct (Z.ltb_spec (coef d * 10 ^ (dexp d - Z.min (dexp d) 0)) 0);
    try reflexivity; nia.
Qed.

Lemma to_Z_of_Z n : to_Z (of_Z n) = Some n.
Proof. unfold to_Z, of_Z. cbn. f_equal. lia. Qed.

(** With a non-zero down payment the handler passes the request on:
    whatever the service returns for positive numbers with dp < price is
    what the client gets, 200 with the breakdown or 400 with the
    message. *)
Lemma simulate_passes_on db p d sid t :
  0 < coef p -> 0 < coef d -> 0 < sid -> 0 < t -> lt d p = true ->
  simulate db (mkSimulateBody (JNum p) (JNum d) (JNum (of_Z sid)) (JNum (of_Z t)))
  = match calculateSimulation db (mkSimulationInput p d sid t) with
    | inr result =>
        Some (mkResponse 200 true None
                (Some (mkSimulateData (display result)
                         (mkSchemeSummary (scheme_id (scheme result))
                            (scheme_name (scheme result))
                            (toString (interest_rate (scheme result)))
                            (tenor_options (scheme result))))))
    | inl message => Some (fail 400 message)
    end.
Proof.
  intros Hp Hd Hsid Ht Hlt. unfold simulate.
  cbn [b_price b_dp b_schemeId b_tenorMonths falsy is_number num negb orb].
  unfold isZero, lte, gte. cbn [of_Z coef].
  rewrite !lt_zero_l, lt_zero_r, Hlt. cbn [of_Z coef].
  destruct (Z.eqb_spec (coef p) 0); [lia|].
  destruct (Z.eqb_spec (coef d) 0); [lia|].
  destruct (Z.eqb_spec sid 0); [lia|].
  destruct (Z.eqb_spec t 0); [lia|].
  destruct (Z.ltb_spec 0 (coef p)); [|lia].
  destruct (Z.ltb_spec (coef d) 0); [lia|].
  destruct (Z.ltb_spec 0 sid); [|lia].
  destruct (Z.ltb_spec 0 t); [|lia].
  cbn [negb orb]. rewrite !to_Z_of_Z. reflexivity.
Qed.

(** C8 at a failing input.  With price 1000000, dp 0, an active scheme
    without minimum down payment and an offered tenor, [simulate]
    answers 400 "Missing required fields", although the service accepts
    the same input and [create] goes through with it (201). *)
Theorem simulate_rejects_zero_dp :
  simulate Sample.db Sample.simulate_zero_dp
    = Some (fail 400 "Missing required fields: price, dp, schemeId, tenorMonths") /\
  (exists r, calculateSimulation Sample.db
               (mkSimulationInput (of_Z 1000000) (of_Z 0) 2 3) = inr r) /\
  status_of (create Sample.jan15 Sample.jan15 Sample.db Sample.body_zero_dp)
    = Some 201.
Proof.
  split; [vm_compute; reflexivity|].
  split; [eexists; vm_compute; reflexivity|].
  vm_compute. reflexivity.
Qed.

End Handlers.

(* ===================================================================== *)
(** * Further properties of the engine *)
(* ===================================================================== *)

(** ** Due dates for every start date *)

Section DueDateShape.

Import Dec Store Credit JsDate Calendar Ledger.
Local Open Scope Z_scope.

Lemma next_month_shift y m i :
  next_month (y + (m + i) / 12) ((m + i) mod 12)
  = (y + (m + i + 1) / 12, (m + i + 1) mod 12).
Proof.
  unfold next_month.
  destruct (Z.eqb_spec ((m + i) mod 12) 11) as [E|E]; f_equal;
    Z.div_mod_to_equations; lia.
Qed.

Lemma overflow_range y m d i : 0 <= overflow y m d i <= 1.
Proof. unfold overflow. destruct (_ <? _); lia. Qed.

Lemma overflow_regular y m d i : d <= 28 -> overflow y m d i = 0.
Proof.
  intros H. unfold overflow.
  pose proof (days_in_month_ge_28 (y + (m + i) / 12) ((m + i) mod 12)).
  destruct (Z.ltb_spec (days_in_month (y + (m + i) / 12) ((m + i) mod 12)) d);
    [lia|reflexivity].
Qed.

(** [setMonth] with a day of month that exists in some month: the date
    lands in the target month, or in the next one when the target month
    is too short. *)
Lemma make_day_month y m d :
  1 <= d <= 31 ->
  make_day y m d =
    if days_in_month (y + m / 12) (m mod 12) <? d
    then (let '(y', m') := next_month (y + m / 12) (m mod 12) in
          (y', m', d - days_in_month (y + m / 12) (m mod 12)))
    else (y + m / 12, m mod 12, d).
Proof.
  intros Hd. unfold make_day.
  set (Y := y + m / 12). set (M := m mod 12).
  pose proof (days_in_month_ge_28 Y M) as Hge.
  cbn [carry_day].
  destruct (Z.ltb_spec d 1); [lia|].
  destruct (Z.ltb_spec (days_in_month Y M) d) as [Hov|Hin]; [|reflexivity].
  destruct (next_month Y M) as [Y' M'] eqn:En.
  assert (Hf : Z.to_nat (Z.abs d / 28) = 1%nat).
  { rewrite Z.abs_eq by lia.
    assert (d / 28 = 1) by (Z.div_mod_to_equations; lia). lia. }
  rewrite Hf. cbn [carry_day].
  pose proof (days_in_month_ge_28 Y' M') as Hge'.
  pose proof (days_in_month_le_31 Y M) as Hle.
  destruct (Z.ltb_spec (d - days_in_month Y M) 1); [lia|].
  destruct (Z.ltb_spec (days_in_month Y' M') (d - days_in_month Y M)); [lia|].
  reflexivity.
Qed.

(** The due date the schedule loop computes, for any clock reading. *)
Lemma due_date_of_shape start day i :
  0 <= month start < 12 ->
  1 <= JsDate.day start <= 31 ->
  1 <= day <= 28 ->
  due_date_of start day i
  = Exact.due_date start day
      (i + overflow (year start) (month start) (JsDate.day start) i).
Proof.
  intros Hm Hd Hday.
  unfold due_date_of, setMonth, setDate, setHours, getMonth, Exact.due_date,
    overflow.
  rewrite (make_day_month _ _ _ Hd).
  destruct (Z.ltb_spec
              (days_in_month (year start + (month start + i) / 12)
                 ((month start + i) mod 12)) (JsDate.day start)) as [Hov|Hin].
  - rewrite next_month_shift. cbn [with_day year month JsDate.day].
    rewrite (make_day_regular _ _ _ Hday).
    cbn [with_day year month JsDate.day].
    replace (month start + (i + 1)) with (month start + i + 1) by lia.
    f_equal; Z.div_mod_to_equations; lia.
  - cbn [with_day year month JsDate.day].
    rewrite (make_day_regular _ _ _ Hday).
    cbn [with_day year month JsDate.day].
    replace (month start + (i + 0)) with (month start + i) by lia.
    f_equal; Z.div_mod_to_equations; lia.
Qed.

Lemma month_index_due_date start day j :
  month_index (Exact.due_date start day j) = month_index start + j.
Proof.
  unfold month_index, Exact.due_date. cbn [year month].
  Z.div_mod_to_equations; lia.
Qed.

(** X1.  Whatever the clock reads when a sale is made, every installment
    of the schedule falls due on day dueDateDay of a calendar month: the
    month [installment_nth] months after the sale or, when the day of
    the sale does not exist in that month, the month after it. *)
Theorem createTransaction_due_dates now now' db input db' res :
  createTransaction now now' db input = inr (db', res) ->
  0 <= month now' < 12 ->
  1 <= JsDate.day now' <= 31 ->
  Forall (fun r =>
            let o := overflow (year now') (month now') (JsDate.day now')
                       (installment_nth r) in
            JsDate.day (due_date r) = dueDateDay input /\
            0 <= month (due_date r) < 12 /\
            0 <= o <= 1 /\
            month_index (due_date r)
            = month_index now' + installment_nth r + o)
         (cr_installments res).
Proof.
  intros Hrun Hm Hd.
  destruct (createTransaction_inr _ _ _ _ _ _ Hrun)
    as (product & customer & sim & Hday & _ & _ & _ & _ & _ & Hrest).
  cbv zeta in Hrest. destruct Hrest as (Hrows & _).
  rewrite Hrows. apply rows_from_Forall. intros id i.
  cbn [due_date installment_nth].
  rewrite (due_date_of_shape _ _ _ Hm Hd Hday).
  split; [reflexivity|].
  split; [unfold Exact.due_date; cbn [month]; apply Z.mod_pos_bound; lia|].
  split; [apply overflow_range|].
  rewrite month_index_due_date. lia.
Qed.

Lemma createTransaction_due_dates_witness :
  exists db' res,
    createTransaction Sample.jan31 Sample.jan31 Sample.db Sample.sale
      = inr (db', res) /\
    Forall (fun r =>
              JsDate.day (due_date r) = 5 /\
              0 <= month (due_date r) < 12 /\
              0 <= overflow 2025 0 31 (installment_nth r) <= 1 /\
              month_index (due_date r)
              = month_index Sample.jan31 + installment_nth r
                + overflow 2025 0 31 (installment_nth r))
           (cr_installments res).
Proof.
  destruct (createTransaction Sample.jan31 Sample.jan31 Sample.db Sample.sale)
    as [msg|[db' res]] eqn:E; [vm_compute in E; discriminate|].
  exists db', res. split; [reflexivity|].
  assert (H1 : 0 <= month Sample.jan31 < 12) by (vm_compute; split; congruence).
  assert (H2 : 1 <= JsDate.day Sample.jan31 <= 31)
    by (vm_compute; split; congruence).
  exact (createTransaction_due_dates _ _ _ _ _ _ E H1 H2).
Defined.

(** X2.  Due dates never go backwards: from one installment to the next
    the due month advances by 0, 1 or 2 months, and by exactly one month
    when the sale is made on day 1..28. *)
Theorem due_date_of_step start day i :
  0 <= month start < 12 ->
  1 <= JsDate.day start <= 31 ->
  1 <= day <= 28 ->
  let step := month_index (due_date_of start day (i + 1))
              - month_index (due_date_of start day i) in
  0 <= step <= 2 /\
  (JsDate.day start <= 28 -> step = 1).
Proof.
  intros Hm Hd Hday step. subst step.
  rewrite !(due_date_of_shape _ _ _ Hm Hd Hday), !month_index_due_date.
  pose proof (overflow_range (year start) (month start) (JsDate.day start) i).
  pose proof (overflow_range (year start) (month start) (JsDate.day start) (i + 1)).
  split; [lia|].
  intros H28. rewrite !overflow_regular by exact H28. lia.
Qed.

Lemma due_date_of_step_witness :
  0 <= month_index (due_date_of Sample.jan31 5 (1 + 1))
       - month_index (due_date_of Sample.jan31 5 1) <= 2 /\
  month_index (due_date_of Sample.jan15 5 (1 + 1))
  - month_index (due_date_of Sample.jan15 5 1) = 1.
Proof.
  assert (H1 : 0 <= month Sample.jan31 < 12) by (vm_compute; split; congruence).
  assert (H2 : 1 <= JsDate.day Sample.jan31 <= 31)
    by (vm_compute; split; congruence).
  assert (H3 : 1 <= JsDate.day Sample.jan15 <= 31)
    by (vm_compute; split; congruence).
  assert (H4 : 1 <= 5 <= 28) by lia.
  assert (H5 : JsDate.day Sample.jan15 <= 28) by (vm_compute; congruence).
  split.
  - exact (proj1 (due_date_of_step Sample.jan31 5 1 H1 H2 H4)).
  - exact (proj2 (due_date_of_step Sample.jan15 5 1 H1 H3 H4) H5).
Defined.

End DueDateShape.

(** ** The minimum down payment *)

Section MinimumDp.

Import Dec Store Text Credit.
Local Open Scope Z_scope.

Lemma Qpower10_pos e : (0 < inject_Z 10 ^ e)%Q.
Proof. apply Qpower_0_lt. reflexivity. Qed.

(** [a.lt(b)] compares the values. *)
Lemma lt_value a b : lt a b = true <-> (value a < value b)%Q.
Proof.
  unfold lt. destruct (align a b) as [[x y] e] eqn:E.
  destruct (value_align a b x y e E) as [Ha Hb].
  rewrite Ha, Hb, !value_mkDec.
  rewrite Qmult_lt_r by apply Qpower10_pos.
  rewrite <- Zlt_Qlt. apply Z.ltb_lt.
Qed.

Lemma lt_value_false a b : lt a b = false <-> (value b <= value a)%Q.
Proof.
  split.
  - intros H. apply Qnot_lt_le. intros L. apply lt_value in L. congruence.
  - intros H. destruct (lt a b) eqn:E; [|reflexivity].
    apply lt_value in E. apply Qlt_not_le in E. contradiction.
Qed.

(** The minimum amount [price.mul(minDpPercent).div(100)] while the
    product needs no more digits than the precision keeps. *)
Lemma minDpAmount_exact price pct :
  Exact.fits precision (value price * value pct) ->
  (value (div (mul price pct) (of_Z 100))
   == value price * value pct / inject_Z 100)%Q.
Proof.
  intros Hf. pose proof (mul_exact price pct Hf) as Hm.
  rewrite div_100_exact.
  - rewrite Hm. reflexivity.
  - eapply fits_comp; [symmetry; exact Hm|exact Hf].
Qed.

(** X3.  The minimum-DP rule.  For an active scheme and a tenor it
    offers, a simulation is refused with the DP message exactly when
    dp < price x min_dp_percent / 100, and goes through otherwise
    (as long as price x min_dp_percent needs no more than the 20 digits
    of the decimal arithmetic). *)
Theorem calculateSimulation_min_dp db input s :
  schemes db !! schemeId input = Some s ->
  scheme_is_active s = true ->
  includesZ (tenor_options s) (tenorMonths input) = true ->
  Exact.fits precision (value (price input) * value (min_dp_percent s)) ->
  let minimum :=
    (value (price input) * value (min_dp_percent s) / inject_Z 100)%Q in
  ((value (dp input) < minimum)%Q ->
     calculateSimulation db input
     = inl (msg_min_dp (min_dp_percent s)
              (div (mul (price input) (min_dp_percent s)) (of_Z 100))
              (dp input))) /\
  ((minimum <= value (dp input))%Q -> tenorMonths input <> 0 ->
     exists r, calculateSimulation db input = inr r /\ scheme r = s).
Proof.
  intros Hs Hact Hten Hfit minimum.
  pose proof (minDpAmount_exact _ _ Hfit) as Hmin.
  unfold calculateSimulation. rewrite Hs, Hact, Hten.
  split.
  - intros Hlt.
    assert (E : lt (dp input)
                  (div (mul (price input) (min_dp_percent s)) (of_Z 100)) = true).
    { apply lt_value. rewrite Hmin. exact Hlt. }
    rewrite E. reflexivity.
  - intros Hge Ht.
    assert (E : lt (dp input)
                  (div (mul (price input) (min_dp_percent s)) (of_Z 100)) = false).
    { apply lt_value_false. rewrite Hmin. exact Hge. }
    rewrite E. cbn [negb].
    assert (Z0 : isZero (of_Z (tenorMonths input)) = false).
    { unfold isZero, of_Z. cbn [coef]. apply Z.eqb_neq. exact Ht. }
    rewrite Z0. cbn [negb]. eexists. split; reflexivity.
Qed.

Lemma calculateSimulation_min_dp_witness :
  calculateSimulation Sample.db
    (mkSimulationInput (of_Z 4500000) (of_Z 100000) 1 6)
  = inl (msg_min_dp (mkDec 10 0) (div (mul (of_Z 4500000) (mkDec 10 0)) (of_Z 100))
           (of_Z 100000)) /\
  exists r,
    calculateSimulation Sample.db
      (mkSimulationInput (of_Z 4500000) (of_Z 450000) 1 6) = inr r /\
    scheme r = Sample.reguler.
Proof.
  assert (Hs : schemes Sample.db !! 1 = Some Sample.reguler)
    by (vm_compute; reflexivity).
  assert (Hf : Exact.fits precision
                 (value (of_Z 4500000) * value (min_dp_percent Sample.reguler)))
    by (exists 45000000, 0; split; vm_compute; reflexivity).
  split.
  - refine (proj1 (calculateSimulation_min_dp Sample.db
                     (mkSimulationInput (of_Z 4500000) (of_Z 100000) 1 6)
                     Sample.reguler Hs eq_refl eq_refl Hf) _).
    vm_compute. reflexivity.
  - refine (proj2 (calculateSimulation_min_dp Sample.db
                     (mkSimulationInput (of_Z 4500000) (of_Z 450000) 1 6)
                     Sample.reguler Hs eq_refl eq_refl Hf) _ _).
    + vm_compute. discriminate.
    + discriminate.
Defined.

End MinimumDp.

(** ** From sale to settlement *)

Section SaleToSettlement.

Import Dec Store Text Credit Payment Ledger Lifecycle.
Local Open Scope Z_scope.

(** The id sequences after a successful [createTransaction]. *)
Lemma createTransaction_counters now now' db input db' res :
  createTransaction now now' db input = inr (db', res) ->
  next_transaction_id db' = next_transaction_id db + 1 /\
  next_contract_id db' = next_contract_id db + 1 /\
  next_installment_id db'
  = next_installment_id db + Z.of_nat (length (seqZ 1 (c_tenorMonths input))).
Proof.
  unfold createTransaction, calculateSimulationWithTx. intros H.
  destruct (negb _); [|discriminate].
  destruct (products db !! productId input) as [product|]; [|discriminate].
  destruct (product_is_active product); [|discriminate].
  destruct (negb _); [|discriminate].
  destruct (customers db !! customerId input) as [customer|]; [|discriminate].
  destruct (calculateSimulation db _) as [|sim]; [discriminate|].
  cbn [bind] in H.
  rewrite fold_create_installment in H.
  inversion H; subst db' res; clear H. cbn. repeat split; reflexivity.
Qed.

Lemma insert_rows_elem rows : forall m k r,
  insert_rows rows m !! k = Some r -> m !! k = Some r \/ In r rows.
Proof.
  unfold insert_rows. induction rows as [|x rows IH]; intros m k r H.
  - left. exact H.
  - cbn [fold_left] in H. apply IH in H as [H|H].
    + destruct (decide (installment_id x = k)) as [E|E].
      * rewrite E, lookup_insert_eq in H. inversion H. right. left. reflexivity.
      * rewrite lookup_insert_ne in H by exact E. left. exact H.
    + right. right. exact H.
Qed.

(** What a successful sale leaves in the store for its own rows. *)
Lemma createTransaction_rows now now' db input db' res :
  createTransaction now now' db input = inr (db', res) ->
  let cid := next_contract_id db in
  let tid := next_transaction_id db in
  contract_id (cr_contract res) = cid /\
  contract_transaction_id (cr_contract res) = tid /\
  transaction_id (cr_transaction res) = tid /\
  tx_status (cr_transaction res) = ACTIVE /\
  contracts db' !! cid = Some (cr_contract res) /\
  transactions db' !! tid = Some (cr_transaction res) /\
  NoDup (map installment_id (cr_installments res)) /\
  (forall r, In r (cr_installments res) ->
             installments db' !! installment_id r = Some r /\
             inst_contract_id r = cid /\ Store.status r = UNPAID) /\
  (forall k r, installments db' !! k = Some r ->
               installments db !! k = Some r \/ In r (cr_installments res)).
Proof.
  intros Hrun cid tid.
  destruct (createTransaction_inr _ _ _ _ _ _ Hrun)
    as (product & customer & sim & _ & _ & _ & _ & _ & _ & Hrest).
  cbv zeta in Hrest.
  destruct Hrest as (Hrows & Hc & Ht & _ & _ & Hi & Hcs & Hts & _).
  assert (Hnd : NoDup (map installment_id (cr_installments res))).
  { rewrite Hrows, rows_from_ids. apply NoDup_seqZ. }
  rewrite Hcs, Hts, !lookup_insert_eq.
  rewrite Hc at 1 2. rewrite Ht at 1 2. cbn [contract_id contract_transaction_id
    transaction_id tx_status].
  repeat (split; [first [reflexivity | exact Hnd]|]).
  split.
  - intros r Hr. split.
    + rewrite Hi. apply insert_rows_lookup.
      * rewrite <- Hrows. exact Hnd.
      * rewrite <- Hrows. exact Hr.
    + rewrite Hrows in Hr.
      pose proof (rows_from_Forall
                    (fun r => inst_contract_id r = cid /\ Store.status r = UNPAID)
                    (next_contract_id db) now' (dueDateDay input)
                    (monthlyInstallment (raw sim))
                    (seqZ 1 (c_tenorMonths input))
                    (fun _ _ => conj eq_refl eq_refl)
                    (next_installment_id db)) as HF.
      rewrite Forall_forall in HF. apply HF. apply list_elem_of_In. exact Hr.
  - intros k r Hk. rewrite Hi in Hk. rewrite Hrows.
    apply insert_rows_elem. exact Hk.
Qed.

(** X4.  Every installment a sale creates can be paid at once: the
    payment request on its id is answered 200, and the stored row then
    has status PAID, amount_paid equal to its amount_due and paid_at
    equal to the clock reading of the payment, with its id, contract,
    number, due date, amount_due and penalties as the sale wrote them. *)
Theorem createTransaction_then_pay now now' later db input db' res r :
  createTransaction now now' db input = inr (db', res) ->
  In r (cr_installments res) ->
  exists db'' r',
    payInstallment later db' (Some (installment_id r))
    = (db'', Payment.mkResponse 200 true "Payment received successfully") /\
    installments db'' !! installment_id r = Some r' /\
    Store.status r' = PAID /\
    amount_paid r' = amount_due r /\
    paid_at r' = Some later /\
    installment_id r' = installment_id r /\
    inst_contract_id r' = inst_contract_id r /\
    installment_nth r' = installment_nth r /\
    due_date r' = due_date r /\
    amount_due r' = amount_due r /\
    penalty_paid r' = penalty_paid r /\
    penalty_accrued r' = penalty_accrued r.
Proof.
  intros Hrun Hr.
  destruct (createTransaction_rows _ _ _ _ _ _ Hrun)
    as (_ & Hct & _ & _ & Hc & Ht & _ & Hrows & _).
  destruct (Hrows r Hr) as (Hi & Hcid & Hst).
  destruct (pay_unit_of_work_succeeds later db' (installment_id r) r
              (cr_contract res)) as (db'' & Hpay & Hrow & _).
  - exact Hi.
  - rewrite Hst. discriminate.
  - rewrite Hcid. exact Hc.
  - rewrite Hct. eexists. exact Ht.
  - exists db'', (mark_paid later (amount_due r) r).
    unfold payInstallment. rewrite Hpay.
    split; [reflexivity|]. split; [exact Hrow|]. cbn. repeat split.
Qed.

Lemma createTransaction_then_pay_witness :
  exists db' res r db'' r',
    createTransaction Sample.jan15 Sample.jan15 Sample.db Sample.sale
      = inr (db', res) /\
    nth_error (cr_installments res) 1 = Some r /\
    payInstallment Sample.jan31 db' (Some (installment_id r))
    = (db'', Payment.mkResponse 200 true "Payment received successfully") /\
    installments db'' !! installment_id r = Some r' /\
    Store.status r = UNPAID /\ paid_at r = None /\
    Store.status r' = PAID /\
    amount_paid r' = amount_due r /\
    paid_at r' = Some Sample.jan31.
Proof.
  destruct (createTransaction Sample.jan15 Sample.jan15 Sample.db Sample.sale)
    as [msg|[db' res]] eqn:E; [vm_compute in E; discriminate|].
  destruct (nth_error (cr_installments res) 1) as [r|] eqn:Er.
  - destruct (createTransaction_then_pay _ _ Sample.jan31 _ _ _ _ r E
                (nth_error_In _ _ Er)) as (db'' & r' & H1 & H2 & H3 & H4 & H5 & _).
    assert (Hr : Store.status r = UNPAID /\ paid_at r = None).
    { vm_compute in E. inversion E; subst res. vm_compute in Er.
      inversion Er. split; reflexivity. }
    exists db', res, r, db'', r'. repeat split; try assumption; apply Hr.
  - exfalso. vm_compute in E. inversion E; subst res. discriminate Er.
Defined.

(** *** A run of payments on one contract *)

Lemma pay_unfold now db id :
  pay now db id = match pay_unit_of_work now db id with
                  | inr db' => db'
                  | inl _ => db
                  end.
Proof.
  unfold pay, payInstallment. destruct (pay_unit_of_work now db id); reflexivity.
Qed.

Lemma contract_settled_ext db1 db2 cid :
  installments db1 = installments db2 ->
  contract_settled db1 cid = contract_settled db2 cid.
Proof.
  intros H. unfold contract_settled, installments_of. rewrite H. reflexivity.
Qed.

Lemma contract_settled_false db cid k r :
  installments db !! k = Some r ->
  inst_contract_id r = cid ->
  Store.status r <> PAID ->
  contract_settled db cid = false.
Proof.
  intros Hk Hc Hs. destruct (contract_settled db cid) eqn:E; [|reflexivity].
  unfold contract_settled in E.
  rewrite forallb_installments_of in E.
  specialize (E k r Hk Hc). apply status_eqb_PAID in E. contradiction.
Qed.

(** The store after payment requests for distinct installments of one
    contract, none of them PAID before: every request marks its row with
    its own clock reading. *)
Lemma pay_all_run requests : forall db cid c t,
  keyed_by_id db = true ->
  contracts db !! cid = Some c ->
  transactions db !! contract_transaction_id c = Some t ->
  NoDup (paid_ids requests) -> requests <> [] ->
  (forall id, In id (paid_ids requests) ->
     exists r, installments db !! id = Some r /\
               inst_contract_id r = cid /\ Store.status r <> PAID) ->
  let db' := pay_all db requests in
  (forall k, ~ In k (paid_ids requests) ->
             installments db' !! k = installments db !! k) /\
  (forall now k, In (now, k) requests ->
                 installments db' !! k = paid_now now <$> installments db !! k) /\
  transactions db' =
    (if contract_settled db' cid
     then <[contract_transaction_id c := set_status_tx TX_PAID t]> (transactions db)
     else transactions db) /\
  schemes db' = schemes db /\ products db' = products db /\
  customers db' = customers db /\ contracts db' = contracts db /\
  next_transaction_id db' = next_transaction_id db /\
  next_contract_id db' = next_contract_id db /\
  next_installment_id db' = next_installment_id db.
Proof.
  induction requests as [|[now id] rest IH]; intros db cid c t Hkey Hc Ht Hnd Hne Hall;
    [contradiction|].
  cbn [paid_ids map snd] in Hnd, Hall. fold (paid_ids rest) in Hnd, Hall.
  destruct (Hall id (or_introl eq_refl)) as (r & Hr & Hrc & Hrs).
  apply NoDup_cons in Hnd as [Hnotin Hnd'].
  assert (Hc' : contracts db !! inst_contract_id r = Some c)
    by (rewrite Hrc; exact Hc).
  pose proof (pay_unit_of_work_unpaid now db id r c Hr Hrs Hc') as Hrun.
  cbv zeta in Hrun.
  rewrite (allPaid_iff_settled now db id r Hkey Hr), Hrc in Hrun.
  set (tx := with_installments db
               (alter (mark_paid now (amount_due r)) id (installments db))
               (next_installment_id db)) in *.
  assert (Hrow : forall k, installments tx !! k =
                           if decide (k = id)
                           then paid_now now <$> installments db !! k
                           else installments db !! k).
  { intros k. unfold tx. cbn [installments with_installments].
    destruct (decide (k = id)) as [->|Hk].
    - rewrite lookup_alter_eq, Hr. reflexivity.
    - rewrite lookup_alter_ne by congruence. reflexivity. }
  destruct rest as [|[now2 id2] rest'].
  - (* the last payment of the run *)
    cbv zeta. unfold pay_all. cbn [fold_left fst snd paid_ids map].
    rewrite pay_unfold, Hrun.
    assert (Hother : forall k, ~ In k [id] ->
               installments tx !! k = installments db !! k).
    { intros k Hk. rewrite (Hrow k).
      destruct (decide (k = id)) as [->|]; [|reflexivity].
      exfalso. apply Hk. left. reflexivity. }
    assert (Hpaid : forall now' k, In (now', k) [(now, id)] ->
               installments tx !! k = paid_now now' <$> installments db !! k).
    { intros now' k [E|[]]. inversion E; subst now' k. rewrite (Hrow id).
      destruct (decide (id = id)); [reflexivity|contradiction]. }
    destruct (contract_settled tx cid) eqn:Es.
    + rewrite Ht.
      assert (Es' : contract_settled
                      (with_transactions tx
                         (alter (set_status_tx TX_PAID) (contract_transaction_id c)
                            (transactions db))
                         (next_transaction_id db))
                      cid = true) by exact Es.
      rewrite Es'.
      split; [exact Hother|]. split; [exact Hpaid|].
      split; [|cbn; repeat split; reflexivity].
      cbn [transactions with_transactions]. apply map_eq. intros k.
      destruct (decide (k = contract_transaction_id c)) as [->|Hk].
      * rewrite lookup_alter_eq, lookup_insert_eq, Ht. reflexivity.
      * rewrite lookup_alter_ne, lookup_insert_ne by congruence. reflexivity.
    + rewrite Es.
      split; [exact Hother|]. split; [exact Hpaid|].
      cbn; repeat split; reflexivity.
  - (* more payments follow: the contract is not settled yet *)
    destruct (Hall id2 (or_intror (or_introl eq_refl))) as (r2 & Hr2 & Hr2c & Hr2s).
    assert (Hne2 : id2 <> id).
    { intros E. apply Hnotin. rewrite <- E. constructor. }
    assert (Es : contract_settled tx cid = false).
    { apply (contract_settled_false tx _ id2 r2); [|congruence|exact Hr2s].
      rewrite (Hrow id2). destruct (decide (id2 = id)); [contradiction|exact Hr2]. }
    rewrite Es in Hrun.
    assert (Hstep : pay_all db ((now, id) :: (now2, id2) :: rest')
                    = pay_all tx ((now2, id2) :: rest')).
    { unfold pay_all. cbn [fold_left fst snd]. rewrite (pay_unfold now db id), Hrun.
      reflexivity. }
    cbv zeta. rewrite Hstep.
    assert (Hkey' : keyed_by_id tx = true).
    { apply (pay_unit_of_work_keyed now db id tx Hkey Hrun). }
    destruct (IH tx cid c t Hkey' Hc Ht Hnd' ltac:(discriminate)) as
        (Hi & Hp' & Htx & Hs & Hp & Hcu & Hco & Hn1 & Hn2 & Hn3).
    { intros id' Hin'. destruct (Hall id' (or_intror Hin')) as (r' & Hr' & Hc'' & Hs').
      exists r'. split; [|split; assumption].
      rewrite (Hrow id'). destruct (decide (id' = id)) as [->|]; [|exact Hr'].
      exfalso. apply Hnotin, list_elem_of_In. exact Hin'. }
    cbv zeta in Hi, Hp', Htx.
    split; [|split; [|repeat split; assumption]].
    + intros k Hk. rewrite (Hi k), (Hrow k).
      * destruct (decide (k = id)) as [->|]; [|reflexivity].
        exfalso. apply Hk. left. reflexivity.
      * intros Hin. apply Hk. right. exact Hin.
    + intros now' k [E|Hin].
      * inversion E; subst now' k. rewrite (Hi id), (Hrow id).
        -- destruct (decide (id = id)); [reflexivity|contradiction].
        -- intros Hin. apply Hnotin, list_elem_of_In. exact Hin.
      * rewrite (Hp' now' k Hin), (Hrow k).
        destruct (decide (k = id)) as [->|]; [|reflexivity].
        exfalso. apply Hnotin, list_elem_of_In.
        change (In id (map snd ((now2, id2) :: rest'))).
        apply (in_map snd _ _ Hin).
Qed.

(** After such a run every installment of the requests is PAID. *)
Lemma pay_all_paid requests db cid c t k r :
  keyed_by_id db = true ->
  contracts db !! cid = Some c ->
  transactions db !! contract_transaction_id c = Some t ->
  NoDup (paid_ids requests) ->
  (forall id, In id (paid_ids requests) ->
     exists r, installments db !! id = Some r /\
               inst_contract_id r = cid /\ Store.status r <> PAID) ->
  In k (paid_ids requests) ->
  installments (pay_all db requests) !! k = Some r ->
  Store.status r = PAID.
Proof.
  intros Hkey Hc Ht Hnd Hall Hin Hk.
  assert (Hne : requests <> []) by (intros ->; contradiction).
  destruct (pay_all_run requests db cid c t Hkey Hc Ht Hnd Hne Hall)
    as (_ & Hp & _).
  cbv zeta in Hp. unfold paid_ids in Hin.
  apply in_map_iff in Hin as ([now k'] & E & Hin). cbn in E. subst k'.
  rewrite (Hp now k Hin) in Hk.
  destruct (installments db !! k); [|discriminate]. inversion Hk. reflexivity.
Qed.

(** X5.  Payments on one contract commute, up to the clock.  Paying the
    same distinct, not yet PAID installments of a contract in two
    orders, every request with its own clock reading, leaves the same
    schemes, products, customers, contracts, transactions and id
    sequences, and the same installment rows except for paid_at: a paid
    row is PAID with amount_paid = amount_due in both stores and carries
    in each the clock reading of the request that paid it there, and no
    other row is touched.  When every installment is paid at the same
    reading in both orders the two stores are identical. *)
Theorem pay_all_order db cid c t requests requests' :
  keyed_by_id db = true ->
  contracts db !! cid = Some c ->
  transactions db !! contract_transaction_id c = Some t ->
  NoDup (paid_ids requests) ->
  (forall id, In id (paid_ids requests) ->
     exists r, installments db !! id = Some r /\
               inst_contract_id r = cid /\ Store.status r <> PAID) ->
  Permutation (paid_ids requests) (paid_ids requests') ->
  let db1 := pay_all db requests in
  let db2 := pay_all db requests' in
  schemes db1 = schemes db2 /\ products db1 = products db2 /\
  customers db1 = customers db2 /\ contracts db1 = contracts db2 /\
  transactions db1 = transactions db2 /\
  next_transaction_id db1 = next_transaction_id db2 /\
  next_contract_id db1 = next_contract_id db2 /\
  next_installment_id db1 = next_installment_id db2 /\
  (forall k, ~ In k (paid_ids requests) ->
     installments db1 !! k = installments db !! k /\
     installments db2 !! k = installments db !! k) /\
  (forall now now' id r,
     In (now, id) requests -> In (now', id) requests' ->
     installments db !! id = Some r ->
     exists r1 r2,
       installments db1 !! id = Some r1 /\ installments db2 !! id = Some r2 /\
       paid_at r1 = Some now /\ paid_at r2 = Some now' /\
       Store.status r1 = PAID /\ Store.status r2 = PAID /\
       amount_paid r1 = amount_due r /\ amount_paid r2 = amount_due r /\
       installment_id r1 = installment_id r /\ installment_id r2 = installment_id r /\
       inst_contract_id r1 = inst_contract_id r /\
       inst_contract_id r2 = inst_contract_id r /\
       installment_nth r1 = installment_nth r /\
       installment_nth r2 = installment_nth r /\
       due_date r1 = due_date r /\ due_date r2 = due_date r /\
       amount_due r1 = amount_due r /\ amount_due r2 = amount_due r /\
       penalty_paid r1 = penalty_paid r /\ penalty_paid r2 = penalty_paid r /\
       penalty_accrued r1 = penalty_accrued r /\
       penalty_accrued r2 = penalty_accrued r) /\
  (Permutation requests requests' -> db1 = db2).
Proof.
  intros Hkey Hc Ht Hnd Hall Hperm.
  destruct requests as [|q0 requests0].
  { apply Permutation_nil in Hperm. destruct requests'; [|discriminate].
    cbv zeta. cbn. repeat split; try reflexivity; intros; contradiction. }
  assert (Hne' : requests' <> []).
  { intros E. subst requests'. symmetry in Hperm. apply Permutation_nil in Hperm.
    discriminate. }
  assert (Hnd' : NoDup (paid_ids requests')).
  { rewrite <- Hperm. exact Hnd. }
  assert (Hall' : forall id, In id (paid_ids requests') ->
            exists r, installments db !! id = Some r /\
                      inst_contract_id r = cid /\ Store.status r <> PAID).
  { intros id Hin. apply Hall. apply list_elem_of_In.
    rewrite Hperm. apply list_elem_of_In. exact Hin. }
  destruct (pay_all_run (q0 :: requests0) db cid c t Hkey Hc Ht Hnd
              ltac:(discriminate) Hall)
    as (Hi & Hp & Htx & Hs & Hpr & Hcu & Hco & Hn1 & Hn2 & Hn3).
  destruct (pay_all_run requests' db cid c t Hkey Hc Ht Hnd' Hne' Hall')
    as (Hi' & Hp' & Htx' & Hs' & Hpr' & Hcu' & Hco' & Hn1' & Hn2' & Hn3').
  cbv zeta in *.
  set (db1 := pay_all db (q0 :: requests0)) in *.
  set (db2 := pay_all db requests') in *.
  assert (Hin' : forall k, In k (paid_ids (q0 :: requests0)) <->
                           In k (paid_ids requests')).
  { intros k. rewrite <- !list_elem_of_In, Hperm. reflexivity. }
  (* the two stores agree on which installments of the contract are PAID *)
  assert (Hset : contract_settled db1 cid = contract_settled db2 cid).
  { apply eq_true_iff_eq. unfold contract_settled.
    rewrite !forallb_installments_of. split; intros H k r Hk Hcid.
    - destruct (in_dec Z.eq_dec k (paid_ids requests')) as [Hin|Hout].
      + apply status_eqb_PAID.
        apply (pay_all_paid requests' db cid c t k r Hkey Hc Ht Hnd' Hall' Hin Hk).
      + apply (H k r); [|exact Hcid].
        rewrite (Hi' k Hout) in Hk. rewrite Hi; [exact Hk|].
        intros C. apply Hout, Hin'. exact C.
    - destruct (in_dec Z.eq_dec k (paid_ids (q0 :: requests0))) as [Hin|Hout].
      + apply status_eqb_PAID.
        apply (pay_all_paid (q0 :: requests0) db cid c t k r Hkey Hc Ht Hnd Hall
                 Hin Hk).
      + apply (H k r); [|exact Hcid].
        rewrite (Hi k Hout) in Hk. rewrite Hi'; [exact Hk|].
        intros C. apply Hout, Hin'. exact C. }
  assert (Htrans : transactions db1 = transactions db2).
  { rewrite Htx, Htx', Hset. reflexivity. }
  repeat (split; [congruence|]).
  split; [|split].
  - intros k Hk. split; [apply Hi; exact Hk|].
    apply Hi'. intros C. apply Hk, Hin'. exact C.
  - intros now now' id r H1 H2 Hr.
    exists (paid_now now r), (paid_now now' r).
    rewrite (Hp now id H1), (Hp' now' id H2), Hr. cbn. repeat split.
  - intros Hpp.
    assert (Hinst : installments db1 = installments db2).
    { apply map_eq. intros k.
      destruct (in_dec Z.eq_dec k (paid_ids (q0 :: requests0))) as [Hin|Hout].
      - unfold paid_ids in Hin. apply in_map_iff in Hin as ([now k'] & E & Hin).
        cbn in E. subst k'.
        rewrite (Hp now k Hin). symmetry. apply (Hp' now k).
        apply list_elem_of_In. rewrite <- Hpp. apply list_elem_of_In. exact Hin.
      - rewrite (Hi k Hout). symmetry. apply Hi'.
        intros C. apply Hout, Hin'. exact C. }
    destruct db1, db2. cbn in *. congruence.
Qed.

Lemma pay_all_order_witness :
  let db1 := pay_all Sample.db_sold
               [(Sample.jan15, 1); (Sample.jan15, 2); (Sample.jan31, 3)] in
  let db2 := pay_all Sample.db_sold
               [(Sample.jan15, 3); (Sample.jan31, 1); (Sample.jan31, 2)] in
  transactions db1 = transactions db2 /\
  exists r1 r2,
    installments db1 !! 3 = Some r1 /\ installments db2 !! 3 = Some r2 /\
    paid_at r1 = Some Sample.jan31 /\ paid_at r2 = Some Sample.jan15 /\
    Store.status r1 = PAID /\ Store.status r2 = PAID /\
    amount_paid r1 = amount_paid r2.
Proof.
  assert (Hk : keyed_by_id Sample.db_sold = true) by (vm_compute; reflexivity).
  destruct (contracts Sample.db_sold !! 1) as [c|] eqn:Ec;
    [|vm_compute in Ec; discriminate].
  destruct (transactions Sample.db_sold !! contract_transaction_id c) as [t|] eqn:Et.
  2:{ exfalso. vm_compute in Ec. inversion Ec; subst c. vm_compute in Et.
      discriminate. }
  destruct (installments Sample.db_sold !! 3) as [r|] eqn:Er;
    [|vm_compute in Er; discriminate].
  assert (Hnd : NoDup (paid_ids [(Sample.jan15, 1); (Sample.jan15, 2);
                                 (Sample.jan31, 3)])).
  { change (NoDup (seqZ 1 3)). apply NoDup_seqZ. }
  assert (Hall : forall id,
            In id (paid_ids [(Sample.jan15, 1); (Sample.jan15, 2);
                             (Sample.jan31, 3)]) ->
            exists r, installments Sample.db_sold !! id = Some r /\
                      inst_contract_id r = 1 /\ Store.status r <> PAID).
  { intros id Hin.
    destruct Hin as [<-|[<-|[<-|[]]]];
      (eexists; split; [vm_compute; reflexivity|split; [reflexivity|discriminate]]). }
  assert (Hperm : Permutation
                    (paid_ids [(Sample.jan15, 1); (Sample.jan15, 2);
                               (Sample.jan31, 3)])
                    (paid_ids [(Sample.jan15, 3); (Sample.jan31, 1);
                               (Sample.jan31, 2)])).
  { apply Permutation_sym, (Permutation_cons_app [1; 2] [] 3). reflexivity. }
  destruct (pay_all_order Sample.db_sold 1 c t _ _ Hk Ec Et Hnd Hall Hperm)
    as (_ & _ & _ & _ & Htx & _ & _ & _ & _ & Hrows & _).
  cbv zeta. split; [exact Htx|].
  destruct (Hrows Sample.jan31 Sample.jan15 3 r) as
      (r1 & r2 & H1 & H2 & H3 & H4 & H5 & H6 & H7 & H8 & _).
  - right. right. left. reflexivity.
  - left. reflexivity.
  - exact Er.
  - exists r1, r2. repeat split; try assumption. congruence.
Defined.

(** X6.  From sale to settlement.  In a store whose rows are keyed by
    their ids and whose id sequences lie above the stored rows, after a
    sale with a positive tenor the transaction is ACTIVE; paying all its
    installments, in any order and at any clock readings, leaves it
    PAID, and as long as one of them has not been paid it stays as the
    sale left it. *)
Theorem createTransaction_pay_all now now' db input db' res :
  createTransaction now now' db input = inr (db', res) ->
  keyed_by_id db = true ->
  counters_fresh db ->
  0 < c_tenorMonths input ->
  let created := map installment_id (cr_installments res) in
  let tid := transaction_id (cr_transaction res) in
  tx_status <$> transactions db' !! tid = Some ACTIVE /\
  (forall requests, Permutation (paid_ids requests) created ->
     tx_status <$> transactions (pay_all db' requests) !! tid = Some TX_PAID) /\
  (forall requests id0, NoDup (paid_ids requests) ->
     incl (paid_ids requests) created ->
     In id0 created -> ~ In id0 (paid_ids requests) ->
     transactions (pay_all db' requests) = transactions db').
Proof.
  intros Hrun Hkey Hfresh Hten created tid.
  destruct (createTransaction_rows _ _ _ _ _ _ Hrun)
    as (Hcc & Hct & Htt & Hact & Hc & Ht & Hnd & Hrows & Hinv).
  cbv zeta in *.
  pose proof (createTransaction_keyed _ _ _ _ _ _ Hkey Hrun) as Hkey'.
  pose proof (keyed_by_id_spec db' Hkey') as Hkeys.
  destruct Hfresh as (_ & _ & _ & Hold).
  assert (Hct' : transactions db' !! contract_transaction_id (cr_contract res)
                 = Some (cr_transaction res)) by (rewrite Hct; exact Ht).
  assert (Hall : forall ids, incl ids created ->
            forall id, In id ids ->
              exists r, installments db' !! id = Some r /\
                        inst_contract_id r = next_contract_id db /\
                        Store.status r <> PAID).
  { intros ids Hincl id Hin. apply Hincl in Hin. unfold created in Hin.
    apply in_map_iff in Hin as (r & <- & Hr).
    destruct (Hrows r Hr) as (H1 & H2 & H3).
    exists r. split; [exact H1|]. split; [exact H2|]. rewrite H3. discriminate. }
  split; [subst tid; rewrite Htt, Ht; cbn; rewrite Hact; reflexivity|].
  split.
  - intros requests Hperm.
    assert (Hnd' : NoDup (paid_ids requests)).
    { rewrite Hperm. exact Hnd. }
    assert (Hne : requests <> []).
    { intros ->. apply Permutation_nil in Hperm.
      destruct (createTransaction_inr _ _ _ _ _ _ Hrun)
        as (? & ? & sim & _ & _ & _ & _ & _ & _ & Hrest).
      cbv zeta in Hrest. destruct Hrest as (Hr & _).
      unfold created in Hperm. rewrite Hr, rows_from_ids in Hperm.
      apply (f_equal (@length Z)) in Hperm. rewrite !length_seqZ in Hperm.
      cbn in Hperm. lia. }
    assert (Hincl : incl (paid_ids requests) created).
    { intros k Hk. apply list_elem_of_In. rewrite <- Hperm.
      apply list_elem_of_In. exact Hk. }
    destruct (pay_all_run requests db' (next_contract_id db) (cr_contract res)
                (cr_transaction res) Hkey' Hc Hct' Hnd' Hne (Hall _ Hincl))
      as (Hi & _ & Htx & _).
    cbv zeta in Hi, Htx.
    assert (Hset : contract_settled (pay_all db' requests) (next_contract_id db)
                   = true).
    { unfold contract_settled. apply forallb_installments_of.
      intros k r Hk Hcid. apply status_eqb_PAID.
      destruct (in_dec Z.eq_dec k (paid_ids requests)) as [Hin|Hout].
      - apply (pay_all_paid requests db' (next_contract_id db) (cr_contract res)
                 (cr_transaction res) k r Hkey' Hc Hct' Hnd' (Hall _ Hincl) Hin Hk).
      - exfalso. apply Hout. rewrite (Hi k Hout) in Hk.
        apply list_elem_of_In. rewrite Hperm. apply list_elem_of_In.
        destruct (Hinv k r Hk) as [Ho|Hn].
        + specialize (Hold k r Ho). lia.
        + unfold created. apply in_map_iff. exists r.
          split; [|exact Hn]. apply (Hkeys k r Hk). }
    rewrite Hset in Htx. rewrite Htx. subst tid.
    rewrite Htt, <- Hct, lookup_insert_eq. reflexivity.
  - intros requests id0 Hnd' Hincl Hin0 Hnot.
    destruct requests as [|q1 requests1]; [reflexivity|].
    destruct (pay_all_run (q1 :: requests1) db' (next_contract_id db)
                (cr_contract res) (cr_transaction res) Hkey' Hc Hct' Hnd'
                ltac:(discriminate) (Hall _ Hincl))
      as (Hi & _ & Htx & _).
    cbv zeta in Hi, Htx.
    unfold created in Hin0. apply in_map_iff in Hin0 as (r0 & E0 & Hr0).
    destruct (Hrows r0 Hr0) as (H1 & H2 & H3).
    rewrite (contract_settled_false _ _ id0 r0) in Htx; [exact Htx| |exact H2|].
    + rewrite (Hi id0 Hnot). rewrite <- E0. exact H1.
    + rewrite H3. discriminate.
Qed.

Lemma counters_fresh_sample : counters_fresh Sample.db.
Proof.
  unfold counters_fresh. cbn.
  repeat split; intros; try apply lookup_empty.
  rewrite lookup_empty in H. discriminate.
Qed.

Lemma createTransaction_pay_all_witness :
  exists db' res,
    createTransaction Sample.jan15 Sample.jan15 Sample.db Sample.sale
      = inr (db', res) /\
    tx_status <$> transactions db' !! transaction_id (cr_transaction res)
      = Some ACTIVE /\
    tx_status <$> transactions
                    (pay_all db'
                       (map (fun r => (due_date r, installment_id r))
                          (cr_installments res)))
                  !! transaction_id (cr_transaction res)
      = Some TX_PAID.
Proof.
  destruct (createTransaction Sample.jan15 Sample.jan15 Sample.db Sample.sale)
    as [msg|[db' res]] eqn:E; [vm_compute in E; discriminate|].
  exists db', res. split; [reflexivity|].
  assert (Hk : keyed_by_id Sample.db = true) by (vm_compute; reflexivity).
  assert (Ht : 0 < c_tenorMonths Sample.sale) by (vm_compute; reflexivity).
  destruct (createTransaction_pay_all Sample.jan15 Sample.jan15
              Sample.db Sample.sale db' res E Hk counters_fresh_sample Ht)
    as (H1 & H2 & _).
  split; [exact H1|]. apply H2.
  unfold paid_ids. rewrite map_map. cbn [snd]. reflexivity.
Defined.

End SaleToSettlement.

(** ** What a payment leaves alone *)

Section PaymentFrame.

Import Dec Store Text Credit Payment Ledger Lifecycle.
Local Open Scope Z_scope.

(** The store a successful unit of work returns. *)
Lemma pay_unit_of_work_inr now db id db' :
  pay_unit_of_work now db id = inr db' ->
  exists r c,
    installments db !! id = Some r /\
    Store.status r <> PAID /\
    contracts db !! inst_contract_id r = Some c /\
    installments db' = alter (mark_paid now (amount_due r)) id (installments db) /\
    (transactions db' = transactions db \/
     transactions db'
     = alter (set_status_tx TX_PAID) (contract_transaction_id c) (transactions db)) /\
    schemes db' = schemes db /\ products db' = products db /\
    customers db' = customers db /\ contracts db' = contracts db /\
    next_transaction_id db' = next_transaction_id db /\
    next_contract_id db' = next_contract_id db /\
    next_installment_id db' = next_installment_id db.
Proof.
  unfold pay_unit_of_work. intros H.
  destruct (installments db !! id) as [r|] eqn:Hr; [|discriminate].
  destruct (InstallmentStatus_eqb (Store.status r) PAID) eqn:Es; [discriminate|].
  cbn [negb] in H.
  destruct (contracts db !! inst_contract_id r) as [c|] eqn:Hc; [|discriminate].
  exists r, c.
  assert (Hs : Store.status r <> PAID).
  { intros E. apply status_eqb_PAID in E. congruence. }
  destruct (forallb _ _).
  - cbn [transactions with_installments] in H.
    destruct (transactions db !! contract_transaction_id c); [|discriminate].
    inversion H; subst db'; clear H. cbn. repeat split; auto.
  - inversion H; subst db'; clear H. cbn. repeat split; auto.
Qed.

(** X7.  What a payment request leaves alone.  The schemes, products,
    customers, contracts and id sequences are as they were; no
    installment and no transaction is added or removed; every
    installment other than the one addressed is untouched, and the
    addressed one keeps its id, contract, number, due date, amount_due
    and penalties: either it is unchanged, or it has become PAID with
    amount_paid = amount_due and paid_at = the clock reading.  A
    transaction keeps every field but its status, which is unchanged or
    has become PAID.  A request that is not answered 200 leaves the
    whole store as it was; one that is answered 200 found its row not
    PAID and has made it PAID. *)
Theorem payInstallment_frame now db id :
  let db' := fst (payInstallment now db id) in
  let resp := snd (payInstallment now db id) in
  schemes db' = schemes db /\ products db' = products db /\
  customers db' = customers db /\ contracts db' = contracts db /\
  next_transaction_id db' = next_transaction_id db /\
  next_contract_id db' = next_contract_id db /\
  next_installment_id db' = next_installment_id db /\
  (forall k, id <> Some k -> installments db' !! k = installments db !! k) /\
  (forall k, installments db' !! k = None <-> installments db !! k = None) /\
  (forall k r', installments db' !! k = Some r' ->
     exists r,
       installments db !! k = Some r /\
       installment_id r' = installment_id r /\
       inst_contract_id r' = inst_contract_id r /\
       installment_nth r' = installment_nth r /\
       due_date r' = due_date r /\
       amount_due r' = amount_due r /\
       penalty_paid r' = penalty_paid r /\
       penalty_accrued r' = penalty_accrued r /\
       (r' = r \/
        id = Some k /\ Store.status r <> PAID /\ Store.status r' = PAID /\
        amount_paid r' = amount_due r /\ paid_at r' = Some now)) /\
  (forall k, transactions db' !! k = None <-> transactions db !! k = None) /\
  (forall k t', transactions db' !! k = Some t' ->
     exists t,
       transactions db !! k = Some t /\
       transaction_id t' = transaction_id t /\
       tx_customerId t' = tx_customerId t /\
       tx_productId t' = tx_productId t /\
       tx_customer_name t' = tx_customer_name t /\
       tx_customer_phone t' = tx_customer_phone t /\
       tx_customer_ktp t' = tx_customer_ktp t /\
       total_price t' = total_price t /\
       dp_amount t' = dp_amount t /\
       scheme_snapshot t' = scheme_snapshot t /\
       (tx_status t' = tx_status t \/ tx_status t' = TX_PAID)) /\
  (Payment.status resp <> 200 -> db' = db) /\
  (Payment.status resp = 200 ->
   exists k r r',
     id = Some k /\ installments db !! k = Some r /\ Store.status r <> PAID /\
     installments db' !! k = Some r' /\ Store.status r' = PAID /\
     amount_paid r' = amount_due r /\ paid_at r' = Some now).
Proof.
  assert (Hsame : forall db0 : Db,
            (forall k, installments db0 !! k = None <-> installments db0 !! k = None) /\
            (forall k r', installments db0 !! k = Some r' ->
               exists r,
                 installments db0 !! k = Some r /\
                 installment_id r' = installment_id r /\
                 inst_contract_id r' = inst_contract_id r /\
                 installment_nth r' = installment_nth r /\
                 due_date r' = due_date r /\
                 amount_due r' = amount_due r /\
                 penalty_paid r' = penalty_paid r /\
                 penalty_accrued r' = penalty_accrued r /\
                 (r' = r \/
                  id = Some k /\ Store.status r <> PAID /\ Store.status r' = PAID /\
                  amount_paid r' = amount_due r /\ paid_at r' = Some now)) /\
            (forall k, transactions db0 !! k = None <-> transactions db0 !! k = None) /\
            (forall k t', transactions db0 !! k = Some t' ->
               exists t,
                 transactions db0 !! k = Some t /\
                 transaction_id t' = transaction_id t /\
                 tx_customerId t' = tx_customerId t /\
                 tx_productId t' = tx_productId t /\
                 tx_customer_name t' = tx_customer_name t /\
                 tx_customer_phone t' = tx_customer_phone t /\
                 tx_customer_ktp t' = tx_customer_ktp t /\
                 total_price t' = total_price t /\
                 dp_amount t' = dp_amount t /\
                 scheme_snapshot t' = scheme_snapshot t /\
                 (tx_status t' = tx_status t \/ tx_status t' = TX_PAID))).
  { intros db0. split; [tauto|]. split.
    - intros k r' H. exists r'. repeat split; auto.
    - split; [tauto|]. intros k t' H. exists t'. repeat split; auto. }
  unfold payInstallment. destruct id as [id|].
  2:{ cbn [fst snd]. destruct (Hsame db) as (H1 & H2 & H3 & H4).
      do 7 (split; [reflexivity|]). split; [intros; reflexivity|].
      split; [exact H1|]. split; [exact H2|]. split; [exact H3|].
      split; [exact H4|]. split; [intros; reflexivity|].
      cbn. discriminate. }
  destruct (pay_unit_of_work now db id) as [msg|db'] eqn:E.
  { cbn [fst snd]. destruct (Hsame db) as (H1 & H2 & H3 & H4).
    do 7 (split; [reflexivity|]). split; [intros; reflexivity|].
    split; [exact H1|]. split; [exact H2|]. split; [exact H3|].
    split; [exact H4|]. split; [intros; reflexivity|].
    cbn. discriminate. }
  clear Hsame.
  destruct (pay_unit_of_work_inr _ _ _ _ E)
    as (r & c & Hr & Hs & Hc & Hi & Ht & H1 & H2 & H3 & H4 & H5 & H6 & H7).
  cbn [fst snd Payment.status].
  do 7 (split; [assumption|]).
  split; [|split; [|split; [|split; [|split; [|split]]]]].
  - intros k Hk. rewrite Hi. apply lookup_alter_ne. congruence.
  - intros k. rewrite Hi. apply lookup_alter_None.
  - intros k r' Hk. rewrite Hi in Hk.
    destruct (decide (k = id)) as [->|Hne].
    + rewrite lookup_alter_eq, Hr in Hk. inversion Hk; subst r'.
      exists r. split; [exact Hr|]. cbn. repeat split. right. repeat split.
      exact Hs.
    + rewrite lookup_alter_ne in Hk by congruence.
      exists r'. repeat split; auto.
  - intros k. destruct Ht as [Ht|Ht]; rewrite Ht; [tauto|].
    apply lookup_alter_None.
  - intros k t' Hk. destruct Ht as [Ht|Ht]; rewrite Ht in Hk.
    + exists t'. repeat split; auto.
    + destruct (decide (k = contract_transaction_id c)) as [->|Hne].
      * rewrite lookup_alter_eq in Hk.
        destruct (transactions db !! contract_transaction_id c) as [t|];
          [|discriminate].
        inversion Hk; subst t'. exists t. cbn. repeat split. right. reflexivity.
      * rewrite lookup_alter_ne in Hk by congruence.
        exists t'. repeat split; auto.
  - intros Hne. contradiction.
  - intros _. exists id, r, (mark_paid now (amount_due r) r).
    split; [reflexivity|]. split; [exact Hr|]. split; [exact Hs|].
    split; [rewrite Hi, lookup_alter_eq, Hr; reflexivity|].
    cbn. repeat split.
Qed.


End PaymentFrame.

(** ** Freshness of ids *)

Section WellFormed.

Import Dec Store Text Credit Payment Http Inventory Ledger Lifecycle Requests.
Local Open Scope Z_scope.

Lemma insert_rows_lookup_fresh cid start day amount l next m k :
  ~ (next <= k < next + Z.of_nat (length l)) ->
  insert_rows (rows_from cid start day amount next l) m !! k = m !! k.
Proof.
  intros Hk. apply insert_rows_lookup_other.
  rewrite rows_from_ids. intros Hin. apply list_elem_of_In in Hin.
  apply elem_of_seqZ in Hin. lia.
Qed.

(** A sale keeps the store well formed. *)
Lemma createTransaction_well_formed now now' db input db' res :
  well_formed db ->
  createTransaction now now' db input = inr (db', res) ->
  well_formed db'.
Proof.
  intros [Hkey (Hft & Hfc & Hfi & Hold)] Hrun.
  pose proof (createTransaction_keyed _ _ _ _ _ _ Hkey Hrun) as Hkey'.
  destruct (createTransaction_counters _ _ _ _ _ _ Hrun) as (Hn1 & Hn2 & Hn3).
  destruct (createTransaction_rows _ _ _ _ _ _ Hrun)
    as (_ & _ & _ & _ & _ & _ & _ & Hrows & Hinv).
  cbv zeta in *.
  destruct (createTransaction_inr _ _ _ _ _ _ Hrun)
    as (product & customer & sim & _ & _ & _ & _ & _ & _ & Hrest).
  cbv zeta in Hrest.
  destruct Hrest as (Hr & _ & _ & _ & _ & Hi & Hcs & Hts & _).
  split; [exact Hkey'|].
  unfold counters_fresh. rewrite Hn1, Hn2, Hn3, Hts, Hcs.
  split; [|split; [|split]].
  - intros k Hk. rewrite lookup_insert_ne by lia. apply Hft. lia.
  - intros k Hk. rewrite lookup_insert_ne by lia. apply Hfc. lia.
  - intros k Hk. rewrite Hi, insert_rows_lookup_fresh by lia. apply Hfi. lia.
  - intros k r Hk.
    destruct (Hinv k r Hk) as [Ho|Hn].
    + specialize (Hold k r Ho). lia.
    + destruct (Hrows r Hn) as (_ & Hc & _). lia.
Qed.

(** X8.  A sale never overwrites a stored row: in a well-formed store
    the transaction, contract and installment ids it takes were unused,
    and every row stored before is still there unchanged. *)
Theorem createTransaction_keeps_rows now now' db input db' res :
  well_formed db ->
  createTransaction now now' db input = inr (db', res) ->
  transactions db !! transaction_id (cr_transaction res) = None /\
  contracts db !! contract_id (cr_contract res) = None /\
  Forall (fun r => installments db !! installment_id r = None)
         (cr_installments res) /\
  (forall k t, transactions db !! k = Some t -> transactions db' !! k = Some t) /\
  (forall k c, contracts db !! k = Some c -> contracts db' !! k = Some c) /\
  (forall k r, installments db !! k = Some r -> installments db' !! k = Some r).
Proof.
  intros [Hkey (Hft & Hfc & Hfi & Hold)] Hrun.
  destruct (createTransaction_rows _ _ _ _ _ _ Hrun)
    as (Hcc & Hct & Htt & _ & _ & _ & _ & Hrows & Hinv).
  cbv zeta in *.
  destruct (createTransaction_inr _ _ _ _ _ _ Hrun)
    as (product & customer & sim & _ & _ & _ & _ & _ & _ & Hrest).
  cbv zeta in Hrest.
  destruct Hrest as (Hr & _ & _ & _ & _ & Hi & Hcs & Hts & _).
  assert (Hids : forall r, In r (cr_installments res) ->
            next_installment_id db <= installment_id r).
  { intros r Hin.
    assert (Hm : installment_id r ∈ map installment_id (cr_installments res)).
    { apply list_elem_of_In, in_map. exact Hin. }
    rewrite Hr, rows_from_ids in Hm. apply elem_of_seqZ in Hm. lia. }
  rewrite Htt, Hcc.
  split; [apply Hft; lia|]. split; [apply Hfc; lia|]. split.
  { apply Forall_forall. intros r Hin. apply list_elem_of_In in Hin.
    apply Hfi. apply Hids. exact Hin. }
  split; [|split].
  - intros k t Hk. rewrite Hts, lookup_insert_ne; [exact Hk|].
    intros E. rewrite Hft in Hk by lia. discriminate.
  - intros k c Hk. rewrite Hcs, lookup_insert_ne; [exact Hk|].
    intros E. rewrite Hfc in Hk by lia. discriminate.
  - intros k r Hk. rewrite Hi, insert_rows_lookup_fresh; [exact Hk|].
    intros Hin. rewrite Hfi in Hk by lia. discriminate.
Qed.

Lemma well_formed_sample : well_formed Sample.db.
Proof. split; [vm_compute; reflexivity|apply counters_fresh_sample]. Qed.

Lemma createTransaction_keeps_rows_witness :
  exists db' res,
    createTransaction Sample.jan15 Sample.jan15 Sample.db_sold Sample.sale
      = inr (db', res) /\
    transactions Sample.db_sold !! transaction_id (cr_transaction res) = None /\
    (forall k r, installments Sample.db_sold !! k = Some r ->
                 installments db' !! k = Some r).
Proof.
  destruct (createTransaction Sample.jan15 Sample.jan15 Sample.db Sample.sale)
    as [msg|[db1 res1]] eqn:E1.
  { exfalso. vm_compute in E1. discriminate. }
  assert (Hs : Sample.db_sold = db1).
  { unfold Sample.db_sold, run_create. rewrite E1. reflexivity. }
  pose proof (createTransaction_well_formed _ _ _ _ _ _ well_formed_sample E1)
    as Hwf1.
  rewrite Hs.
  destruct (createTransaction Sample.jan15 Sample.jan15 db1 Sample.sale)
    as [msg|[db' res]] eqn:E2.
  { exfalso. rewrite <- Hs in E2. vm_compute in E2. discriminate. }
  exists db', res. split; [reflexivity|].
  destruct (createTransaction_keeps_rows _ _ _ _ _ _ Hwf1 E2)
    as (H1 & _ & _ & _ & _ & H7).
  split; [exact H1|exact H7].
Defined.

Lemma pay_well_formed now db id :
  well_formed db -> well_formed (fst (payInstallment now db id)).
Proof.
  intros [Hkey (Hft & Hfc & Hfi & Hold)].
  unfold payInstallment. destruct id as [id|]; [|split; [exact Hkey|repeat split; auto]].
  destruct (pay_unit_of_work now db id) as [msg|db'] eqn:E;
    [split; [exact Hkey|repeat split; auto]|].
  cbn [fst]. split; [exact (pay_unit_of_work_keyed _ _ _ _ Hkey E)|].
  destruct (pay_unit_of_work_inr _ _ _ _ E)
    as (r & c & Hr & Hs & Hc & Hi & Ht & H1 & H2 & H3 & H4 & H5 & H6 & H7).
  unfold counters_fresh. rewrite H4, H5, H6, H7, Hi.
  split; [|split; [exact Hfc|split]].
  - intros k Hk. destruct Ht as [Ht|Ht]; rewrite Ht; [apply Hft; exact Hk|].
    destruct (decide (k = contract_transaction_id c)) as [->|Hne].
    + rewrite lookup_alter_eq, Hft by exact Hk. reflexivity.
    + rewrite lookup_alter_ne by congruence. apply Hft. exact Hk.
  - intros k Hk. destruct (decide (k = id)) as [->|Hne].
    + rewrite lookup_alter_eq, Hfi by exact Hk. reflexivity.
    + rewrite lookup_alter_ne by congruence. apply Hfi. exact Hk.
  - intros k r' Hk. destruct (decide (k = id)) as [->|Hne].
    + rewrite lookup_alter_eq, Hr in Hk. inversion Hk. cbn.
      apply (Hold id r Hr).
    + rewrite lookup_alter_ne in Hk by congruence. apply (Hold k r' Hk).
Qed.

(** The products are the only table a restock touches. *)
Lemma restockProduct_frame db id q :
  let db' := fst (restockProduct db id q) in
  schemes db' = schemes db /\ customers db' = customers db /\
  transactions db' = transactions db /\ contracts db' = contracts db /\
  installments db' = installments db /\
  next_transaction_id db' = next_transaction_id db /\
  next_contract_id db' = next_contract_id db /\
  next_installment_id db' = next_installment_id db.
Proof.
  unfold restockProduct. destruct id as [id|]; [|cbn; repeat split].
  destruct (_ || _); [cbn; repeat split|].
  destruct (to_Z _); [|cbn; repeat split].
  destruct (products db !! id); cbn; repeat split.
Qed.

Lemma restock_well_formed db id q :
  well_formed db -> well_formed (fst (restockProduct db id q)).
Proof.
  intros [Hkey Hfresh].
  destruct (restockProduct_frame db id q)
    as (H1 & H2 & H3 & H4 & H5 & H6 & H7 & H8).
  cbv zeta in *. split.
  - unfold keyed_by_id. rewrite H5. exact Hkey.
  - unfold counters_fresh. rewrite H3, H4, H5, H6, H7, H8. exact Hfresh.
Qed.

Lemma run_well_formed db r : well_formed db -> well_formed (run db r).
Proof.
  intros Hwf. destruct r as [now now' input|now id|id q]; cbn [run].
  - destruct (createTransaction now now' db input) as [msg|[db' res]] eqn:E;
      [exact Hwf|].
    apply (createTransaction_well_formed _ _ _ _ _ _ Hwf E).
  - apply pay_well_formed. exact Hwf.
  - apply restock_well_formed. exact Hwf.
Qed.

End WellFormed.

(** ** Sales, payments and restocks in sequence *)

Section RequestRuns.

Import Dec Store Text Credit Payment Http Inventory Ledger Lifecycle Requests.
Local Open Scope Z_scope.

(** X9.  Every store reached from a well-formed one by sales, payments
    and restocks, whatever their outcome, is well formed: rows sit under
    their own ids, the id sequences lie above all stored rows and every
    installment belongs to a contract id that has been handed out. *)
Theorem run_requests_well_formed rs : forall db,
  well_formed db -> well_formed (run_requests db rs).
Proof.
  unfold run_requests.
  induction rs as [|r rs IH]; intros db Hwf; [exact Hwf|].
  cbn [fold_left]. apply IH. apply run_well_formed. exact Hwf.
Qed.

Lemma run_requests_well_formed_witness :
  well_formed
    (run_requests Sample.db
       [Sale Sample.jan15 Sample.jan15 Sample.sale;
        Pay Sample.jan31 (Some 2);
        Restock (Some 7) (Sample.num 3);
        Sale Sample.jan31 Sample.jan31 Sample.sale]).
Proof. apply run_requests_well_formed. apply well_formed_sample. Defined.

(** A quantity the restock handler lets through is a positive integer. *)
Lemma to_Z_positive d n :
  lte d (of_Z 0) = false -> to_Z d = Some n -> 0 < n.
Proof.
  unfold lte. rewrite lt_zero_l. intros Hpos Hz.
  apply negb_false_iff, Z.ltb_lt in Hpos.
  unfold to_Z in Hz.
  destruct (Z.leb_spec 0 (dexp d)).
  - inversion Hz. apply Z.mul_pos_pos; [exact Hpos|]. apply pow10_pos. lia.
  - destruct (Z.eqb_spec (coef d mod 10 ^ (- dexp d)) 0) as [E|E]; [|discriminate].
    inversion Hz.
    assert (Hp : 0 < 10 ^ (- dexp d)) by (apply pow10_pos; lia).
    pose proof (Z.div_mod (coef d) (10 ^ (- dexp d)) ltac:(lia)) as Hdm.
    rewrite E in Hdm. nia.
Qed.





End RequestRuns.

(** ** The list of active contracts *)

Section ActiveContracts.

Import Dec Store Text Credit Payment Ledger Lifecycle Contracts.
Local Open Scope Z_scope.

Lemma by_nth_total : Total by_nth.
Proof. intros a b. unfold by_nth. lia. Qed.

Lemma by_nth_trans : Transitive by_nth.
Proof. intros a b c. unfold by_nth. lia. Qed.

Lemma TransactionStatus_eqb_ACTIVE s :
  TransactionStatus_eqb s ACTIVE = true <-> s = ACTIVE.
Proof. destruct s; cbn; split; congruence. Qed.

Lemma included_Some db c ac :
  included db c = Some ac <->
  exists t,
    transactions db !! contract_transaction_id c = Some t /\
    tx_status t = ACTIVE /\
    ac = mkActiveContract c t (products db !! tx_productId t)
           (merge_sort by_nth (installments_of db (contract_id c))).
Proof.
  unfold included. split.
  - destruct (transactions db !! contract_transaction_id c) as [t|]; [|discriminate].
    destruct (TransactionStatus_eqb (tx_status t) ACTIVE) eqn:E; [|discriminate].
    intros H. inversion H. exists t.
    split; [reflexivity|]. split; [|reflexivity].
    apply TransactionStatus_eqb_ACTIVE. exact E.
  - intros (t & Ht & Hs & ->). rewrite Ht, Hs. reflexivity.
Qed.

Lemma elem_of_getActiveContracts db ac :
  ac ∈ getActiveContracts db <->
  exists k c, contracts db !! k = Some c /\ included db c = Some ac.
Proof.
  unfold getActiveContracts. rewrite merge_sort_Permutation, list_elem_of_omap.
  split.
  - intros (c & Hc & Hi). apply list_elem_of_fmap in Hc as ([k c'] & -> & Hk).
    apply elem_of_map_to_list in Hk. exists k, c'. split; assumption.
  - intros (k & c & Hk & Hi). exists c. split; [|exact Hi].
    apply list_elem_of_fmap. exists (k, c). split; [reflexivity|].
    apply elem_of_map_to_list. exact Hk.
Qed.

Lemma elem_of_installments_of db cid r :
  r ∈ installments_of db cid <->
  exists k, installments db !! k = Some r /\ inst_contract_id r = cid.
Proof.
  unfold installments_of. rewrite list_elem_of_filter, list_elem_of_fmap. split.
  - intros (Hc & [k r'] & -> & Hk). apply elem_of_map_to_list in Hk.
    exists k. split; assumption.
  - intros (k & Hk & Hc). split; [exact Hc|]. exists (k, r).
    split; [reflexivity|]. apply elem_of_map_to_list. exact Hk.
Qed.

(** The sample store after the sale of 15 January: one active contract,
    its installments in order; none once the three are paid. *)
Example active_contracts_sample :
  map (fun ac => (contract_id (ac_contract ac),
                  transaction_id (ac_transaction ac),
                  map installment_nth (ac_installments ac)))
      (getActiveContracts Sample.db_sold)
  = [(1, 1, [1; 2; 3])] /\
  getActiveContracts
    (pay_all Sample.db_sold
       [(Sample.jan15, 2); (Sample.jan31, 3); (Sample.jan31, 1)]) = [].
Proof. vm_compute. split; reflexivity. Qed.

(** *** The list along the life of a contract *)

Lemma StronglySorted_seq a k : StronglySorted Nat.lt (seq a k).
Proof.
  revert a. induction k as [|k IH]; intros a; cbn; constructor.
  - apply IH.
  - apply List.Forall_forall. intros x Hx. apply in_seq in Hx. lia.
Qed.

Lemma StronglySorted_seqZ m n : StronglySorted Z.le (seqZ m n).
Proof.
  unfold seqZ.
  apply (StronglySorted_fmap _ Nat.lt Z.le); [|apply StronglySorted_seq].
  intros x y H. lia.
Qed.

Lemma rows_from_nth_in cid start day amount l next y :
  In y (rows_from cid start day amount next l) -> In (installment_nth y) l.
Proof.
  intros H. rewrite <- (rows_from_nth cid start day amount l next).
  apply in_map. exact H.
Qed.

Lemma rows_from_sorted cid start day amount l : forall next,
  StronglySorted Z.le l ->
  StronglySorted by_nth (rows_from cid start day amount next l).
Proof.
  induction l as [|i l IH]; intros next Hs; cbn [rows_from]; constructor.
  - apply IH. inversion Hs. assumption.
  - apply List.Forall_forall. intros y Hy. apply rows_from_nth_in in Hy.
    inversion Hs as [|? ? _ Hall]; subst.
    rewrite List.Forall_forall in Hall. unfold by_nth. cbn. apply Hall. exact Hy.
Qed.

Lemma rows_from_inj cid start day amount l : forall next x y,
  List.NoDup l ->
  In x (rows_from cid start day amount next l) ->
  In y (rows_from cid start day amount next l) ->
  installment_nth x = installment_nth y -> x = y.
Proof.
  induction l as [|i l IH]; intros next x y Hnd Hx Hy E; [contradiction|].
  inversion Hnd as [|? ? Hni Hnd']; subst.
  cbn [rows_from] in Hx, Hy. destruct Hx as [Hx|Hx], Hy as [Hy|Hy].
  - congruence.
  - exfalso. apply Hni. apply rows_from_nth_in in Hy.
    rewrite <- E, <- Hx in Hy. exact Hy.
  - exfalso. apply Hni. apply rows_from_nth_in in Hx.
    rewrite E, <- Hy in Hx. exact Hx.
  - apply (IH (next + 1)); assumption.
Qed.

Lemma NoDup_installments_of db cid :
  keyed_by_id db = true -> NoDup (installments_of db cid).
Proof.
  intros Hkey. pose proof (keyed_by_id_spec db Hkey) as Hk.
  unfold installments_of. apply NoDup_filter.
  apply NoDup_fmap_2_strong; [|apply NoDup_map_to_list].
  intros [k1 r1] [k2 r2] H1 H2 E. cbn in E. subst r2.
  apply elem_of_map_to_list in H1, H2.
  rewrite <- (Hk k1 r1 H1), <- (Hk k2 r1 H2). reflexivity.
Qed.

(** The installments of a freshly sold contract, as the list shows
    them. *)
Lemma created_installments_listed now now' db input db' res :
  well_formed db ->
  createTransaction now now' db input = inr (db', res) ->
  merge_sort by_nth (installments_of db' (next_contract_id db))
  = cr_installments res.
Proof.
  intros Hwf Hrun.
  pose proof (createTransaction_well_formed _ _ _ _ _ _ Hwf Hrun) as [Hkey' _].
  destruct Hwf as [Hkey (_ & _ & _ & Hold)].
  destruct (createTransaction_rows _ _ _ _ _ _ Hrun)
    as (_ & _ & _ & _ & _ & _ & Hnd & Hrows & Hinv).
  cbv zeta in *.
  destruct (createTransaction_inr _ _ _ _ _ _ Hrun)
    as (product & customer & sim & _ & _ & _ & _ & _ & _ & Hrest).
  cbv zeta in Hrest. destruct Hrest as (Hr & _).
  assert (Hperm : merge_sort by_nth (installments_of db' (next_contract_id db))
                  ≡ₚ cr_installments res).
  { rewrite merge_sort_Permutation. apply NoDup_Permutation.
    - apply NoDup_installments_of. exact Hkey'.
    - apply (NoDup_fmap_1 installment_id). exact Hnd.
    - intros r. rewrite elem_of_installments_of. split.
      + intros (k & Hk & Hc). apply list_elem_of_In.
        destruct (Hinv k r Hk) as [Ho|Hn]; [|exact Hn].
        specialize (Hold k r Ho). lia.
      + intros Hin. apply list_elem_of_In in Hin.
        destruct (Hrows r Hin) as (H1 & H2 & _).
        exists (installment_id r). split; assumption. }
  apply (StronglySorted_unique_strong by_nth).
  - intros x1 x2 H1 H2 L1 L2. rewrite Hperm in H1.
    apply list_elem_of_In in H1, H2. rewrite Hr in H1, H2.
    eapply rows_from_inj; [|exact H1|exact H2|unfold by_nth in *; lia].
    apply NoDup_ListNoDup, NoDup_seqZ.
  - apply StronglySorted_merge_sort; [apply by_nth_trans|apply by_nth_total].
  - rewrite Hr. apply rows_from_sorted. apply StronglySorted_seqZ.
  - exact Hperm.
Qed.

(** X12.  The list follows the life of a contract.  Right after a sale
    (positive tenor, well-formed store) the new contract is on the list
    of active contracts, with its transaction and with the installments
    the sale returned, in the same order; once all of them have been
    paid, in any order and at any clock readings, it is no longer on the
    list. *)
Theorem getActiveContracts_lifecycle now now' db input db' res :
  well_formed db ->
  createTransaction now now' db input = inr (db', res) ->
  0 < c_tenorMonths input ->
  (exists ac,
     ac ∈ getActiveContracts db' /\
     ac_contract ac = cr_contract res /\
     ac_transaction ac = cr_transaction res /\
     ac_installments ac = cr_installments res) /\
  (forall requests ac,
     Permutation (paid_ids requests) (map installment_id (cr_installments res)) ->
     ac ∈ getActiveContracts (pay_all db' requests) ->
     ac_contract ac <> cr_contract res).
Proof.
  intros Hwf Hrun Hten.
  pose proof (created_installments_listed _ _ _ _ _ _ Hwf Hrun) as Hlist.
  pose proof (createTransaction_well_formed _ _ _ _ _ _ Hwf Hrun) as [Hkey' _].
  pose proof (keyed_by_id_spec db' Hkey') as Hkeys.
  destruct (createTransaction_rows _ _ _ _ _ _ Hrun)
    as (Hcc & Hct & Htt & Hact & Hc & Ht & Hnd & Hrows & Hinv).
  cbv zeta in *.
  assert (Hct' : transactions db' !! contract_transaction_id (cr_contract res)
                 = Some (cr_transaction res)) by (rewrite Hct; exact Ht).
  split.
  - exists (mkActiveContract (cr_contract res) (cr_transaction res)
              (products db' !! tx_productId (cr_transaction res))
              (cr_installments res)).
    split; [|cbn; repeat split].
    apply elem_of_getActiveContracts.
    exists (next_contract_id db), (cr_contract res). split; [exact Hc|].
    apply included_Some. exists (cr_transaction res).
    split; [exact Hct'|]. split; [exact Hact|].
    rewrite Hcc, Hlist. reflexivity.
  - intros requests ac Hperm Hin Eac.
    apply elem_of_getActiveContracts in Hin as (k & c & Hk & Hi).
    apply included_Some in Hi as (t & Ht' & Hs & ->). cbn in Eac. subst c.
    assert (Hnd' : NoDup (paid_ids requests)) by (rewrite Hperm; exact Hnd).
    assert (Hne : requests <> []).
    { intros ->. apply Permutation_nil in Hperm.
      destruct (createTransaction_inr _ _ _ _ _ _ Hrun)
        as (? & ? & sim & _ & _ & _ & _ & _ & _ & Hrest).
      cbv zeta in Hrest. destruct Hrest as (Hr & _).
      rewrite Hr, rows_from_ids in Hperm.
      apply (f_equal (@length Z)) in Hperm. rewrite !length_seqZ in Hperm.
      cbn in Hperm. lia. }
    assert (Hall : forall id, In id (paid_ids requests) ->
              exists r, installments db' !! id = Some r /\
                        inst_contract_id r = next_contract_id db /\
                        Store.status r <> PAID).
    { intros id Hin. apply list_elem_of_In in Hin. rewrite Hperm in Hin.
      apply list_elem_of_In, in_map_iff in Hin as (r & <- & Hr).
      destruct (Hrows r Hr) as (H1 & H2 & H3).
      exists r. split; [exact H1|]. split; [exact H2|]. rewrite H3. discriminate. }
    destruct (pay_all_run requests db' (next_contract_id db) (cr_contract res)
                (cr_transaction res) Hkey' Hc Hct' Hnd' Hne Hall)
      as (Hi & _ & Htx & _).
    cbv zeta in Hi, Htx.
    destruct Hwf as [_ (_ & _ & _ & Hold)].
    assert (Hset : contract_settled (pay_all db' requests) (next_contract_id db)
                   = true).
    { unfold contract_settled. apply forallb_installments_of.
      intros k' r Hk' Hcid. apply status_eqb_PAID.
      destruct (in_dec Z.eq_dec k' (paid_ids requests)) as [Hin|Hout].
      - apply (pay_all_paid requests db' (next_contract_id db) (cr_contract res)
                 (cr_transaction res) k' r Hkey' Hc Hct' Hnd' Hall Hin Hk').
      - exfalso. apply Hout. rewrite (Hi k' Hout) in Hk'.
        apply list_elem_of_In. rewrite Hperm. apply list_elem_of_In.
        destruct (Hinv k' r Hk') as [Ho|Hn].
        + specialize (Hold k' r Ho). lia.
        + apply in_map_iff. exists r. split; [|exact Hn]. apply (Hkeys k' r Hk'). }
    rewrite Hset in Htx. rewrite Htx, lookup_insert_eq in Ht'.
    inversion Ht'; subst t. cbn in Hs. discriminate.
Qed.

Lemma getActiveContracts_lifecycle_witness :
  exists db' res,
    createTransaction Sample.jan15 Sample.jan15 Sample.db Sample.sale
      = inr (db', res) /\
    (exists ac,
       ac ∈ getActiveContracts db' /\
       ac_contract ac = cr_contract res /\
       ac_transaction ac = cr_transaction res /\
       ac_installments ac = cr_installments res) /\
    (forall ac,
       ac ∈ getActiveContracts
              (pay_all db'
                 (map (fun r => (due_date r, installment_id r))
                    (cr_installments res))) ->
       ac_contract ac <> cr_contract res).
Proof.
  destruct (createTransaction Sample.jan15 Sample.jan15 Sample.db Sample.sale)
    as [msg|[db' res]] eqn:E; [vm_compute in E; discriminate|].
  exists db', res. split; [reflexivity|].
  assert (Ht : 0 < c_tenorMonths Sample.sale) by (vm_compute; reflexivity).
  destruct (getActiveContracts_lifecycle Sample.jan15 Sample.jan15
              Sample.db Sample.sale db' res well_formed_sample E Ht)
    as (H1 & H2).
  split; [exact H1|]. intros ac. apply H2.
  unfold paid_ids. rewrite map_map. cbn [snd]. reflexivity.
Defined.

End ActiveContracts.

(** ** Schedules on the list of active contracts *)

Section ActiveSchedules.

Import Dec Store Text Credit Payment Http Inventory Ledger Lifecycle Requests.
Import Contracts Schedules.
Local Open Scope Z_scope.

Lemma positive_tenors_spec db k s t :
  positive_tenors db = true ->
  schemes db !! k = Some s -> In t (tenor_options s) -> 0 < t.
Proof.
  unfold positive_tenors. rewrite forallb_forall. intros H Hk Ht.
  assert (Hin : In (k, s) (map_to_list (schemes db))).
  { apply list_elem_of_In, elem_of_map_to_list. exact Hk. }
  specialize (H (k, s) Hin). cbn [snd] in H. rewrite forallb_forall in H.
  apply Z.ltb_lt. apply H. exact Ht.
Qed.

Lemma forallb_false_elim {A : Type} (f : A -> bool) l :
  forallb f l = false -> exists x, In x l /\ f x = false.
Proof.
  induction l as [|a l IH]; [discriminate|]. cbn [forallb].
  destruct (f a) eqn:E; cbn [andb].
  - intros H. destruct (IH H) as (x & Hx & Hf). exists x. split; [right|]; assumption.
  - intros _. exists a. split; [left; reflexivity|exact E].
Qed.

(** What a successful unit of work does, told by the other installments
    of the contract. *)
Lemma pay_unit_of_work_effect now db id db' :
  keyed_by_id db = true ->
  pay_unit_of_work now db id = inr db' ->
  exists r c,
    installments db !! id = Some r /\ Store.status r <> PAID /\
    contracts db !! inst_contract_id r = Some c /\
    installments db' = alter (mark_paid now (amount_due r)) id (installments db) /\
    ((forall k s, installments db !! k = Some s ->
                  inst_contract_id s = inst_contract_id r -> k <> id ->
                  Store.status s = PAID) /\
     transactions db'
     = alter (set_status_tx TX_PAID) (contract_transaction_id c) (transactions db)
     \/
     (exists k s, installments db !! k = Some s /\
                  inst_contract_id s = inst_contract_id r /\ k <> id /\
                  Store.status s <> PAID) /\
     transactions db' = transactions db).
Proof.
  intros Hkey Hrun.
  destruct (pay_unit_of_work_inr _ _ _ _ Hrun)
    as (r & c & Hr & Hs & Hc & Hi & _).
  exists r, c. repeat (split; [assumption|]).
  rewrite (pay_unit_of_work_unpaid now db id r c Hr Hs Hc) in Hrun.
  cbv zeta in Hrun.
  destruct (forallb _ _) eqn:Eall.
  - left. split.
    + apply (proj1 (allPaid_iff_siblings db id (inst_contract_id r) Hkey)).
      exact Eall.
    + destruct (transactions db !! contract_transaction_id c); [|discriminate].
      inversion Hrun. reflexivity.
  - right. split; [|inversion Hrun; reflexivity].
    apply forallb_false_elim in Eall as (s & Hin & Hf).
    apply list_elem_of_In, elem_of_installments_of in Hin as (k & Hk & Hcid).
    rewrite (keyed_by_id_spec db Hkey k s Hk) in Hf.
    destruct (Z.eqb_spec k id) as [|Hne]; [discriminate|].
    exists k, s. repeat (split; [assumption|]).
    intros E. apply status_eqb_PAID in E. congruence.
Qed.

(** A sale keeps the ledger sound. *)
Lemma createTransaction_ledger_sound now now' db input db' res :
  ledger_sound db ->
  createTransaction now now' db input = inr (db', res) ->
  ledger_sound db'.
Proof.
  intros (Hwf & Hpos & Hcon & Hinj) Hrun.
  pose proof (createTransaction_well_formed _ _ _ _ _ _ Hwf Hrun) as Hwf'.
  destruct Hwf as [Hkey (Hft & Hfc & Hfi & Hold)].
  pose proof (keyed_by_id_spec db' (proj1 Hwf')) as Hkeys.
  destruct (createTransaction_counters _ _ _ _ _ _ Hrun) as (Hn1 & Hn2 & Hn3).
  destruct (createTransaction_rows _ _ _ _ _ _ Hrun)
    as (Hcc & Hct & Htt & Hact & Hc & Ht & Hnd & Hrows & Hinv).
  cbv zeta in *.
  destruct (createTransaction_inr _ _ _ _ _ _ Hrun)
    as (product & customer & sim & _ & _ & _ & _ & _ & Hsim & Hrest).
  cbv zeta in Hrest.
  destruct Hrest as (Hr & Hcr & Htr & _ & _ & Hi & Hcs & Hts & Hsch & _).
  destruct (calculateSimulation_inr _ _ _ Hsim) as (s & Hs & _ & Hinc & _).
  cbn [schemeId tenorMonths] in Hs, Hinc.
  assert (Hten : 0 < c_tenorMonths input).
  { eapply (positive_tenors_spec db); [exact Hpos|exact Hs|].
    unfold includesZ in Hinc. apply existsb_exists in Hinc as (x & Hx & E).
    apply Z.eqb_eq in E. subst x. exact Hx. }
  assert (Etm : tenor_months (cr_contract res) = c_tenorMonths input)
    by (rewrite Hcr; reflexivity).
  assert (Emi : monthly_installment (cr_contract res)
                = stored4 (monthlyInstallment (raw sim)))
    by (rewrite Hcr; reflexivity).
  assert (Hkeep : forall k r, installments db !! k = Some r ->
                              installments db' !! k = Some r).
  { intros k r Hk. rewrite Hi, insert_rows_lookup_fresh; [exact Hk|].
    intros Hin. rewrite Hfi in Hk by lia. discriminate. }
  assert (Hnew : forall k r, installments db' !! k = Some r ->
                   inst_contract_id r = next_contract_id db ->
                   In r (cr_installments res)).
  { intros k r Hk Hcid. destruct (Hinv k r Hk) as [Ho|Hn]; [|exact Hn].
    specialize (Hold k r Ho). lia. }
  assert (Holdrow : forall k r, installments db' !! k = Some r ->
                      inst_contract_id r <> next_contract_id db ->
                      installments db !! k = Some r).
  { intros k r Hk Hne. destruct (Hinv k r Hk) as [Ho|Hn]; [exact Ho|].
    destruct (Hrows r Hn) as (_ & Hc' & _). contradiction. }
  split; [exact Hwf'|].
  split; [unfold positive_tenors; rewrite Hsch; exact Hpos|].
  split.
  - intros k c Hk. rewrite Hcs in Hk.
    destruct (decide (k = next_contract_id db)) as [->|Nk].
    + (* the new contract *)
      rewrite lookup_insert_eq in Hk. inversion Hk; subst c; clear Hk.
      split; [exact Hcc|]. split; [rewrite Hct, Hn1; lia|].
      assert (Hsched : complete_schedule db' (cr_contract res)).
      { unfold complete_schedule. rewrite Hcc, Etm, Emi.
        split; [exact Hten|]. split; [|split].
        - intros k1 r1 H1 Hc1. pose proof (Hnew k1 r1 H1 Hc1) as Hin.
          rewrite Hr in Hin. split.
          + apply rows_from_nth_in, list_elem_of_In, elem_of_seqZ in Hin. lia.
          + pose proof (rows_from_Forall
                          (fun r => amount_due r
                                    = stored4 (monthlyInstallment (raw sim)))
                          (next_contract_id db) now' (dueDateDay input)
                          (monthlyInstallment (raw sim))
                          (seqZ 1 (c_tenorMonths input))
                          (fun _ _ => eq_refl)
                          (next_installment_id db)) as HF.
            rewrite Forall_forall in HF. apply HF, list_elem_of_In. exact Hin.
        - intros n Hn.
          assert (Hin : In n (map installment_nth (cr_installments res))).
          { rewrite Hr, rows_from_nth. apply list_elem_of_In, elem_of_seqZ. lia. }
          apply in_map_iff in Hin as (r1 & E1 & Hin).
          destruct (Hrows r1 Hin) as (H1 & H2 & _).
          exists (installment_id r1), r1. repeat split; assumption.
        - intros k1 k2 r1 r2 H1 H2 C1 C2 E.
          pose proof (Hnew k1 r1 H1 C1) as I1. pose proof (Hnew k2 r2 H2 C2) as I2.
          rewrite Hr in I1, I2.
          assert (r1 = r2).
          { eapply rows_from_inj; [|exact I1|exact I2|exact E].
            apply NoDup_ListNoDup, NoDup_seqZ. }
          subst r2. rewrite <- (Hkeys k1 r1 H1), <- (Hkeys k2 r1 H2). reflexivity. }
      split; [exact Hsched|].
      exists (cr_transaction res). rewrite Hct. split; [exact Ht|].
      left. split; [exact Hact|].
      destruct Hsched as (_ & _ & Hex & _). rewrite Etm, Hcc in Hex.
      destruct (Hex 1 ltac:(lia)) as (k1 & r1 & H1 & C1 & _).
      exists k1, r1. rewrite Hcc. split; [exact H1|]. split; [exact C1|].
      destruct (Hrows r1 (Hnew k1 r1 H1 C1)) as (_ & _ & Hst).
      rewrite Hst. discriminate.
    + (* a contract stored before *)
      rewrite lookup_insert_ne in Hk by congruence.
      destruct (Hcon k c Hk) as (Hid & Hlt & Hcsch & Hst).
      assert (Hcid : contract_id c <> next_contract_id db) by congruence.
      split; [exact Hid|]. split; [rewrite Hn1; lia|]. split.
      * destruct Hcsch as (P0 & P1 & P2 & P3).
        split; [exact P0|]. split; [|split].
        -- intros k1 r1 H1 C1. apply (P1 k1 r1); [|exact C1].
           apply Holdrow; [exact H1|congruence].
        -- intros n Hn. destruct (P2 n Hn) as (k1 & r1 & H1 & C1 & E).
           exists k1, r1. split; [apply Hkeep; exact H1|]. split; assumption.
        -- intros k1 k2 r1 r2 H1 H2 C1 C2 E.
           apply (P3 k1 k2 r1 r2); try assumption;
             apply Holdrow; try assumption; congruence.
      * destruct Hst as (t & Ht0 & Hcase). exists t. split.
        -- rewrite Hts, lookup_insert_ne; [exact Ht0|]. lia.
        -- destruct Hcase as [[A (k2 & r2 & H2 & C2 & U2)]|[A B]].
           ++ left. split; [exact A|]. exists k2, r2.
              split; [apply Hkeep; exact H2|]. split; assumption.
           ++ right. split; [exact A|]. intros k1 r1 H1 C1.
              apply (B k1 r1); [|exact C1]. apply Holdrow; [exact H1|congruence].
  - intros k1 k2 c1 c2 H1 H2 E. rewrite Hcs in H1, H2.
    destruct (decide (k1 = next_contract_id db)) as [->|N1],
             (decide (k2 = next_contract_id db)) as [->|N2].
    + reflexivity.
    + rewrite lookup_insert_eq in H1. rewrite lookup_insert_ne in H2 by congruence.
      inversion H1; subst c1. destruct (Hcon k2 c2 H2) as (_ & Hlt & _).
      rewrite Hct in E. lia.
    + rewrite lookup_insert_eq in H2. rewrite lookup_insert_ne in H1 by congruence.
      inversion H2; subst c2. destruct (Hcon k1 c1 H1) as (_ & Hlt & _).
      rewrite Hct in E. lia.
    + rewrite lookup_insert_ne in H1, H2 by congruence.
      apply (Hinj k1 k2 c1 c2 H1 H2 E).
Qed.

(** A payment request keeps the ledger sound. *)
Lemma pay_ledger_sound now db id :
  ledger_sound db -> ledger_sound (fst (payInstallment now db id)).
Proof.
  intros Hs. pose proof Hs as (Hwf & Hpos & Hcon & Hinj).
  pose proof (pay_well_formed now db id Hwf) as Hwf'.
  unfold payInstallment in *. destruct id as [id|]; [|exact Hs].
  destruct (pay_unit_of_work now db id) as [msg|db'] eqn:E; [exact Hs|].
  cbn [fst] in *.
  destruct Hwf as [Hkey Hfresh].
  destruct (pay_unit_of_work_effect now db id db' Hkey E)
    as (r & c0 & Hr & Hrs & Hc0 & Hi & Htx).
  destruct (pay_unit_of_work_inr _ _ _ _ E)
    as (r' & c' & _ & _ & _ & _ & _ & Hsch & _ & _ & Hco & Hn1 & _ & _).
  assert (Hfwd : forall k s', installments db' !! k = Some s' ->
            exists s, installments db !! k = Some s /\
                      inst_contract_id s' = inst_contract_id s /\
                      installment_nth s' = installment_nth s /\
                      amount_due s' = amount_due s /\
                      (k <> id -> s' = s) /\
                      (k = id -> Store.status s' = PAID)).
  { intros k s' Hk. rewrite Hi in Hk. destruct (decide (k = id)) as [->|Hne].
    - rewrite lookup_alter_eq, Hr in Hk. inversion Hk; subst s'.
      exists r. split; [exact Hr|]. do 3 (split; [reflexivity|]).
      split; [intros C; contradiction|intros _; reflexivity].
    - rewrite lookup_alter_ne in Hk by congruence. exists s'.
      split; [exact Hk|]. do 3 (split; [reflexivity|]).
      split; [intros _; reflexivity|intros C; contradiction]. }
  assert (Hbwd : forall k s, installments db !! k = Some s ->
            exists s', installments db' !! k = Some s' /\
                       inst_contract_id s' = inst_contract_id s /\
                       installment_nth s' = installment_nth s /\
                       amount_due s' = amount_due s /\
                       (k <> id -> s' = s)).
  { intros k s Hk. rewrite Hi. destruct (decide (k = id)) as [->|Hne].
    - rewrite lookup_alter_eq, Hk. eexists. split; [reflexivity|].
      do 3 (split; [reflexivity|]). intros C. contradiction.
    - rewrite lookup_alter_ne by congruence. exists s.
      split; [exact Hk|]. do 3 (split; [reflexivity|]). intros _. reflexivity. }
  split; [exact Hwf'|].
  split; [unfold positive_tenors; rewrite Hsch; exact Hpos|].
  split; [|rewrite Hco; exact Hinj].
  intros k c Hk. rewrite Hco in Hk.
  destruct (Hcon k c Hk) as (Hid & Hlt & Hcs & Hst).
  split; [exact Hid|]. split; [rewrite Hn1; exact Hlt|]. split.
  - destruct Hcs as (P0 & P1 & P2 & P3).
    split; [exact P0|]. split; [|split].
    + intros k1 s' H1 C1. destruct (Hfwd k1 s' H1) as (s & Hs0 & E1 & E2 & E3 & _).
      rewrite E2, E3. apply (P1 k1 s Hs0). congruence.
    + intros n Hn. destruct (P2 n Hn) as (k1 & s & Hs0 & C1 & En).
      destruct (Hbwd k1 s Hs0) as (s' & Hs' & E1 & E2 & E3 & _).
      exists k1, s'. split; [exact Hs'|]. split; congruence.
    + intros k1 k2 s1 s2 H1 H2 C1 C2 En.
      destruct (Hfwd k1 s1 H1) as (t1 & T1 & A1 & B1 & _).
      destruct (Hfwd k2 s2 H2) as (t2 & T2 & A2 & B2 & _).
      apply (P3 k1 k2 t1 t2 T1 T2); congruence.
  - destruct Hst as (t & Ht & Hcase).
    destruct (decide (k = inst_contract_id r)) as [Ek|Nk].
    + (* the contract of the row that was paid *)
      assert (Ec : c0 = c) by congruence. subst c0.
      destruct Htx as [[Hall Ht']|[(k2 & s2 & Hs2 & Hc2 & Hne2 & Hun2) Ht']].
      * exists (set_status_tx TX_PAID t). rewrite Ht', lookup_alter_eq, Ht.
        split; [reflexivity|]. right. split; [reflexivity|].
        intros k1 s' H1 C1.
        destruct (Hfwd k1 s' H1) as (s & Hs0 & E1 & _ & _ & Hsame & Hpaid).
        destruct (decide (k1 = id)) as [->|N]; [apply Hpaid; reflexivity|].
        rewrite (Hsame N). apply (Hall k1 s Hs0); [congruence|exact N].
      * exists t. rewrite Ht'. split; [exact Ht|]. left.
        destruct Hcase as [[Hact _]|[Hpaid Hallp]].
        -- split; [exact Hact|]. exists k2, s2.
           destruct (Hbwd k2 s2 Hs2) as (s' & Hs' & _ & _ & _ & Hsame).
           rewrite (Hsame Hne2) in Hs'.
           split; [exact Hs'|]. split; [congruence|exact Hun2].
        -- exfalso. apply Hrs. apply (Hallp id r Hr). congruence.
    + (* another contract: its rows and its transaction are untouched *)
      assert (Hrow : forall k1 s, inst_contract_id s = contract_id c ->
                (installments db' !! k1 = Some s <-> installments db !! k1 = Some s)).
      { intros k1 s Hcid. rewrite Hi.
        destruct (decide (k1 = id)) as [->|N];
          [|rewrite lookup_alter_ne by congruence; reflexivity].
        rewrite lookup_alter_eq, Hr. cbn. split; intros C; inversion C; subst s.
        - cbn in Hcid. congruence.
        - congruence. }
      exists t. split.
      * destruct Htx as [[_ Ht']|[_ Ht']]; rewrite Ht'; [|exact Ht].
        rewrite lookup_alter_ne; [exact Ht|]. intros Etid.
        apply Nk. symmetry. apply (Hinj _ _ c0 c Hc0 Hk Etid).
      * destruct Hcase as [[Hact (k2 & s2 & Hs2 & Hc2 & Hun2)]|[Hpaid Hallp]].
        -- left. split; [exact Hact|]. exists k2, s2.
           split; [apply (Hrow k2 s2 Hc2); exact Hs2|]. split; assumption.
        -- right. split; [exact Hpaid|]. intros k1 s H1 C1.
           apply (Hallp k1 s); [|exact C1]. apply (Hrow k1 s C1). exact H1.
Qed.

(** A restock keeps the ledger sound. *)
Lemma restock_ledger_sound db id q :
  ledger_sound db -> ledger_sound (fst (restockProduct db id q)).
Proof.
  intros (Hwf & Hpos & Hcon & Hinj).
  pose proof (restock_well_formed db id q Hwf) as Hwf'.
  destruct (restockProduct_frame db id q)
    as (H1 & H2 & H3 & H4 & H5 & H6 & H7 & H8).
  cbv zeta in *.
  split; [exact Hwf'|].
  split; [unfold positive_tenors; rewrite H1; exact Hpos|].
  unfold complete_schedule, status_follows_payments.
  rewrite H3, H4, H5, H6. split; assumption.
Qed.

Lemma run_requests_ledger_sound rs : forall db,
  ledger_sound db -> ledger_sound (run_requests db rs).
Proof.
  unfold run_requests.
  induction rs as [|r rs IH]; intros db Hs; [exact Hs|].
  cbn [fold_left]. apply IH.
  destruct r as [now now' input|now id|id q]; cbn [run].
  - destruct (createTransaction now now' db input) as [msg|[db' res]] eqn:E;
      [exact Hs|].
    apply (createTransaction_ledger_sound _ _ _ _ _ _ Hs E).
  - apply pay_ledger_sound. exact Hs.
  - apply restock_ledger_sound. exact Hs.
Qed.

(** A ledger without contracts is sound. *)
Lemma ledger_sound_no_contracts db :
  well_formed db -> positive_tenors db = true -> contracts db = ∅ ->
  ledger_sound db.
Proof.
  intros Hwf Hpos Hc. split; [exact Hwf|]. split; [exact Hpos|].
  rewrite Hc. split.
  - intros k c H. rewrite lookup_empty in H. discriminate.
  - intros k1 k2 c1 c2 H. rewrite lookup_empty in H. discriminate.
Qed.

(** The installments of a contract with a complete schedule, in the
    order of the list. *)
Lemma complete_schedule_listed db c :
  keyed_by_id db = true ->
  complete_schedule db c ->
  map installment_nth (merge_sort by_nth (installments_of db (contract_id c)))
  = seqZ 1 (tenor_months c).
Proof.
  intros Hkey (P0 & P1 & P2 & P3).
  pose proof (keyed_by_id_spec db Hkey) as Hk.
  set (L := installments_of db (contract_id c)).
  apply (StronglySorted_unique Z.le).
  - apply (StronglySorted_fmap installment_nth by_nth Z.le);
      [intros x y H; exact H|].
    apply StronglySorted_merge_sort; [apply by_nth_trans|apply by_nth_total].
  - apply StronglySorted_seqZ.
  - change (map installment_nth (merge_sort by_nth L))
      with (installment_nth <$> merge_sort by_nth L).
    rewrite merge_sort_Permutation.
    apply NoDup_Permutation.
    + apply NoDup_fmap_2_strong; [|apply NoDup_installments_of; exact Hkey].
      intros x y Hx Hy E.
      apply elem_of_installments_of in Hx as (k1 & H1 & C1).
      apply elem_of_installments_of in Hy as (k2 & H2 & C2).
      assert (k1 = k2) by (apply (P3 k1 k2 x y); assumption). subst k2.
      congruence.
    + apply NoDup_seqZ.
    + intros n. rewrite list_elem_of_fmap, elem_of_seqZ. split.
      * intros (x & -> & Hx). apply elem_of_installments_of in Hx as (k1 & H1 & C1).
        destruct (P1 k1 x H1 C1) as [Hn _]. lia.
      * intros Hn. destruct (P2 n ltac:(lia)) as (k1 & r1 & H1 & C1 & E).
        exists r1. split; [symmetry; exact E|].
        apply elem_of_installments_of. exists k1. split; assumption.
Qed.

(** X11.  The list of active contracts shows full schedules.  In every
    store reached from a sound ledger (no contracts yet, say) by sales,
    payments and restocks, a contract on GET /api/contracts/active has a
    positive tenor and comes with its installments numbered exactly
    1, 2, ..., tenor_months in this order, each of them asking for the
    contract's monthly installment, and at least one of them is not
    PAID; its transaction is ACTIVE.  A stored contract that is not on
    the list has a PAID transaction and all its installments PAID. *)
Theorem getActiveContracts_schedules rs db0 :
  ledger_sound db0 ->
  let db := run_requests db0 rs in
  (forall ac,
     ac ∈ getActiveContracts db ->
     tx_status (ac_transaction ac) = ACTIVE /\
     0 < tenor_months (ac_contract ac) /\
     map installment_nth (ac_installments ac)
     = seqZ 1 (tenor_months (ac_contract ac)) /\
     Forall (fun r => inst_contract_id r = contract_id (ac_contract ac) /\
                      amount_due r = monthly_installment (ac_contract ac))
            (ac_installments ac) /\
     Exists (fun r => Store.status r <> PAID) (ac_installments ac)) /\
  (forall k c,
     contracts db !! k = Some c ->
     (forall ac, ac ∈ getActiveContracts db -> ac_contract ac <> c) ->
     tx_status <$> transactions db !! contract_transaction_id c = Some TX_PAID /\
     (forall k' r, installments db !! k' = Some r ->
                   inst_contract_id r = contract_id c -> Store.status r = PAID)).
Proof.
  intros Hs0 db.
  pose proof (run_requests_ledger_sound rs db0 Hs0) as Hs. fold db in Hs.
  destruct Hs as ([Hkey _] & _ & Hcon & _).
  split.
  - intros ac Hin.
    apply elem_of_getActiveContracts in Hin as (k & c & Hk & Hi).
    apply included_Some in Hi as (t & Ht & Hact & ->).
    cbn [ac_transaction ac_contract ac_installments].
    destruct (Hcon k c Hk) as (_ & _ & Hcs & (t' & Ht' & Hcase)).
    rewrite Ht in Ht'. inversion Ht'; subst t'; clear Ht'.
    split; [exact Hact|]. split; [apply Hcs|].
    split; [apply complete_schedule_listed; assumption|].
    split.
    + apply Forall_forall. intros r Hr. rewrite merge_sort_Permutation in Hr.
      apply elem_of_installments_of in Hr as (k1 & H1 & C1).
      destruct Hcs as (_ & P1 & _). split; [exact C1|]. apply (P1 k1 r H1 C1).
    + destruct Hcase as [[_ (k2 & r2 & H2 & C2 & U2)]|[Hp _]]; [|congruence].
      apply Exists_exists. exists r2. split; [|exact U2].
      rewrite merge_sort_Permutation.
      apply elem_of_installments_of. exists k2. split; assumption.
  - intros k c Hk Hnot.
    destruct (Hcon k c Hk) as (_ & _ & _ & (t & Ht & Hcase)).
    destruct Hcase as [[Hact _]|[Hp Hall]].
    + exfalso.
      apply (Hnot (mkActiveContract c t (products db !! tx_productId t)
                     (merge_sort by_nth (installments_of db (contract_id c)))));
        [|reflexivity].
      apply elem_of_getActiveContracts. exists k, c. split; [exact Hk|].
      apply included_Some. exists t. repeat split; assumption.
    + rewrite Ht. cbn. rewrite Hp. split; [reflexivity|exact Hall].
Qed.


Lemma listed_id {A : Type} (f : A -> Z) (l : list A) ids x :
  map f l = ids -> x ∈ l -> In (f x) ids.
Proof.
  intros <- Hx. apply in_map. apply list_elem_of_In. exact Hx.
Qed.

Lemma getActiveContracts_schedules_witness :
  let db := run_requests Sample.db
              [Sale Sample.jan15 Sample.jan15 Sample.sale;
               Pay Sample.jan31 (Some 2);
               Restock (Some 7) (Sample.num 3);
               Sale Sample.jan31 Sample.jan31
                 (mkCreateTransactionInput 7 5 (of_Z 4500000) (of_Z 500000) 1 6 5);
               Pay Sample.jan31 (Some 1);
               Pay Sample.jan31 (Some 3)] in
  map (fun ac => contract_id (ac_contract ac)) (getActiveContracts db) = [2] /\
  (forall ac,
     ac ∈ getActiveContracts db ->
     map installment_nth (ac_installments ac)
     = seqZ 1 (tenor_months (ac_contract ac)) /\
     Exists (fun r => Store.status r <> PAID) (ac_installments ac)) /\
  (forall k' r, installments db !! k' = Some r -> inst_contract_id r = 1 ->
                Store.status r = PAID).
Proof.
  cbv zeta.
  assert (Hs0 : ledger_sound Sample.db).
  { apply ledger_sound_no_contracts;
      [apply well_formed_sample|vm_compute; reflexivity|reflexivity]. }
  pose proof (getActiveContracts_schedules
              [Sale Sample.jan15 Sample.jan15 Sample.sale;
               Pay Sample.jan31 (Some 2);
               Restock (Some 7) (Sample.num 3);
               Sale Sample.jan31 Sample.jan31
                 (mkCreateTransactionInput 7 5 (of_Z 4500000) (of_Z 500000) 1 6 5);
               Pay Sample.jan31 (Some 1);
               Pay Sample.jan31 (Some 3)]
              Sample.db Hs0) as H.
  cbv zeta in H. destruct H as [Hlist Hrest].
  match goal with |- ?A /\ _ => assert (Hids : A) by (vm_compute; reflexivity) end.
  match type of Hrest with forall k c, ?m !! k = Some c -> _ =>
    assert (Ec : exists c, m !! 1 = Some c /\ contract_id c = 1)
      by (vm_compute; eexists; split; reflexivity) end.
  destruct Ec as (c & Ec & Hcid).
  split; [exact Hids|]. split.
  - intros ac Hin. destruct (Hlist ac Hin) as (_ & _ & H3 & _ & H5).
    split; assumption.
  - destruct (Hrest 1 c Ec) as [_ Hall].
    + intros ac Hin Eac.
      pose proof (listed_id _ _ _ _ Hids Hin) as Hin2.
      cbv beta in Hin2. rewrite Eac, Hcid in Hin2. destruct Hin2 as [C|[]]. discriminate.
    + rewrite Hcid in Hall. exact Hall.
Defined.

End ActiveSchedules.

(** ** What the handlers answer *)

Section HandlerOutcomes.

Import Dec Store Text Credit Ledger Http Reply Inventory Forms.
Local Open Scope string_scope.
Local Open Scope Z_scope.






(** A body that carries the input of a sale as numbers, with amounts
    that pass the handler's checks, reaches the service, and the answer
    is the service's outcome. *)
Lemma create_passes_on now now' db input :
  amounts_ok input = true ->
  create now now' db (create_body input)
  = Some (match createTransaction now now' db input with
          | inr (db', result) =>
              (db',
               mkResponse 201 true None
                 (Some (mkCreateData
                          (transaction_id (cr_transaction result))
                          (contract_id (cr_contract result))
                          (tx_customer_name (cr_transaction result))
                          (tx_customer_phone (cr_transaction result))
                          (cr_product result)
                          (cr_simulation result)
                          (Z.of_nat (length (cr_installments result)))
                          (option_map due_date (head (cr_installments result)))
                          (option_map due_date (last (cr_installments result))))))
          | inl message => (db, fail (error_status message) message)
          end).
Proof.
  destruct input as [pid cid price dp sid tenor day].
  unfold amounts_ok, create, create_body.
  cbn [c_price c_dp productId customerId c_schemeId c_tenorMonths dueDateDay].
  intros Hok. apply andb_prop in Hok as [Hok H3]. apply andb_prop in Hok as [H1 H2].
  apply negb_true_iff in H1, H2, H3.
  set (body := mkCreateBody _ _ _ _ _ _ _).
  assert (Hm : filter (fun f => missing (snd f) = true) (fields body) = []).
  { unfold fields, body. cbn [cb_productId cb_customerId cb_price cb_dp
      cb_schemeId cb_tenorMonths cb_dueDateDay].
    repeat (rewrite filter_cons_False by (cbn; discriminate)). reflexivity. }
  rewrite Hm. cbn [length Nat.eqb negb].
  assert (Hn : find (fun f => negb (is_number (snd f))) (fields body) = None)
    by reflexivity.
  rewrite Hn. unfold body.
  cbn [cb_productId cb_customerId cb_price cb_dp cb_schemeId cb_tenorMonths
       cb_dueDateDay num].
  rewrite H1, H2, H3, !to_Z_of_Z.
  destruct (createTransaction _ _ _ _) as [m|[db' r]]; reflexivity.
Qed.

(** X14.  Unknown ids are answered 404, whatever the id: a request with
    valid amounts and due day on a product id that is not stored, or on
    a sellable product with a customer id that is not stored, or with
    both stored and a scheme id that is not stored, gets 404 and leaves
    the store as it was. *)
Theorem create_not_found now now' db input :
  amounts_ok input = true ->
  1 <= dueDateDay input <= 28 ->
  products db !! productId input = None \/
  (exists p, products db !! productId input = Some p /\
             product_is_active p = true /\ 0 < stock_qty p) /\
  (customers db !! customerId input = None \/
   is_Some (customers db !! customerId input) /\
   schemes db !! c_schemeId input = None) ->
  exists message,
    create now now' db (create_body input) = Some (db, fail 404 message).
Proof.
  intros Hok Hday Hcase. rewrite (create_passes_on _ _ _ _ Hok).
  unfold createTransaction.
  destruct (Z.ltb_spec (dueDateDay input) 1); [lia|].
  destruct (Z.ltb_spec 28 (dueDateDay input)); [lia|].
  cbn [orb negb].
  destruct Hcase as [Hp|[(p & Hp & Hact & Hstock) Hc]].
  - rewrite Hp. eexists. cbn [throw].
    rewrite (proj1 (error_status_not_found (productId input))). reflexivity.
  - rewrite Hp, Hact. destruct (Z.leb_spec (stock_qty p) 0); [lia|]. cbn [negb].
    destruct Hc as [Hc|[[c Hc] Hs]]; rewrite Hc.
    + eexists. cbn [throw].
      rewrite (proj1 (proj2 (error_status_not_found (customerId input)))).
      reflexivity.
    + unfold calculateSimulationWithTx, calculateSimulation.
      cbn [schemeId]. rewrite Hs. cbn [throw bind]. eexists.
      rewrite (proj2 (proj2 (error_status_not_found (c_schemeId input)))).
      reflexivity.
Qed.

Lemma create_not_found_witness :
  exists message,
    create Sample.jan15 Sample.jan15 Sample.db
      (create_body (mkCreateTransactionInput 7 6 (of_Z 4500000) (of_Z 500000) 1 3 5))
    = Some (Sample.db, fail 404 message).
Proof.
  apply create_not_found.
  - vm_compute. reflexivity.
  - cbn. lia.
  - right. split.
    + exists Sample.kulkas. split; [vm_compute; reflexivity|].
      split; [reflexivity|]. cbn. lia.
    + left. vm_compute. reflexivity.
Defined.

(** A pattern without the character [q] cannot start in [x] and run
    across a [q] that follows [x]. *)
Lemma prefix_before_char q : forall p x y,
  includes (String q "") p = false ->
  String.prefix p (x ++ String q y) = String.prefix p x.
Proof.
  induction p as [|c p IH]; intros x y Hq; [destruct x; reflexivity|].
  cbn [includes String.prefix] in Hq. apply orb_false_elim in Hq as [Hc Hq].
  destruct (ascii_dec q c) as [Hqc|Hqc]; [destruct p; discriminate|].
  destruct x as [|c' x].
  - change ("" ++ String q y) with (String q y). cbn [String.prefix].
    destruct (ascii_dec c q); [congruence|reflexivity].
  - change (String c' x ++ String q y) with (String c' (x ++ String q y)).
    cbn [String.prefix]. destruct (ascii_dec c c'); [|reflexivity].
    apply IH. exact Hq.
Qed.

(** Such a pattern occurs in [x ++ q ++ y] only inside [x] or inside
    [y]. *)
Lemma includes_around_char q p x y :
  includes (String q "") p = false ->
  includes p (x ++ String q y) = includes p x || includes p y.
Proof.
  intros Hq. induction x as [|c x IH].
  - pose proof (prefix_before_char q p "" y Hq) as Hp.
    change ("" ++ String q y) with (String q y) in *.
    cbn [includes]. rewrite Hp, orb_false_r. reflexivity.
  - change (String c x ++ String q y) with (String c (x ++ String q y)).
    cbn [includes]. rewrite IH.
    change (String c (x ++ String q y)) with (String c x ++ String q y).
    rewrite (prefix_before_char q p (String c x) y Hq), orb_assoc. reflexivity.
Qed.

(** In [before "name" after] a pattern without a double quote occurs
    only inside one of the three parts. *)
Lemma includes_quoted p before name after :
  includes dquote p = false ->
  includes p (before ++ dquote ++ name ++ dquote ++ after)
  = includes p before || includes p name || includes p after.
Proof.
  intros Hq. unfold dquote in *.
  change (String "034" "" ++ name ++ String "034" "" ++ after)
    with (String "034" (name ++ String "034" after)).
  rewrite !(includes_around_char _ _ _ _ Hq), orb_assoc. reflexivity.
Qed.

(** X15.  An inactive or sold-out product is refused with the fixed
    text that names it, [Produk "name" tidak aktif] or
    [Stok produk "name" habis], and the store is left as it was.  The
    answer is 409, unless the name of the product itself contains one of
    the phrases the handler looks for first ("tidak ditemukan",
    "not found"): then, and only then, the same request is answered
    404. *)
Theorem create_product_conflict now now' db input p :
  amounts_ok input = true ->
  1 <= dueDateDay input <= 28 ->
  products db !! productId input = Some p ->
  product_is_active p = false \/ stock_qty p <= 0 ->
  let named_not_found :=
    includes "tidak ditemukan" (product_name p) ||
    includes "not found" (product_name p) in
  let message :=
    if product_is_active p
    then "Stok produk " ++ dquote ++ product_name p ++ dquote ++ " habis"
    else "Produk " ++ dquote ++ product_name p ++ dquote ++ " tidak aktif" in
  create now now' db (create_body input)
  = Some (db, fail (if named_not_found then 404 else 409) message).
Proof.
  intros Hok Hday Hp Hcase. cbv zeta. rewrite (create_passes_on _ _ _ _ Hok).
  unfold createTransaction.
  destruct (Z.ltb_spec (dueDateDay input) 1); [lia|].
  destruct (Z.ltb_spec 28 (dueDateDay input)); [lia|].
  cbn [orb negb]. rewrite Hp.
  assert (Hq1 : includes dquote "tidak ditemukan" = false) by reflexivity.
  assert (Hq2 : includes dquote "not found" = false) by reflexivity.
  destruct (product_is_active p) eqn:Hact.
  - destruct Hcase as [C|Hstock]; [discriminate|].
    destruct (Z.leb_spec (stock_qty p) 0); [|lia]. cbn [negb throw].
    do 3 f_equal. unfold error_status.
    rewrite (includes_quoted "tidak ditemukan" _ _ _ Hq1).
    rewrite (includes_quoted "not found" _ _ _ Hq2).
    change (includes "tidak ditemukan" "Stok produk ") with false.
    change (includes "tidak ditemukan" " habis") with false.
    change (includes "not found" "Stok produk ") with false.
    change (includes "not found" " habis") with false.
    rewrite !orb_false_r. cbn [orb].
    destruct (_ || _); [reflexivity|].
    rewrite (includes_app_r "habis" "Stok produk ")
      by (do 3 apply includes_app_r; reflexivity).
    reflexivity.
  - cbn [throw]. do 3 f_equal. unfold error_status.
    rewrite (includes_quoted "tidak ditemukan" _ _ _ Hq1).
    rewrite (includes_quoted "not found" _ _ _ Hq2).
    change (includes "tidak ditemukan" "Produk ") with false.
    change (includes "tidak ditemukan" " tidak aktif") with false.
    change (includes "not found" "Produk ") with false.
    change (includes "not found" " tidak aktif") with false.
    rewrite !orb_false_r. cbn [orb].
    destruct (_ || _); [reflexivity|].
    rewrite (includes_app_r "tidak aktif" "Produk ")
      by (do 3 apply includes_app_r; reflexivity).
    rewrite orb_true_r. reflexivity.
Qed.

Lemma create_product_conflict_witness :
  create Sample.jan15 Sample.jan15 Sample.db
    (create_body (mkCreateTransactionInput 9 5 (of_Z 4500000) (of_Z 500000) 1 3 5))
  = Some (Sample.db, fail 409 ("Produk " ++ dquote ++ "Lemari" ++ dquote ++ " tidak aktif")) /\
  create Sample.jan15 Sample.jan15 Sample.db
    (create_body (mkCreateTransactionInput 8 5 (of_Z 4500000) (of_Z 500000) 1 3 5))
  = Some (Sample.db, fail 409 ("Stok produk " ++ dquote ++ "Sofa" ++ dquote ++ " habis")) /\
  create Sample.jan15 Sample.jan15
    (with_products Sample.db
       (<[9 := mkProduct 9 "FU-002" "Rak not found" 4 false]> (products Sample.db)))
    (create_body (mkCreateTransactionInput 9 5 (of_Z 4500000) (of_Z 500000) 1 3 5))
  = Some (with_products Sample.db
            (<[9 := mkProduct 9 "FU-002" "Rak not found" 4 false]>
               (products Sample.db)),
          fail 404 ("Produk " ++ dquote ++ "Rak not found" ++ dquote ++ " tidak aktif")).
Proof.
  assert (Hok : amounts_ok (mkCreateTransactionInput 9 5 (of_Z 4500000)
                              (of_Z 500000) 1 3 5) = true)
    by (vm_compute; reflexivity).
  assert (Hok8 : amounts_ok (mkCreateTransactionInput 8 5 (of_Z 4500000)
                               (of_Z 500000) 1 3 5) = true)
    by (vm_compute; reflexivity).
  assert (Hday : 1 <= 5 <= 28) by lia.
  assert (H9 : products Sample.db !! 9 = Some Sample.lemari)
    by (vm_compute; reflexivity).
  assert (H8 : products Sample.db !! 8 = Some Sample.sofa)
    by (vm_compute; reflexivity).
  assert (H9' : products
                  (with_products Sample.db
                     (<[9 := mkProduct 9 "FU-002" "Rak not found" 4 false]>
                        (products Sample.db))) !! 9
                = Some (mkProduct 9 "FU-002" "Rak not found" 4 false))
    by (vm_compute; reflexivity).
  split; [|split].
  - exact (create_product_conflict Sample.jan15 Sample.jan15 Sample.db _
             Sample.lemari Hok Hday H9 (or_introl eq_refl)).
  - refine (create_product_conflict Sample.jan15 Sample.jan15 Sample.db _
              Sample.sofa Hok8 Hday H8 (or_intror _)).
    cbn. lia.
  - exact (create_product_conflict Sample.jan15 Sample.jan15 _ _
             (mkProduct 9 "FU-002" "Rak not found" 4 false) Hok Hday H9'
             (or_introl eq_refl)).
Defined.




Lemma to_Z_nonpositive d n :
  lte d (of_Z 0) = true -> to_Z d = Some n -> n <= 0.
Proof.
  unfold lte. rewrite lt_zero_l. intros Hl Hz.
  apply negb_true_iff, Z.ltb_ge in Hl. unfold to_Z in Hz.
  destruct (Z.leb_spec 0 (dexp d)).
  - inversion Hz. pose proof (pow10_pos (dexp d) ltac:(lia)). nia.
  - destruct (_ =? _); [|discriminate]. inversion Hz.
    pose proof (pow10_pos (- dexp d) ltac:(lia)) as Hp.
    apply Z.div_le_upper_bound; [exact Hp|lia].
Qed.

(** X17.  PATCH /api/products/:id/stock answers 200 or 400 and nothing
    else.  A 200 is only given for the id of a stored product, active or
    not, and a quantity that is a number denoting a positive integer;
    the stock of that product is then its old stock plus the quantity,
    its id, SKU, name and active flag are unchanged, the response
    carries the updated row and no other product changes.  Such a
    request is answered 200 whenever the quantity and the new stock are
    within the range of a 32-bit integer column (at most 2147483647).  A
    400 leaves the store as it was; it is the answer to an id that is
    not a number, to a quantity that is not a number, is zero or
    negative or has a fractional part, and to an unknown product (400,
    not 404). *)
Theorem restockProduct_outcome db id q :
  let db' := fst (restockProduct db id q) in
  let resp := snd (restockProduct db id q) in
  (status resp = 200 \/ status resp = 400) /\
  (status resp = 400 -> db' = db /\ data resp = None) /\
  (status resp = 200 ->
   exists pid d n p p',
     id = Some pid /\ q = JNum d /\ to_Z d = Some n /\ 0 < n /\
     products db !! pid = Some p /\
     products db' !! pid = Some p' /\
     data resp = Some p' /\
     stock_qty p' = stock_qty p + n /\
     product_id p' = product_id p /\ sku p' = sku p /\
     product_name p' = product_name p /\
     product_is_active p' = product_is_active p /\
     (forall k, k <> pid -> products db' !! k = products db !! k)) /\
  (forall pid d n p,
     id = Some pid -> q = JNum d -> to_Z d = Some n -> 0 < n ->
     products db !! pid = Some p ->
     n <= 2147483647 -> stock_qty p + n <= 2147483647 ->
     status resp = 200) /\
  (id = None -> status resp = 400) /\
  (is_number q = false -> status resp = 400) /\
  (forall d, q = JNum d -> lte d (of_Z 0) = true -> status resp = 400) /\
  (forall d, q = JNum d -> to_Z d = None -> status resp = 400) /\
  (forall pid, id = Some pid -> products db !! pid = None -> status resp = 400).
Proof.
  cbv zeta. unfold restockProduct.
  destruct id as [pid|].
  2:{ cbn [fst snd status data fail].
      split; [auto|]. split; [auto|]. split; [discriminate|].
      split; [intros ? ? ? ? C; discriminate|].
      repeat split; auto. }
  destruct (negb (is_number q) || lte (num q) (of_Z 0)) eqn:Hbad.
  { cbn [fst snd status data fail].
    split; [auto|]. split; [auto|]. split; [discriminate|].
    split; [|repeat split; auto].
    intros ? d n ? _ -> Hz Hn. exfalso. cbn [is_number negb orb num] in Hbad.
    pose proof (to_Z_nonpositive d n Hbad Hz). lia. }
  apply orb_false_elim in Hbad as [Hnum Hl].
  destruct q as [| |b|d|s|]; try discriminate. cbn [num is_number] in *.
  destruct (to_Z d) as [n|] eqn:Hz.
  2:{ cbn [fst snd status data fail].
      split; [auto|]. split; [auto|]. split; [discriminate|].
      split; [|repeat split; auto].
      intros ? d' ? ? _ E Hz'. inversion E; subst d'. congruence. }
  pose proof (to_Z_positive d n Hl Hz) as Hn.
  destruct (products db !! pid) as [p|] eqn:Hp.
  - cbn [fst snd status data products with_products].
    split; [auto|]. split; [discriminate|]. split.
    + intros _. exists pid, d, n, p, (increment_stock n p).
      split; [reflexivity|]. split; [reflexivity|]. split; [exact Hz|].
      split; [exact Hn|]. split; [exact Hp|].
      split; [rewrite lookup_alter_eq, Hp; reflexivity|].
      split; [reflexivity|]. cbn. repeat split.
      intros k Hk. apply lookup_alter_ne. congruence.
    + split; [reflexivity|]. split; [discriminate|]. split; [discriminate|].
      split; [intros d' E Hl'; inversion E; subst d'; congruence|].
      split; [intros d' E Hz'; inversion E; subst d'; congruence|].
      intros pid' E Hp'. inversion E; subst pid'. congruence.
  - cbn [fst snd status data fail].
    split; [auto|]. split; [auto|]. split; [discriminate|].
    split; [|repeat split; auto].
    intros pid' ? ? ? E _ _ _ Hp'. inversion E; subst pid'. congruence.
Qed.

Lemma restockProduct_outcome_witness :
  status (snd (restockProduct Sample.db (Some 8) (Sample.num 5))) = 200 /\
  exists p',
    products (fst (restockProduct Sample.db (Some 8) (Sample.num 5))) !! 8
    = Some p' /\
    data (snd (restockProduct Sample.db (Some 8) (Sample.num 5))) = Some p' /\
    stock_qty p' = stock_qty Sample.sofa + 5 /\
    product_name p' = product_name Sample.sofa.
Proof.
  assert (Hp : products Sample.db !! 8 = Some Sample.sofa)
    by (vm_compute; reflexivity).
  assert (Hz : to_Z (of_Z 5) = Some 5) by (vm_compute; reflexivity).
  assert (Hn : 0 < 5) by lia.
  assert (Hmax : 5 <= 2147483647) by lia.
  assert (Hsum : stock_qty Sample.sofa + 5 <= 2147483647) by (cbn; lia).
  destruct (restockProduct_outcome Sample.db (Some 8) (Sample.num 5))
    as (_ & _ & H & Hok & _).
  pose proof (Hok 8 (of_Z 5) 5 Sample.sofa eq_refl eq_refl Hz Hn Hp Hmax Hsum)
    as H200.
  split; [exact H200|].
  destruct (H H200)
    as (pid & d & n & p & p' & Hid & Hq & Hz' & _ & Hp0 & Hp' & Hd & Hs & _ & _ &
        Hname & _).
  inversion Hid; subst pid. inversion Hq; subst d.
  rewrite Hz in Hz'. inversion Hz'; subst n.
  rewrite Hp in Hp0. inversion Hp0; subst p.
  exists p'. repeat split; assumption.
Defined.

(** Restocking the sold-out sofa, and requests the handler refuses. *)
Example restock_samples :
  stock_qty <$> products (fst (restockProduct Sample.db (Some 8) (Sample.num 5))) !! 8
    = Some 5 /\
  status (snd (restockProduct Sample.db (Some 9) (Sample.num 1))) = 200 /\
  status (snd (restockProduct Sample.db (Some 8) (Sample.num 0))) = 400 /\
  status (snd (restockProduct Sample.db (Some 8) (JNum (mkDec 15 (-1))))) = 400 /\
  status (snd (restockProduct Sample.db (Some 8) (JStr "5"))) = 400 /\
  status (snd (restockProduct Sample.db (Some 99) (Sample.num 5))) = 400 /\
  status (snd (restockProduct Sample.db None (Sample.num 5))) = 400.
Proof. vm_compute. repeat split. Qed.

End HandlerOutcomes.

(** ** Registering customers *)

Section Customers.

Import Http Crm.
Local Open Scope string_scope.
Local Open Scope Z_scope.

Lemma findUnique_Some column value t r :
  findUnique column value t = Some r ->
  exists k, rows t !! k = Some r /\ column r = value.
Proof.
  unfold findUnique. intros H. apply find_some in H as [Hin Heq].
  apply String.eqb_eq in Heq.
  apply list_elem_of_In, list_elem_of_fmap in Hin as ([k r'] & -> & Hk).
  apply elem_of_map_to_list in Hk. exists k. split; assumption.
Qed.

Lemma findUnique_None column value t :
  findUnique column value t = None <->
  (forall k r, rows t !! k = Some r -> column r <> value).
Proof.
  unfold findUnique. split.
  - intros H k r Hk E.
    assert (Hin : In r (map snd (map_to_list (rows t)))).
    { apply list_elem_of_In, list_elem_of_fmap. exists (k, r).
      split; [reflexivity|]. apply elem_of_map_to_list. exact Hk. }
    pose proof (find_none _ _ H r Hin) as Hn. cbn beta in Hn.
    rewrite (proj2 (String.eqb_eq _ _) E) in Hn. discriminate.
  - intros H. destruct (find _ _) as [r|] eqn:E; [|reflexivity].
    destruct (findUnique_Some column value t r E) as (k & Hk & Hv).
    exfalso. exact (H k r Hk Hv).
Qed.

Lemma z_string_inr path checks v s :
  z_string path checks v = inr s ->
  v = JStr s /\ concat (map (fun check => check path s) checks) = [].
Proof.
  unfold z_string. destruct v as [| |b|d|s'|]; try discriminate.
  destruct (concat _) eqn:E; [|discriminate].
  intros H. inversion H; subst s'. split; [reflexivity|exact E].
Qed.

Lemma min_length_nil n msg path s :
  min_length n msg path s = [] <-> (n <= String.length s)%nat.
Proof.
  unfold min_length. destruct (Nat.ltb_spec (String.length s) n); split;
    intros; try reflexivity; try discriminate; lia.
Qed.

Lemma max_length_nil n msg path s :
  max_length n msg path s = [] <-> (String.length s <= n)%nat.
Proof.
  unfold max_length. destruct (Nat.ltb_spec n (String.length s)); split;
    intros; try reflexivity; try discriminate; lia.
Qed.

(** The schema accepts exactly the valid bodies and returns their four
    strings. *)
Lemma customerSchema_inr body v :
  customerSchema body = inr v <->
  body = mkCustomerBody (JStr (v_nik v)) (JStr (v_name v)) (JStr (v_phone v))
           (JStr (v_address v)) /\
  String.length (v_nik v) = 16%nat /\ (2 <= String.length (v_name v))%nat /\
  (10 <= String.length (v_phone v))%nat /\ (5 <= String.length (v_address v))%nat.
Proof.
  unfold customerSchema. split.
  - destruct (z_string "nik" _ _) as [|a] eqn:E1; [discriminate|].
    destruct (z_string "name" _ _) as [|b] eqn:E2; [discriminate|].
    destruct (z_string "phone" _ _) as [|c] eqn:E3; [discriminate|].
    destruct (z_string "address" _ _) as [|d] eqn:E4; [discriminate|].
    intros H. inversion H; subst v. cbn [v_nik v_name v_phone v_address].
    apply z_string_inr in E1 as [B1 C1], E2 as [B2 C2], E3 as [B3 C3],
          E4 as [B4 C4].
    cbn [map concat] in C1, C2, C3, C4. rewrite app_nil_r in C2, C3, C4.
    apply app_eq_nil in C1 as [C1 C1']. rewrite app_nil_r in C1'.
    apply min_length_nil in C1, C2, C3, C4. apply max_length_nil in C1'.
    destruct body as [n m p a']. cbn in *. subst.
    repeat split; try lia.
  - intros (-> & H1 & H2 & H3 & H4).
    cbn [body_nik body_name body_phone body_address z_string map concat].
    rewrite !app_nil_r.
    rewrite (proj2 (min_length_nil 16 _ _ _)) by lia.
    rewrite (proj2 (max_length_nil 16 _ _ _)) by lia.
    rewrite (proj2 (min_length_nil 2 _ _ _) H2).
    rewrite (proj2 (min_length_nil 10 _ _ _) H3).
    rewrite (proj2 (min_length_nil 5 _ _ _) H4).
    cbn. destruct v; reflexivity.
Qed.

Lemma customerSchema_valid body :
  (exists v, customerSchema body = inr v) <-> valid body.
Proof.
  split.
  - intros [v H]. apply customerSchema_inr in H as (Hb & H1 & H2 & H3 & H4).
    exists (v_nik v), (v_name v), (v_phone v), (v_address v). auto.
  - intros (n & m & p & a & Hb & H1 & H2 & H3 & H4).
    exists (mkValidated n m p a). apply customerSchema_inr. cbn. auto.
Qed.

(** The test on the rows of a table is sound. *)
Lemma consistentb_sound t : consistentb t = true -> consistent t.
Proof.
  unfold consistentb, consistent. cbv zeta. intros H.
  apply andb_prop in H as [Hid Hpairs].
  rewrite forallb_forall in Hid, Hpairs.
  assert (Hin : forall k r, rows t !! k = Some r -> In (k, r) (map_to_list (rows t))).
  { intros k r Hk. apply list_elem_of_In, elem_of_map_to_list. exact Hk. }
  assert (Hpair : forall k1 k2 r1 r2,
            rows t !! k1 = Some r1 -> rows t !! k2 = Some r2 ->
            cust_nik r1 = cust_nik r2 \/ cust_phone r1 = cust_phone r2 -> k1 = k2).
  { intros k1 k2 r1 r2 H1 H2 E.
    specialize (Hpairs (k1, r1) (Hin _ _ H1)). rewrite forallb_forall in Hpairs.
    specialize (Hpairs (k2, r2) (Hin _ _ H2)). cbn [fst snd] in Hpairs.
    destruct (Z.eqb_spec k1 k2); [assumption|exfalso].
    destruct E as [E|E]; apply String.eqb_eq in E; rewrite E in Hpairs;
      [|rewrite orb_true_r in Hpairs]; discriminate. }
  split; [|split].
  - intros k r Hk. specialize (Hid (k, r) (Hin _ _ Hk)). cbn [fst snd] in Hid.
    apply andb_prop in Hid as [E L]. split; [apply Z.eqb_eq|apply Z.ltb_lt]; assumption.
  - intros k1 k2 r1 r2 H1 H2 E. apply (Hpair k1 k2 r1 r2 H1 H2). left. exact E.
  - intros k1 k2 r1 r2 H1 H2 E. apply (Hpair k1 k2 r1 r2 H1 H2). right. exact E.
Qed.

(** X18.  POST /api/customers answers 201, 400, 409 or 500 and nothing
    else.  400 is the answer to every body that fails the schema (NIK of
    exactly 16 characters, name of at least 2, phone of at least 10,
    address of at least 5), before any call on the database.  For a
    valid body the handler looks up the NIK, then the phone number, then
    inserts: the first of these calls that is rejected ends the request
    with 500 and the message of its error; a stored customer with the
    NIK, or else with the phone number, ends it with 409; otherwise the
    answer is 201.  So with no call rejected a valid body gets 409
    exactly when its NIK or its phone number is taken.  Only a 201
    changes the table: it adds one row, under the next id, with the four
    strings of the body and the clock reading. *)
Theorem customer_create_outcome now faults t body :
  let t' := fst (create now faults t body) in
  let resp := snd (create now faults t body) in
  let nik_taken :=
    exists k r, rows t !! k = Some r /\ body_nik body = JStr (cust_nik r) in
  let phone_taken :=
    exists k r, rows t !! k = Some r /\ body_phone body = JStr (cust_phone r) in
  (status resp = 201 \/ status resp = 400 \/ status resp = 409 \/
   status resp = 500) /\
  (status resp = 400 <-> ~ valid body) /\
  (status resp = 500 <->
   valid body /\
   (is_Some (faults FindByNik) \/
    ~ nik_taken /\
    (is_Some (faults FindByPhone) \/
     ~ phone_taken /\ is_Some (faults Insert)))) /\
  (status resp = 409 <->
   valid body /\ faults FindByNik = None /\
   (nik_taken \/ faults FindByPhone = None /\ phone_taken)) /\
  (status resp = 500 ->
   exists call message,
     faults call = Some message /\ error resp = Some (Message message)) /\
  ((forall call, faults call = None) ->
   status resp <> 500 /\
   (status resp = 409 <-> valid body /\ (nik_taken \/ phone_taken))) /\
  (status resp <> 201 -> t' = t /\ data resp = None) /\
  (status resp = 201 ->
   exists row,
     data resp = Some row /\
     rows t' = <[next_customer_id t := row]> (rows t) /\
     next_customer_id t' = next_customer_id t + 1 /\
     cust_id row = next_customer_id t /\
     cust_created_at row = now /\
     body = mkCustomerBody (JStr (cust_nik row)) (JStr (cust_name row))
              (JStr (cust_phone row)) (JStr (cust_address row))).
Proof.
  cbv zeta. unfold create, internal_error.
  destruct (customerSchema body) as [issues|v] eqn:Es.
  { assert (Hnv : ~ valid body).
    { intros Hv. apply customerSchema_valid in Hv as [v Hv]. congruence. }
    cbn [fst snd status data error].
    split; [auto|]. split; [tauto|].
    split; [split; [discriminate|intros [Hv _]; contradiction]|].
    split; [split; [discriminate|intros [Hv _]; contradiction]|].
    split; [discriminate|].
    split; [intros _; split; [discriminate|];
            split; [discriminate|intros [Hv _]; contradiction]|].
    split; [auto|discriminate]. }
  assert (Hv : valid body) by (apply customerSchema_valid; eauto).
  pose proof (proj1 (customerSchema_inr body v) Es) as (Hb & _).
  assert (Hnik : (exists k r, rows t !! k = Some r /\
                              body_nik body = JStr (cust_nik r)) <->
                 findUnique cust_nik (v_nik v) t <> None).
  { split.
    - intros (k & r & Hk & E) C. rewrite Hb in E. cbn in E. inversion E as [E'].
      exact (proj1 (findUnique_None _ _ _) C k r Hk (eq_sym E')).
    - intros C. destruct (findUnique cust_nik (v_nik v) t) as [r|] eqn:En;
        [|contradiction].
      destruct (findUnique_Some _ _ _ _ En) as (k & Hk & Hr).
      exists k, r. split; [exact Hk|]. rewrite Hb, Hr. reflexivity. }
  assert (Hphone : (exists k r, rows t !! k = Some r /\
                                body_phone body = JStr (cust_phone r)) <->
                   findUnique cust_phone (v_phone v) t <> None).
  { split.
    - intros (k & r & Hk & E) C. rewrite Hb in E. cbn in E. inversion E as [E'].
      exact (proj1 (findUnique_None _ _ _) C k r Hk (eq_sym E')).
    - intros C. destruct (findUnique cust_phone (v_phone v) t) as [r|] eqn:En;
        [|contradiction].
      destruct (findUnique_Some _ _ _ _ En) as (k & Hk & Hr).
      exists k, r. split; [exact Hk|]. rewrite Hb, Hr. reflexivity. }
  rewrite Hnik, Hphone. clear Hnik Hphone.
  destruct (faults FindByNik) as [m1|] eqn:F1.
  { cbn [fst snd status data error].
    split; [auto|]. split; [split; [discriminate|tauto]|].
    split; [split; [intros _; split; [exact Hv|left; eauto]|reflexivity]|].
    split; [split; [discriminate|intros (_ & C & _); discriminate]|].
    split; [intros _; exists FindByNik, m1; split; [exact F1|reflexivity]|].
    split; [intros Hnone; rewrite Hnone in F1; discriminate|].
    split; [auto|discriminate]. }
  destruct (findUnique cust_nik (v_nik v) t) as [r|] eqn:En.
  { cbn [fst snd status data error].
    split; [auto|]. split; [split; [discriminate|tauto]|].
    split.
    { split; [discriminate|]. intros (_ & [[m C]|[C _]]); [discriminate|].
      exfalso. apply C. discriminate. }
    split; [split; [intros _; split; [exact Hv|]; split; [reflexivity|];
                    left; discriminate|reflexivity]|].
    split; [discriminate|].
    split; [intros _; split; [discriminate|];
            split; [intros _; split; [exact Hv|left; discriminate]|reflexivity]|].
    split; [auto|discriminate]. }
  destruct (faults FindByPhone) as [m2|] eqn:F2.
  { cbn [fst snd status data error].
    split; [auto|]. split; [split; [discriminate|tauto]|].
    split.
    { split; [|reflexivity]. intros _. split; [exact Hv|]. right.
      split; [intros C; apply C; reflexivity|]. left. eauto. }
    split.
    { split; [discriminate|]. intros (_ & _ & [C|[C _]]); [|discriminate].
      exfalso. apply C. reflexivity. }
    split; [intros _; exists FindByPhone, m2; split; [exact F2|reflexivity]|].
    split; [intros Hnone; rewrite Hnone in F2; discriminate|].
    split; [auto|discriminate]. }
  destruct (findUnique cust_phone (v_phone v) t) as [r|] eqn:Ep.
  { cbn [fst snd status data error].
    split; [auto|]. split; [split; [discriminate|tauto]|].
    split.
    { split; [discriminate|]. intros (_ & [[m C]|[_ [[m C]|[C _]]]]);
        [discriminate|discriminate|].
      exfalso. apply C. discriminate. }
    split; [split; [intros _; split; [exact Hv|]; split; [reflexivity|];
                    right; split; [reflexivity|discriminate]|reflexivity]|].
    split; [discriminate|].
    split; [intros _; split; [discriminate|];
            split; [intros _; split; [exact Hv|right; discriminate]|reflexivity]|].
    split; [auto|discriminate]. }
  destruct (faults Insert) as [m3|] eqn:F3.
  { cbn [fst snd status data error].
    split; [auto|]. split; [split; [discriminate|tauto]|].
    split.
    { split; [|reflexivity]. intros _. split; [exact Hv|]. right.
      split; [intros C; apply C; reflexivity|]. right.
      split; [intros C; apply C; reflexivity|]. eauto. }
    split.
    { split; [discriminate|]. intros (_ & _ & [C|[_ C]]); exfalso; apply C;
        reflexivity. }
    split; [intros _; exists Insert, m3; split; [exact F3|reflexivity]|].
    split; [intros Hnone; rewrite Hnone in F3; discriminate|].
    split; [auto|discriminate]. }
  cbn [fst snd status data error rows next_customer_id cust_id cust_created_at
       cust_nik cust_name cust_phone cust_address].
  split; [auto|]. split; [split; [discriminate|tauto]|].
  split.
  { split; [discriminate|].
    intros (_ & [[m C]|[_ [[m C]|[_ [m C]]]]]); discriminate. }
  split.
  { split; [discriminate|]. intros (_ & _ & [C|[_ C]]); exfalso; apply C;
      reflexivity. }
  split; [discriminate|].
  split.
  { intros _. split; [discriminate|]. split; [discriminate|].
    intros (_ & [C|C]); exfalso; apply C; reflexivity. }
  split; [intros C; contradiction|].
  intros _. eexists. split; [reflexivity|]. cbn. repeat split. exact Hb.
Qed.

(** X19.  NIK and phone number stay unique.  In a table whose rows sit
    under their ids below the id sequence and share no NIK and no phone
    number, a request, whatever its body, whichever calls are rejected
    and whatever its outcome, leaves such a table, and every row stored
    before is still there. *)
Theorem customer_create_consistent now faults t body :
  consistent t ->
  consistent (fst (create now faults t body)) /\
  (forall k r, rows t !! k = Some r ->
               rows (fst (create now faults t body)) !! k = Some r).
Proof.
  intros (Hid & Hnik & Hphone). unfold create, internal_error.
  destruct (customerSchema body) as [issues|v];
    [split; [split; [|split]|]; auto|].
  destruct (faults FindByNik); [split; [split; [|split]|]; auto|].
  destruct (findUnique cust_nik (v_nik v) t) eqn:En;
    [split; [split; [|split]|]; auto|].
  destruct (faults FindByPhone); [split; [split; [|split]|]; auto|].
  destruct (findUnique cust_phone (v_phone v) t) eqn:Ep;
    [split; [split; [|split]|]; auto|].
  destruct (faults Insert); [split; [split; [|split]|]; auto|].
  pose proof (proj1 (findUnique_None _ _ _) En) as Hn.
  pose proof (proj1 (findUnique_None _ _ _) Ep) as Hp.
  unfold consistent. cbn [fst rows next_customer_id cust_id].
  set (row := mkCustomerRow _ _ _ _ _ _).
  assert (Hlook : forall k r,
            <[next_customer_id t := row]> (rows t) !! k = Some r ->
            (k = next_customer_id t /\ r = row) \/
            (k <> next_customer_id t /\ rows t !! k = Some r)).
  { intros k r H. destruct (decide (k = next_customer_id t)) as [->|Hne].
    - rewrite lookup_insert_eq in H. inversion H. left. auto.
    - rewrite lookup_insert_ne in H by congruence. right. auto. }
  split; [split; [|split]|].
  - intros k r H. destruct (Hlook k r H) as [[-> ->]|[Hne Hk]].
    + cbn. split; [reflexivity|lia].
    + destruct (Hid k r Hk). split; [assumption|lia].
  - intros k1 k2 r1 r2 H1 H2 E.
    destruct (Hlook k1 r1 H1) as [[-> ->]|[Hne1 Hk1]],
             (Hlook k2 r2 H2) as [[-> ->]|[Hne2 Hk2]].
    + reflexivity.
    + exfalso. apply (Hn k2 r2 Hk2). rewrite <- E. reflexivity.
    + exfalso. apply (Hn k1 r1 Hk1). rewrite E. reflexivity.
    + eapply Hnik; eassumption.
  - intros k1 k2 r1 r2 H1 H2 E.
    destruct (Hlook k1 r1 H1) as [[-> ->]|[Hne1 Hk1]],
             (Hlook k2 r2 H2) as [[-> ->]|[Hne2 Hk2]].
    + reflexivity.
    + exfalso. apply (Hp k2 r2 Hk2). rewrite <- E. reflexivity.
    + exfalso. apply (Hp k1 r1 Hk1). rewrite E. reflexivity.
    + eapply Hphone; eassumption.
  - intros k r Hk. rewrite lookup_insert_ne; [exact Hk|].
    intros E. destruct (Hid k r Hk) as [_ Hlt]. lia.
Qed.

Lemma customer_create_consistent_witness :
  let budi := mkCustomerRow 1 "3171000000000001" "Budi" "081234567890"
                "Jl. Melati 5" Sample.jan15 in
  let ani := mkCustomerRow 2 "3171000000000002" "Ani" "081234567891"
               "Jl. Kenanga 2" Sample.jan15 in
  let t := mkTable (<[1 := budi]> (<[2 := ani]> ∅)) 3 in
  let same_phone := mkCustomerBody (JStr "3171000000000003") (JStr "Siti")
                      (JStr "081234567890") (JStr "Jl. Mawar 1") in
  let newcomer := mkCustomerBody (JStr "3171000000000003") (JStr "Siti")
                    (JStr "081234567892") (JStr "Jl. Mawar 1") in
  (status (snd (create Sample.jan31 no_fault t same_phone)) = 409 /\
   consistent (fst (create Sample.jan31 no_fault t same_phone)) /\
   rows (fst (create Sample.jan31 no_fault t same_phone)) !! 1 = Some budi) /\
  (status (snd (create Sample.jan31 no_fault t newcomer)) = 201 /\
   consistent (fst (create Sample.jan31 no_fault t newcomer)) /\
   rows (fst (create Sample.jan31 no_fault t newcomer)) !! 2 = Some ani /\
   is_Some (rows (fst (create Sample.jan31 no_fault t newcomer)) !! 3)).
Proof.
  intros budi ani t same_phone newcomer.
  assert (Ht : consistent t).
  { apply consistentb_sound. vm_compute. reflexivity. }
  assert (H1 : rows t !! 1 = Some budi) by (vm_compute; reflexivity).
  assert (H2 : rows t !! 2 = Some ani) by (vm_compute; reflexivity).
  split.
  - destruct (customer_create_consistent Sample.jan31 no_fault t same_phone Ht)
      as [Hc Hk].
    split; [vm_compute; reflexivity|]. split; [exact Hc|]. apply Hk. exact H1.
  - destruct (customer_create_consistent Sample.jan31 no_fault t newcomer Ht)
      as [Hc Hk].
    split; [vm_compute; reflexivity|]. split; [exact Hc|].
    split; [apply Hk; exact H2|]. vm_compute. eexists. reflexivity.
Defined.

(** Registering Budi twice, a second customer with his phone number, a
    short NIK, a NIK that is not a string, a NIK of 16 letters, and a
    registration during which the insert is rejected. *)
Example customer_samples :
  let budi := mkCustomerBody (JStr "3171000000000001") (JStr "Budi")
                (JStr "081234567890") (JStr "Jl. Melati 5") in
  let t1 := fst (create Sample.jan15 no_fault (mkTable ∅ 1) budi) in
  status (snd (create Sample.jan15 no_fault (mkTable ∅ 1) budi)) = 201 /\
  error (snd (create Sample.jan31 no_fault t1 budi))
    = Some (Message "NIK sudah terdaftar") /\
  error (snd (create Sample.jan31 no_fault t1
                (mkCustomerBody (JStr "3171000000000002") (JStr "Siti")
                   (JStr "081234567890") (JStr "Jl. Mawar 1"))))
    = Some (Message "Nomor telepon sudah terdaftar") /\
  error (snd (create Sample.jan31 no_fault t1
                (mkCustomerBody (JStr "31710") (JStr "S")
                   (JStr "081234567899") (JStr "Jl. Mawar 1"))))
    = Some (Issues [mkIssue too_small "nik" (Some "NIK harus 16 digit");
                    mkIssue too_small "name" (Some "Nama minimal 2 karakter")]) /\
  error (snd (create Sample.jan31 no_fault t1
                (mkCustomerBody (JNum (Dec.of_Z 3171000000000002)) (JStr "Siti")
                   (JStr "081234567899") (JStr "Jl. Mawar 1"))))
    = Some (Issues [mkIssue invalid_type "nik" None]) /\
  status (snd (create Sample.jan31 no_fault t1
                 (mkCustomerBody (JStr "ABCDEFGHIJKLMNOP") (JStr "Siti")
                    (JStr "081234567899") (JStr "Jl. Mawar 1")))) = 201 /\
  create Sample.jan31
    (fun call => match call with Insert => Some "Connection lost" | _ => None end)
    t1 (mkCustomerBody (JStr "3171000000000002") (JStr "Siti")
          (JStr "081234567899") (JStr "Jl. Mawar 1"))
  = (t1, mkResponse 500 false (Some (Message "Connection lost")) None).
Proof. vm_compute. repeat split. Qed.

End Customers.

(** ** The amounts a contract stores *)

Section StoredAmounts.

Import Dec Store Text Credit Ledger.
Local Open Scope Z_scope.

(** Rounding half-up moves a coefficient by at most half a unit of the
    digit it rounds to. *)
Lemma round_half_up_close c k :
  0 < k ->
  - 10 ^ k <= 2 * (round_div ROUND_HALF_UP c k * 10 ^ k - c) <= 10 ^ k.
Proof.
  intros Hk. unfold round_div.
  pose proof (pow10_pos k ltac:(lia)) as HP.
  set (P := 10 ^ k) in *.
  pose proof (Z.mul_div_le (2 * Z.abs c + P) (2 * P) ltac:(lia)) as H1.
  pose proof (Z.mul_succ_div_gt (2 * Z.abs c + P) (2 * P) ltac:(lia)) as H2.
  set (q := (2 * Z.abs c + P) / (2 * P)) in *.
  destruct (Z.lt_trichotomy c 0) as [Hc|[Hc|Hc]].
  - rewrite (Z.sgn_neg c Hc). rewrite (Z.abs_neq c) in H1, H2 by lia. nia.
  - subst c. cbn [Z.sgn]. lia.
  - rewrite (Z.sgn_pos c Hc). rewrite (Z.abs_eq c) in H1, H2 by lia. nia.
Qed.

Lemma Qpower10_shift e k :
  0 <= k -> (inject_Z 10 ^ (e + k) == inject_Z (10 ^ k) * inject_Z 10 ^ e)%Q.
Proof.
  intros Hk. rewrite Qpower_plus by exact ten_neq_0.
  rewrite Zpower_Qpower by exact Hk. ring.
Qed.

(** [toDecimalPlaces(dp)] in the configured mode stays within half a
    unit of the last decimal place kept. *)
Lemma toDecimalPlaces_close dp x :
  (Qabs (value (toDecimalPlaces dp ROUND_HALF_UP x) - value x)
   <= (1 # 2) * inject_Z 10 ^ (- dp))%Q.
Proof.
  unfold toDecimalPlaces, drop_digits.
  assert (Hpos : (0 <= (1 # 2) * inject_Z 10 ^ (- dp))%Q).
  { apply Qmult_le_0_compat; [discriminate|].
    apply Qlt_le_weak, Qpower_0_lt. reflexivity. }
  destruct (Z.leb_spec (- dexp x - dp) 0) as [Hk|Hk].
  { assert (E : (value x - value x == 0)%Q) by ring.
    rewrite E. exact Hpos. }
  set (k := - dexp x - dp) in *.
  pose proof (round_half_up_close (coef x) k Hk) as Hr.
  set (r := round_div ROUND_HALF_UP (coef x) k) in *.
  pose proof (pow10_pos k ltac:(lia)) as HP.
  set (T := (inject_Z 10 ^ dexp x)%Q).
  assert (HT : (0 < T)%Q) by (apply Qpower_0_lt; reflexivity).
  assert (E1 : (value (mkDec r (dexp x + k)) == inject_Z (r * 10 ^ k) * T)%Q).
  { rewrite value_mkDec, Qpower10_shift by lia. rewrite inject_Z_mult.
    unfold T. ring. }
  assert (E2 : (value x == inject_Z (coef x) * T)%Q) by reflexivity.
  assert (E3 : (inject_Z 10 ^ (- dp) == inject_Z (10 ^ k) * T)%Q).
  { replace (- dp) with (dexp x + k) by (unfold k; lia).
    apply Qpower10_shift. lia. }
  rewrite E1, E2, E3.
  assert (ED : (inject_Z (r * 10 ^ k) * T - inject_Z (coef x) * T
                == inject_Z (2 * (r * 10 ^ k - coef x)) * (T / 2))%Q).
  { unfold Z.sub. rewrite !inject_Z_mult, inject_Z_plus, inject_Z_mult,
      inject_Z_opp. change (inject_Z 2) with 2%Q. field. }
  assert (EH : ((1 # 2) * (inject_Z (10 ^ k) * T) == inject_Z (10 ^ k) * (T / 2))%Q)
    by field.
  rewrite ED, EH.
  assert (HW : (0 <= T / 2)%Q) by (apply Qle_shift_div_l; lra).
  apply Qabs_Qle_condition. split.
  - assert (EN : (- (inject_Z (10 ^ k) * (T / 2))
                  == inject_Z (- 10 ^ k) * (T / 2))%Q)
      by (rewrite inject_Z_opp; ring).
    rewrite EN. apply Qmult_le_compat_r; [|exact HW].
    rewrite <- Zle_Qle. lia.
  - apply Qmult_le_compat_r; [|exact HW]. rewrite <- Zle_Qle. lia.
Qed.

(** An amount that has no more than [dp] decimals is kept as it is. *)
Lemma toDecimalPlaces_exact dp x n :
  (value x == inject_Z n * inject_Z 10 ^ (- dp))%Q ->
  (value (toDecimalPlaces dp ROUND_HALF_UP x) == value x)%Q.
Proof.
  intros Hx. unfold toDecimalPlaces, drop_digits.
  destruct (Z.leb_spec (- dexp x - dp) 0) as [Hk|Hk]; [reflexivity|].
  set (k := - dexp x - dp) in *.
  assert (Hc : coef x = n * 10 ^ k).
  { apply (value_same_exp _ _ (dexp x)).
    rewrite <- value_eta, Hx.
    rewrite <- (value_shift n (- dp) k) by lia.
    replace (- dp - k) with (dexp x) by (unfold k; lia). reflexivity. }
  rewrite Hc, round_half_up_multiple by exact Hk.
  rewrite (value_eta x), Hc.
  rewrite <- (value_shift n (dexp x + k) k) by lia.
  replace (dexp x + k - k) with (dexp x) by lia. reflexivity.
Qed.

(** X20.  What a sale stores is what the simulation computed.  Within
    the precision of the decimal arithmetic, the contract's principal
    and total interest are the exact amounts price - dp and
    principal x rate / 100 x tenor rounded to four decimals (so within
    0.00005 of them, and equal to them when they have no more than four
    decimals), and the contract's monthly installment and the amount due
    of every installment are exactly the ceiling of the total loan over
    the tenor. *)
Theorem createTransaction_amounts now now' db input db' res :
  createTransaction now now' db input = inr (db', res) ->
  0 < c_tenorMonths input ->
  let rate := interest_rate (scheme_snapshot (cr_transaction res)) in
  let price := c_price input in
  let dp := c_dp input in
  let n := c_tenorMonths input in
  Exact.within_precision price dp rate n ->
  let c := cr_contract res in
  (Qabs (value (principal_amount c) - Exact.principal price dp)
   <= 1 # 20000)%Q /\
  (Qabs (value (total_interest c) - Exact.interestAmount price dp rate n)
   <= 1 # 20000)%Q /\
  (forall m, (Exact.principal price dp == inject_Z m / 10000)%Q ->
             (value (principal_amount c) == Exact.principal price dp)%Q) /\
  (forall m, (Exact.interestAmount price dp rate n == inject_Z m / 10000)%Q ->
             (value (total_interest c)
              == Exact.interestAmount price dp rate n)%Q) /\
  (value (monthly_installment c)
   == inject_Z (Exact.monthlyInstallment price dp rate n))%Q /\
  Forall (fun r => (value (amount_due r)
                    == inject_Z (Exact.monthlyInstallment price dp rate n))%Q)
         (cr_installments res).
Proof.
  intros Hrun Hn rate price dp n Hw c. subst price dp n.
  destruct (createTransaction_inr _ _ _ _ _ _ Hrun)
    as (product & customer & sim & _ & _ & _ & _ & _ & Hsim & Hrest).
  cbv zeta in Hrest. destruct Hrest as (Hrows & Hc & Ht & _).
  assert (Hrate : rate = interest_rate (scheme sim)).
  { unfold rate. rewrite Ht. reflexivity. }
  rewrite Hrate in *.
  destruct (simulation_exact db _ sim Hsim Hn Hw) as (E1 & E2 & _ & E4).
  cbn [Credit.price Credit.dp tenorMonths] in E1, E2, E4.
  pose proof (stored4_monthlyInstallment _ _ _ Hsim) as Hst.
  assert (Hhalf : ((1 # 2) * inject_Z 10 ^ (- 4) == 1 # 20000)%Q) by reflexivity.
  assert (Hfour : forall m, (inject_Z m / 10000
                             == inject_Z m * inject_Z 10 ^ (- 4))%Q).
  { intros m. change (inject_Z 10 ^ (- 4))%Q with (/ 10000)%Q. reflexivity. }
  unfold c. rewrite Hc.
  cbn [principal_amount total_interest monthly_installment].
  split; [|split; [|split; [|split; [|split]]]].
  - rewrite <- E1, <- Hhalf. apply toDecimalPlaces_close.
  - rewrite <- E2, <- Hhalf. apply toDecimalPlaces_close.
  - intros m Hm. rewrite <- E1 in *. rewrite Hfour in Hm.
    apply (toDecimalPlaces_exact 4 _ m Hm).
  - intros m Hm. rewrite <- E2 in *. rewrite Hfour in Hm.
    apply (toDecimalPlaces_exact 4 _ m Hm).
  - rewrite Hst. exact E4.
  - rewrite Hrows. apply rows_from_Forall. intros id i.
    cbn [amount_due]. rewrite Hst. exact E4.
Qed.

Lemma createTransaction_amounts_witness :
  exists db' res,
    createTransaction Sample.jan15 Sample.jan15 Sample.db
      (mkCreateTransactionInput 7 5 (of_Z 4500000) (of_Z 500000) 1 6 5)
    = inr (db', res) /\
    (value (principal_amount (cr_contract res)) == inject_Z 4000000)%Q /\
    (value (total_interest (cr_contract res)) == inject_Z 480000)%Q /\
    (value (monthly_installment (cr_contract res)) == inject_Z 746667)%Q.
Proof.
  destruct (createTransaction Sample.jan15 Sample.jan15 Sample.db
              (mkCreateTransactionInput 7 5 (of_Z 4500000) (of_Z 500000) 1 6 5))
    as [msg|[db' res]] eqn:E; [vm_compute in E; discriminate|].
  exists db', res. split; [reflexivity|].
  assert (Hrate : interest_rate (scheme_snapshot (cr_transaction res)) = mkDec 2 0).
  { vm_compute in E. inversion E. reflexivity. }
  assert (Hn : 0 < 6) by lia.
  pose proof (createTransaction_amounts _ _ _ _ _ _ E Hn) as H.
  cbv zeta in H.
  cbn [c_price c_dp c_tenorMonths] in H. rewrite Hrate in H.
  destruct (H sample_within_precision) as (_ & _ & H3 & H4 & H5 & _).
  split; [|split].
  - rewrite (H3 40000000000); vm_compute; reflexivity.
  - rewrite (H4 4800000000); vm_compute; reflexivity.
  - rewrite H5. vm_compute. reflexivity.
Defined.

End StoredAmounts.

(** ** Simulation and sale *)

Section SimulationAndSale.

Import Dec Store Text Credit Ledger Http Reply Forms.
Local Open Scope Z_scope.

(** X21.  A larger down payment never raises what is owed.  For the same
    price, scheme and tenor and a rate that is not negative, of two
    simulations that go through (within the precision of the decimal
    arithmetic) the one with the larger dp has the smaller or equal
    total loan and monthly installment. *)
Theorem calculateSimulation_antitone_dp db p d1 d2 sid t r1 r2 :
  calculateSimulation db (mkSimulationInput p d1 sid t) = inr r1 ->
  calculateSimulation db (mkSimulationInput p d2 sid t) = inr r2 ->
  0 < t ->
  Exact.within_precision p d1 (interest_rate (scheme r1)) t ->
  Exact.within_precision p d2 (interest_rate (scheme r1)) t ->
  (0 <= value (interest_rate (scheme r1)))%Q ->
  (value d1 <= value d2)%Q ->
  (value (totalLoan (raw r2)) <= value (totalLoan (raw r1)))%Q /\
  (value (monthlyInstallment (raw r2)) <= value (monthlyInstallment (raw r1)))%Q.
Proof.
  intros H1 H2 Ht W1 W2 Hrate Hd.
  assert (Hs : scheme r2 = scheme r1).
  { destruct (calculateSimulation_inr _ _ _ H1) as (s1 & L1 & _ & _ & _ & _ & S1 & _).
    destruct (calculateSimulation_inr _ _ _ H2) as (s2 & L2 & _ & _ & _ & _ & S2 & _).
    cbn [schemeId] in L1, L2. congruence. }
  destruct (simulation_exact _ _ _ H1 Ht W1) as (_ & _ & T1 & M1).
  rewrite <- Hs in W2.
  destruct (simulation_exact _ _ _ H2 Ht W2) as (_ & _ & T2 & M2).
  rewrite Hs in T2, M2.
  cbn [price dp tenorMonths] in T1, T2, M1, M2.
  set (R := value (interest_rate (scheme r1))) in *.
  assert (HT : (0 < inject_Z t)%Q).
  { change (inject_Z 0 < inject_Z t)%Q. rewrite <- Zlt_Qlt. exact Ht. }
  assert (Hf : (0 <= 1 + R / inject_Z 100 * inject_Z t)%Q).
  { assert (0 <= R / inject_Z 100 * inject_Z t)%Q; [|lra].
    apply Qmult_le_0_compat; [|lra].
    apply Qle_shift_div_l; [reflexivity|lra]. }
  assert (HL : (Exact.totalLoan p d2 (interest_rate (scheme r1)) t
                <= Exact.totalLoan p d1 (interest_rate (scheme r1)) t)%Q).
  { unfold Exact.totalLoan, Exact.interestAmount, Exact.principal. fold R.
    assert (E : forall d,
              (value p - value d + (value p - value d) * (R / inject_Z 100) * inject_Z t
               == (value p - value d) * (1 + R / inject_Z 100 * inject_Z t))%Q)
      by (intros d; ring).
    rewrite !E. apply Qmult_le_compat_r; [lra|exact Hf]. }
  split.
  - rewrite T1, T2. exact HL.
  - rewrite M1, M2. rewrite <- Zle_Qle. unfold Exact.monthlyInstallment.
    apply Qceiling_resp_le.
    apply Qmult_le_compat_r; [exact HL|].
    apply Qlt_le_weak, Qinv_lt_0_compat. exact HT.
Qed.

Lemma calculateSimulation_antitone_dp_witness :
  exists r1 r2,
    calculateSimulation Sample.db
      (mkSimulationInput (of_Z 4500000) (of_Z 500000) 1 6) = inr r1 /\
    calculateSimulation Sample.db
      (mkSimulationInput (of_Z 4500000) (of_Z 900000) 1 6) = inr r2 /\
    (value (monthlyInstallment (raw r2)) <= value (monthlyInstallment (raw r1)))%Q.
Proof.
  destruct (calculateSimulation Sample.db
              (mkSimulationInput (of_Z 4500000) (of_Z 500000) 1 6))
    as [m|r1] eqn:E1; [vm_compute in E1; discriminate|].
  destruct (calculateSimulation Sample.db
              (mkSimulationInput (of_Z 4500000) (of_Z 900000) 1 6))
    as [m|r2] eqn:E2; [vm_compute in E2; discriminate|].
  exists r1, r2. split; [reflexivity|]. split; [reflexivity|].
  assert (Hr : interest_rate (scheme r1) = mkDec 2 0).
  { vm_compute in E1. inversion E1. reflexivity. }
  assert (Ht : 0 < 6) by lia.
  assert (W1 : Exact.within_precision (of_Z 4500000) (of_Z 500000)
                 (interest_rate (scheme r1)) 6).
  { rewrite Hr. exact sample_within_precision. }
  assert (W2 : Exact.within_precision (of_Z 4500000) (of_Z 900000)
                 (interest_rate (scheme r1)) 6).
  { rewrite Hr.
    apply (within_precision_whole_amounts _ _ _ 6 4500000 900000 200);
      try (vm_compute; reflexivity); try lia. }
  assert (H0 : (0 <= value (interest_rate (scheme r1)))%Q).
  { rewrite Hr. vm_compute. discriminate. }
  assert (Hd : (value (of_Z 500000) <= value (of_Z 900000))%Q).
  { vm_compute. discriminate. }
  exact (proj2 (calculateSimulation_antitone_dp _ _ _ _ _ _ _ _ E1 E2 Ht W1 W2 H0 Hd)).
Defined.



End SimulationAndSale.

(** ** Whole amounts and refused tenors *)

Section WholeAmounts.

Import Dec Store Text Credit.
Local Open Scope Z_scope.

(** X23.  For amounts in whole currency units the engine is exact.  With
    a price P below 10^12, a down payment D between 0 and P, a monthly
    rate of R / 100 percent for a whole R below 10000 (a rate with two
    decimals below 100 percent) and a tenor t of 1 to 120 months, every
    simulation that goes through returns principal = P - D, interest =
    (P - D) R t / 10000, their sum as the total loan and the ceiling of
    total / t as the monthly installment: none of the 20-digit roundings
    of the decimal arithmetic comes into play. *)
Theorem calculateSimulation_whole_amounts db input r P D R :
  calculateSimulation db input = inr r ->
  (value (price input) == inject_Z P)%Q ->
  (value (dp input) == inject_Z D)%Q ->
  (value (interest_rate (scheme r)) == inject_Z R / inject_Z 100)%Q ->
  0 <= D <= P -> P < 10 ^ 12 -> 0 <= R < 10 ^ 4 ->
  0 < tenorMonths input <= 120 ->
  let t := tenorMonths input in
  let total := (inject_Z (P - D) + inject_Z ((P - D) * R * t) / 10000)%Q in
  (value (principal (raw r)) == inject_Z (P - D))%Q /\
  (value (interestAmount (raw r)) == inject_Z ((P - D) * R * t) / 10000)%Q /\
  (value (totalLoan (raw r)) == total)%Q /\
  (value (monthlyInstallment (raw r))
   == inject_Z (Qceiling (total / inject_Z t)))%Q.
Proof.
  intros Hrun HP HD HR HDP HPmax HRmax Ht. cbv zeta.
  set (t := tenorMonths input) in *.
  set (total := (inject_Z (P - D) + inject_Z ((P - D) * R * t) / 10000)%Q).
  pose proof (within_precision_whole_amounts (price input) (dp input)
                (interest_rate (scheme r)) t P D R HP HD HR HDP HPmax HRmax Ht)
    as Hw.
  destruct (simulation_exact db input r Hrun (proj1 Ht) Hw) as (E1 & E2 & E3 & E4).
  fold t in E1, E2, E3, E4.
  assert (F1 : (Exact.principal (price input) (dp input) == inject_Z (P - D))%Q).
  { unfold Exact.principal. rewrite HP, HD. unfold Z.sub.
    rewrite inject_Z_plus, inject_Z_opp. ring. }
  assert (F2 : (Exact.interestAmount (price input) (dp input)
                  (interest_rate (scheme r)) t
                == inject_Z ((P - D) * R * t) / 10000)%Q).
  { unfold Exact.interestAmount. rewrite F1, HR, !inject_Z_mult.
    change (inject_Z 100) with 100%Q. field. }
  assert (F3 : (Exact.totalLoan (price input) (dp input)
                  (interest_rate (scheme r)) t == total)%Q).
  { unfold Exact.totalLoan. rewrite F1, F2. reflexivity. }
  split; [rewrite E1; exact F1|]. split; [rewrite E2; exact F2|].
  split; [rewrite E3; exact F3|].
  rewrite E4. unfold Exact.monthlyInstallment.
  assert (F4 : (Exact.totalLoan (price input) (dp input)
                  (interest_rate (scheme r)) t / inject_Z t
                == total / inject_Z t)%Q) by (rewrite F3; reflexivity).
  rewrite (Qceiling_comp _ _ F4). reflexivity.
Qed.

Lemma calculateSimulation_whole_amounts_witness :
  exists r,
    calculateSimulation Sample.db
      (mkSimulationInput (of_Z 4500000) (of_Z 500000) 1 6) = inr r /\
    (value (principal (raw r)) == inject_Z 4000000)%Q /\
    (value (interestAmount (raw r)) == inject_Z 480000)%Q /\
    (value (totalLoan (raw r)) == inject_Z 4480000)%Q /\
    (value (monthlyInstallment (raw r)) == inject_Z 746667)%Q.
Proof.
  destruct (calculateSimulation Sample.db
              (mkSimulationInput (of_Z 4500000) (of_Z 500000) 1 6))
    as [m|r] eqn:E; [vm_compute in E; discriminate|].
  exists r. split; [reflexivity|].
  assert (HP : (value (price (mkSimulationInput (of_Z 4500000) (of_Z 500000) 1 6))
                == inject_Z 4500000)%Q) by (vm_compute; reflexivity).
  assert (HD : (value (dp (mkSimulationInput (of_Z 4500000) (of_Z 500000) 1 6))
                == inject_Z 500000)%Q) by (vm_compute; reflexivity).
  assert (HR : (value (interest_rate (scheme r)) == inject_Z 200 / inject_Z 100)%Q).
  { vm_compute in E. inversion E. vm_compute. reflexivity. }
  assert (H1 : 0 <= 500000 <= 4500000) by lia.
  assert (H2 : 4500000 < 10 ^ 12) by (vm_compute; reflexivity).
  assert (H3 : 0 <= 200 < 10 ^ 4) by (vm_compute; split; congruence).
  assert (H4 : 0 < tenorMonths (mkSimulationInput (of_Z 4500000) (of_Z 500000) 1 6)
               <= 120) by (cbn; lia).
  destruct (calculateSimulation_whole_amounts _ _ _ _ _ _ E HP HD HR H1 H2 H3 H4)
    as (G1 & G2 & G3 & G4).
  cbv zeta in G3, G4.
  split; [rewrite G1; vm_compute; reflexivity|].
  split; [rewrite G2; vm_compute; reflexivity|].
  split; [rewrite G3; vm_compute; reflexivity|].
  rewrite G4. vm_compute. reflexivity.
Defined.

Local Open Scope string_scope.







End WholeAmounts.

(** ** The schemes on offer *)

Section SchemesOnOffer.

Import Dec Store Text Credit Listing.
Local Open Scope Z_scope.

Lemma elem_of_getSchemes name_le db s :
  s ∈ getSchemes name_le db <->
  (exists k, schemes db !! k = Some s) /\ scheme_is_active s = true.
Proof.
  unfold getSchemes.
  rewrite merge_sort_Permutation, list_elem_of_filter, list_elem_of_fmap.
  split.
  - intros (Hact & [k s'] & -> & Hk). apply elem_of_map_to_list in Hk.
    split; [exists k; exact Hk|exact Hact].
  - intros ((k & Hk) & Hact). split; [exact Hact|].
    exists (k, s). split; [reflexivity|]. apply elem_of_map_to_list. exact Hk.
Qed.

(** X25.  What GET /api/schemes shows can be simulated.  With schemes
    stored under their own ids, take a scheme on the list and one of the
    tenors it shows, not zero: a simulation on the id of that scheme
    with that tenor is never refused for the scheme or for the tenor.
    It fails with the minimum-DP message when dp is below
    price x min_dp_percent / 100 as the engine computes it, and
    otherwise returns a result for that very scheme, tenor, price and
    dp. *)
Theorem getSchemes_offer name_le db s price dp tenor :
  (forall k s, schemes db !! k = Some s -> scheme_id s = k) ->
  s ∈ getSchemes name_le db ->
  In tenor (tenor_options s) ->
  tenor <> 0 ->
  let input := mkSimulationInput price dp (scheme_id s) tenor in
  let minimum := div (mul price (min_dp_percent s)) (of_Z 100) in
  (lt dp minimum = true ->
   calculateSimulation db input = inl (msg_min_dp (min_dp_percent s) minimum dp)) /\
  (lt dp minimum = false ->
   exists r,
     calculateSimulation db input = inr r /\ scheme r = s /\
     r_tenorMonths (raw r) = tenor /\
     r_price (raw r) = price /\ r_dp (raw r) = dp /\
     interestRate (raw r) = interest_rate s).
Proof.
  intros Hkeyed Hin Hten Hne. cbv zeta.
  apply elem_of_getSchemes in Hin as ((k & Hk) & Hact).
  pose proof (Hkeyed k s Hk) as Hid. subst k.
  unfold calculateSimulation. cbn [schemeId tenorMonths Credit.price Credit.dp].
  rewrite Hk, Hact.
  assert (Hinc : includesZ (tenor_options s) tenor = true).
  { unfold includesZ. apply existsb_exists. exists tenor.
    split; [exact Hten|apply Z.eqb_refl]. }
  rewrite Hinc. split; intros Hlt; rewrite Hlt; cbn [negb]; [reflexivity|].
  unfold isZero, of_Z. cbn [coef].
  destruct (Z.eqb_spec tenor 0) as [E|_]; [contradiction|]. cbn [negb].
  eexists. split; [reflexivity|]. cbn. repeat split.
Qed.

Lemma getSchemes_offer_witness :
  map scheme_name (getSchemes String.leb Sample.db) = ["Reguler"; "Ringan"]%string /\
  calculateSimulation Sample.db
    (mkSimulationInput (of_Z 4500000) (of_Z 100000) 1 9)
  = inl (msg_min_dp (mkDec 10 0)
           (div (mul (of_Z 4500000) (mkDec 10 0)) (of_Z 100)) (of_Z 100000)) /\
  exists r,
    calculateSimulation Sample.db
      (mkSimulationInput (of_Z 4500000) (of_Z 500000) 1 9) = inr r /\
    scheme r = Sample.reguler.
Proof.
  split; [vm_compute; reflexivity|].
  assert (Hkeyed : forall k s, schemes Sample.db !! k = Some s -> scheme_id s = k).
  { intros k s Hk.
    destruct (decide (k = 1)) as [->|N1];
      [vm_compute in Hk; inversion Hk; reflexivity|].
    destruct (decide (k = 2)) as [->|N2];
      [vm_compute in Hk; inversion Hk; reflexivity|].
    destruct (decide (k = 3)) as [->|N3];
      [vm_compute in Hk; inversion Hk; reflexivity|].
    exfalso. unfold Sample.db in Hk. cbn [schemes] in Hk.
    rewrite !lookup_insert_ne, lookup_empty in Hk by congruence. discriminate. }
  assert (Hin : Sample.reguler ∈ getSchemes String.leb Sample.db).
  { apply elem_of_getSchemes. split; [exists 1; vm_compute; reflexivity|reflexivity]. }
  assert (Hten : In 9 (tenor_options Sample.reguler)) by (cbn; tauto).
  assert (Hne : 9 <> 0) by discriminate.
  split.
  - refine (proj1 (getSchemes_offer String.leb Sample.db Sample.reguler
                     (of_Z 4500000) (of_Z 100000) 9 Hkeyed Hin Hten Hne) _).
    vm_compute. reflexivity.
  - destruct (proj2 (getSchemes_offer String.leb Sample.db Sample.reguler
                       (of_Z 4500000) (of_Z 500000) 9 Hkeyed Hin Hten Hne))
      as (r & Hr & Hs & _).
    + vm_compute. reflexivity.
    + exists r. split; assumption.
Defined.

End SchemesOnOffer.
